(** * evorl: advantage estimation, gradient wrappers, PPO, population-based
    training, the envpool adapter and the evolutionary optimizers

    A shallow embedding of the parts of the repository that carry its
    algorithmic content:

    - [src/evorl/utils/toolkits.py]            ([compute_gae],
                                                [right_shift]),
    - [src/evorl/types.py]                     ([Episode.valid_mask]),
    - [src/evorl/distributed/gradients.py]     ([gradient_update],
                                                [agent_gradient_update]),
    - [src/evorl/workflows/rl_workflow.py]     ([build_from_config],
                                                [OnPolicyWorkflow.evaluate]),
    - [src/evorl/agents/ppo.py]                (the loss, the construction,
                                                minibatches, update epochs
                                                and the training loop),
    - [src/evorl/agents/meta/pbt_distributed.py] ([_rescale_config],
                                                [setup], [step],
                                                [exploit_and_explore]),
    - [src/evorl/envs/envpool.py]              ([EnvPoolAdapter],
                                                [OneEpisodeWrapper]),
    - [src/evorl/ec/optimizers/ga.py]          ([GA.tell]),
    - [src/evorl/ec/optimizers/open_es.py]     ([compute_ranks],
                                                [OpenES.ask]).

    Python exceptions are values of an error monad; JAX arrays are lists
    with their shape; dictionaries are [gmap]s; collaborators that live
    outside the repository (the optimizer, the networks, the random number
    generator) are section variables.

    The floats that JAX computes with are an arbitrary carrier with its
    operations, of which no law is assumed: what is proved of them holds
    in [float32] as in any other arithmetic, and a law that a statement
    needs is a hypothesis of that statement.  The floats of Python are the
    IEEE binary64 numbers of the standard library's [SpecFloat], rounded
    to nearest even.  Rationals stand for the numbers written in a
    configuration, for floats that the code only compares or, in
    [valid_mask], subtracts from one, and for the floats of the examples,
    which are small dyadic numbers. *)

From Stdlib Require Import ZArith QArith Qround Lqa Qminmax.
From Stdlib Require SpecFloat.
From stdpp Require Import base option list gmap strings pretty sorting.

Local Open Scope Z_scope.

(** ** Exceptions as values *)

Inductive exn : Type :=
| AssertionError      (* chex.assert_shape, assert *)
| AttributeError      (* a missing attribute or configuration key *)
| KeyError            (* a missing dictionary key *)
| IndexError          (* a tuple or list index out of range *)
| TypeError           (* a call with too few positional arguments *)
| ValueError          (* jax.random.choice on an empty array, a bad unpack *)
| ZeroDivisionError
| OverflowError       (* an infinite float that an integer was asked of *)
| ShapeError.         (* operands of unequal shape, see [zip_same] *)

Inductive result (A : Type) : Type :=
| Ok (a : A)
| Raise (e : exn).
Arguments Ok {A} a.
Arguments Raise {A} e.

Definition bind {A B : Type} (m : result A) (k : A → result B) : result B :=
  match m with
  | Ok a => k a
  | Raise e => Raise e
  end.

Notation "'let?' x ':=' m 'in' k" := (bind m (fun x => k))
  (at level 10, x name, m at level 100, k at level 200).

Definition is_ok {A : Type} (m : result A) : bool :=
  match m with Ok _ => true | Raise _ => false end.

(** ** Arrays

    A [jax.Array] of rank at least one is kept by its leading axis: [rows]
    holds one slice per leading index, each slice the row-major flattening
    of an array of shape [trail].  The array [[1, 1, 1]] of shape [(3,)]
    has [trail = []] and three one-element slices; an array of shape
    [(T, B)] has [trail = [B]] and [T] slices of [B] elements. *)

Module Array.
Section Carrier.
(** The scalar type and its arithmetic.  Nothing is assumed of the
    operations (no associativity, no distributivity), so every equation
    below is an equation between the very operations the code performs,
    in the order it performs them. *)
Context {R : Type}.
Variables (zero one : R) (add sub mul : R → R → R).

Record t : Type := mk { trail : list nat; rows : list (list R) }.

(** A slice along the leading axis: its shape and its flat data. *)
Record slice : Type := mk_slice { sshape : list nat; sdata : list R }.

Definition shape (a : t) : list nat := length (rows a) :: trail a.

Definition numel (s : list nat) : nat := foldr Nat.mul 1%nat s.

(** Every slice holds as many scalars as its shape says. *)
Definition wf (a : t) : Prop :=
  Forall (λ r, length r = numel (trail a)) (rows a).

Definition shape_eqb (s1 s2 : list nat) : bool := bool_decide (s1 = s2).

(** [chex.assert_shape(a, expected)]. *)
Definition assert_shape (a : t) (expected : list nat) : result unit :=
  if shape_eqb (shape a) expected then Ok tt else Raise AssertionError.

(** An elementwise operation on two operands of one shape.  NumPy also
    accepts operands of unequal shapes when they broadcast; no property
    below concerns such operands and the model does not evaluate them: it
    stops with [ShapeError], an outcome no statement below relies on. *)
Definition zip_same (f : R → R → R) (a b : t) : result t :=
  if shape_eqb (shape a) (shape b)
  then Ok (mk (trail a) (zip_with (zip_with f) (rows a) (rows b)))
  else Raise ShapeError.

Definition zip_slice (f : R → R → R) (x y : slice) : result slice :=
  if shape_eqb (sshape x) (sshape y)
  then Ok (mk_slice (sshape x) (zip_with f (sdata x) (sdata y)))
  else Raise ShapeError.

(** A Python scalar on the left of an array: [c * a], [1 - a]. *)
Definition scalar_l (f : R → R → R) (c : R) (a : t) : t :=
  mk (trail a) ((λ r : list R, f c <$> r) <$> rows a).

(** [a[1:]], [a[:-1]] and [a[0]]. *)
Definition tail_rows (a : t) : t := mk (trail a) (drop 1 (rows a)).
Definition init_rows (a : t) : t :=
  mk (trail a) (take (length (rows a) - 1) (rows a)).
Definition first_row (a : t) : result slice :=
  match rows a with
  | r :: _ => Ok (mk_slice (trail a) r)
  | [] => Raise IndexError
  end.

Definition zeros_like (x : slice) : slice :=
  mk_slice (sshape x) ((λ _, zero) <$> sdata x).

Definition slices (a : t) : list slice := mk_slice (trail a) <$> rows a.

(** The stacked outputs of a scan whose per-step output has shape [s]. *)
Definition stack (s : list nat) (ys : list slice) : t := mk s (sdata <$> ys).

(** [jax.lax.scan(f, init, xs, reverse=True)]: the steps run from the last
    leading index to the first, the carry is threaded through them, and
    the outputs are stacked at the positions of their inputs. *)
Fixpoint scan_reverse {C X Y : Type} (f : C → X → result (C * Y))
    (init : C) (xs : list X) : result (C * list Y) :=
  match xs with
  | [] => Ok (init, [])
  | x :: xs' =>
      let? r := scan_reverse f init xs' in
      let? s := f r.1 x in
      Ok (s.1, s.2 :: r.2)
  end.

(** [compute_gae], [toolkits.py] lines 61-106.  The arguments keep the
    order of the source: [dones], [rewards], [values]. *)
Definition _compute_gae (gae_t_plus_1 : slice) (x_t : slice * slice)
    : result (slice * slice) :=
  let '(delta_t, factor_t) := x_t in
  let? prod := zip_slice mul factor_t gae_t_plus_1 in
  let? gae_t := zip_slice add delta_t prod in
  (* the carry of a scan keeps its shape *)
  if shape_eqb (sshape gae_t) (sshape gae_t_plus_1)
  then Ok (gae_t, gae_t)
  else Raise ShapeError.

Definition compute_gae (dones rewards values : t) (gae_lambda discount : R)
    : result (t * t) :=
  let rewards_shape := shape rewards in
  let? _ := assert_shape values
              (S (hd 0%nat rewards_shape) :: tl rewards_shape) in
  let? bootstrapped :=
    zip_same mul (scalar_l mul discount (scalar_l sub one dones))
             (tail_rows values) in
  let? returns := zip_same add rewards bootstrapped in
  let? deltas := zip_same sub returns (init_rows values) in
  let? v0 := first_row values in
  let last_gae := zeros_like v0 in
  let factors := scalar_l mul (mul discount gae_lambda)
                          (scalar_l sub one dones) in
  (* the scanned operands share their leading length *)
  if negb (length (rows deltas) =? length (rows factors))%nat
  then Raise ShapeError
  else
    let? scanned :=
      scan_reverse _compute_gae last_gae
                   (zip (slices deltas) (slices factors)) in
    let advantages := stack (sshape last_gae) scanned.2 in
    let? lambda_retruns := zip_same add advantages (init_rows values) in
    (* jax.lax.stop_gradient is the identity on values *)
    Ok (lambda_retruns, advantages).

(** Reading one scalar: [a[i]] flattened, then position [b]. *)
Definition get_rows (l : list (list R)) (i b : nat) : option R :=
  l !! i ≫= λ r, r !! b.
Definition get (a : t) (i b : nat) : option R := get_rows (rows a) i b.

(** The same read with a default, for stating equations between
    entries that are known to exist. *)
Definition at_ (a : t) (i b : nat) : R := default zero (get a i b).

(** The data of the scan in [compute_gae], slice by slice: what
    [scan_reverse _compute_gae] stacks when every shape agrees. *)
Fixpoint gae_rows (init : list R) (xs : list (list R * list R))
    : list (list R) :=
  match xs with
  | [] => []
  | (delta_t, factor_t) :: xs' =>
      let ys := gae_rows init xs' in
      zip_with add delta_t (zip_with mul factor_t (hd init ys)) :: ys
  end.

End Carrier.

(** One-dimensional integer arrays, as in [rewards=[1,1,1]]. *)
Definition zarr (l : list Z) : t := mk [] ((λ x, [x]) <$> l).

End Array.

(** ** Gradient wrappers, [distributed/gradients.py] *)

Module Gradients.
Section Wrappers.
(** The collaborators: parameters, gradients, the optimizer and the
    differentiation operator come from JAX and optax. *)
Context {Params Grads Updates OptState Value : Type}.

(** [optax.GradientTransformation]. *)
Record GradientTransformation : Type := {
  init : Params → OptState;
  update : Grads → OptState → Updates * OptState
}.

(** [jax.value_and_grad(fn, has_aux=...)]: differentiation in the first
    positional argument.  The function differentiated is passed with its
    remaining arguments already supplied. *)
Variable value_and_grad : bool → (Params → Value) → Params → Value * Grads.
(** [jax.lax.pmean(grad, axis_name=...)] and [optax.apply_updates]. *)
Variable pmean : string → Grads → Grads.
Variable apply_updates : Params → Updates → Params.

Definition loss_and_pgrad (loss_fn : Params → Value)
    (pmap_axis_name : option string) (has_aux : bool)
    : Params → Value * Grads :=
  let g := value_and_grad has_aux loss_fn in
  let h := λ p, let '(value, grad) := g p in
                (value, match pmap_axis_name with
                        | Some axis => pmean axis grad
                        | None => grad
                        end) in
  match pmap_axis_name with None => g | Some _ => h end.

(** *** [gradient_update], lines 36-64

    The positional arguments after [params]: Python's [*args].  The loss
    takes the first of them as the parameters it is differentiated in;
    keyword arguments, passed on unchanged, count among the rest. *)
Context {Rest : Type}.

Inductive arguments : Type :=
| NoArgs
| Args (first : Params) (rest : Rest).

Definition gradient_update (loss_fn : Params → Rest → Value)
    (optimizer : GradientTransformation)
    (pmap_axis_name : option string) (has_aux : bool)
    (optimizer_state : OptState) (params : Params) (args : arguments)
    : result (Value * Params * OptState) :=
  match args with
  | NoArgs => Raise TypeError
  | Args a0 rest =>
      let loss_and_pgrad_fn :=
        loss_and_pgrad (λ p, loss_fn p rest) pmap_axis_name has_aux in
      let '(value, grads) := loss_and_pgrad_fn a0 in
      let '(params_update, optimizer_state) :=
        update optimizer grads optimizer_state in
      let params := apply_updates a0 params_update in
      Ok (value, params, optimizer_state)
  end.

(** *** [agent_gradient_update], lines 67-88 *)
Context {Extra Batch Key : Type}.

(** Modelled from the spec: the declaration of [AgentState] is not among
    the sources; it is a frozen dataclass with a [params] field, whose
    [replace] returns a new object and leaves the receiver as it was.  The
    fields other than [params] are gathered in [agent_extra]. *)
Record AgentState : Type := {
  params : Params;
  agent_extra : Extra
}.

Definition replace_params (a : AgentState) (p : Params) : AgentState :=
  {| params := p; agent_extra := agent_extra a |}.

Definition agent_gradient_update
    (loss_fn : AgentState → Batch → Key → Value)
    (optimizer : GradientTransformation)
    (pmap_axis_name : option string) (has_aux : bool)
    (opt_state : OptState) (agent_state : AgentState)
    (sample_batch : Batch) (key : Key)
    : Value * AgentState * OptState :=
  let _loss_fn := λ params agent_state sample_batch key,
    loss_fn (replace_params agent_state params) sample_batch key in
  let loss_and_pgrad_fn :=
    loss_and_pgrad (λ p, _loss_fn p agent_state sample_batch key)
                   pmap_axis_name has_aux in
  let '(value, grads) := loss_and_pgrad_fn (params agent_state) in
  let '(params_update, opt_state) := update optimizer grads opt_state in
  let params := apply_updates (params agent_state) params_update in
  (* line 85: the object built by [replace] is dropped *)
  let _ := replace_params agent_state params in
  (value, agent_state, opt_state).

End Wrappers.
End Gradients.

(** A differentiable toy problem on the integers, for evaluating the
  wrappers: central differences differentiate a quadratic loss exactly,
  the optimizer is plain gradient descent with step one and counts its
  updates. *)
Module Toy.
Definition value_and_grad (has_aux : bool) (f : Z → Z) (p : Z) : Z * Z :=
  (f p, (f (p + 1) - f (p - 1)) / 2).
Definition pmean (axis : string) (g : Z) : Z := g.
Definition apply_updates (p u : Z) : Z := p + u.
Definition sgd : Gradients.GradientTransformation :=
  {| Gradients.init := λ _ : Z, 0;
     Gradients.update := λ (g : Z) (n : Z), (- g, n + 1) |}.
Definition square_loss (a : Gradients.AgentState (Params:=Z) (Extra:=unit))
    (batch key : unit) : Z :=
  Gradients.params a * Gradients.params a.
Definition agent (p : Z) : Gradients.AgentState :=
  {| Gradients.params := p; Gradients.agent_extra := tt |}.
End Toy.

(** ** Workflow state and evaluation, [workflows/rl_workflow.py] *)

Module Workflow.
Section OnPolicy.
Context {Key Metrics AgentState EnvState OptState : Type}.

(** The [State] built by [OnPolicyWorkflow.setup], lines 143-149. *)
Record State : Type := {
  key : Key;
  metrics : Metrics;
  agent_state : AgentState;
  env_state : EnvState;
  opt_state : OptState
}.

Definition replace_key (s : State) (k : Key) : State :=
  {| key := k; metrics := metrics s; agent_state := agent_state s;
     env_state := env_state s; opt_state := opt_state s |}.

Definition replace_opt_state (s : State) (o : OptState) : State :=
  {| key := key s; metrics := metrics s; agent_state := agent_state s;
     env_state := env_state s; opt_state := o |}.

Context {RawMetrics EvalMetrics Scalar : Type}.
(** [jax.random.split(key, num)]. *)
Variable random_split : Key → nat → list Key.
(** The evaluator and the metric arithmetic. *)
Variable evaluator_evaluate : AgentState → Z → Key → RawMetrics.
Variables (episode_returns_mean episode_lengths_mean : RawMetrics → Scalar).
Variable EvaluateMetric : Scalar → Scalar → EvalMetrics.
Variable all_reduce : option string → EvalMetrics → EvalMetrics.

(** [OnPolicyWorkflow.evaluate], lines 151-165. *)
Definition evaluate (eval_episodes : Z) (pmap_axis_name : option string)
    (state : State) : result (EvalMetrics * State) :=
  match random_split (key state) 2 with
  | [key; eval_key] =>
      let raw_eval_metrics :=
        evaluator_evaluate (agent_state state) eval_episodes eval_key in
      let eval_metrics :=
        all_reduce pmap_axis_name
          (EvaluateMetric (episode_returns_mean raw_eval_metrics)
                          (episode_lengths_mean raw_eval_metrics)) in
      let state := replace_key state key in
      Ok (eval_metrics, state)
  | _ => Raise ValueError   (* the unpacking of a split of another size *)
  end.

End OnPolicy.
End Workflow.
(** ** Python integers, floats and slices *)

Module Py.

(** [a // b] and [a % b] on integers: floored, as [Z.div] and [Z.modulo]. *)
Definition floordiv (a b : Z) : result Z :=
  if decide (b = 0) then Raise ZeroDivisionError else Ok (a / b).
Definition mod_ (a b : Z) : result Z :=
  if decide (b = 0) then Raise ZeroDivisionError else Ok (a mod b).

(** *** Floats

    A Python float is an IEEE binary64 number: 53 bits of precision,
    every operation rounded to the nearest float, ties to the even
    one. *)
Abbreviation float := SpecFloat.spec_float.

Definition fadd : float → float → float := SpecFloat.SFadd 53 1024.
Definition fsub : float → float → float := SpecFloat.SFsub 53 1024.
Definition fmul : float → float → float := SpecFloat.SFmul 53 1024.

(** The float nearest to the quotient of two integers.  This is what
    [a / b] is for integers, what [float(n)] is for [b = 1], and what
    reading the decimal numeral of a rational gives. *)
Definition float_of_ratio (n : Z) (d : positive) : float :=
  match n with
  | Z0 => SpecFloat.S754_zero false
  | Zpos m =>
      SpecFloat.SFdiv 53 1024 (SpecFloat.S754_finite false m 0)
                              (SpecFloat.S754_finite false d 0)
  | Zneg m =>
      SpecFloat.SFdiv 53 1024 (SpecFloat.S754_finite true m 0)
                              (SpecFloat.S754_finite false d 0)
  end.

(** A number as the configuration holds it: written as a decimal numeral
    and read as a float. *)
Definition float_of_Q (q : Q) : float := float_of_ratio (Qnum q) (Qden q).

(** [float(n)], as an integer operand of a float operation is
    converted. *)
Definition float_of_int (n : Z) : result float :=
  match float_of_ratio n 1 with
  | SpecFloat.S754_infinity _ => Raise OverflowError
  | x => Ok x
  end.

(** [a / b] on integers. *)
Definition truediv (a b : Z) : result float :=
  match b with
  | Z0 => Raise ZeroDivisionError
  | Zpos d =>
      match float_of_ratio a d with
      | SpecFloat.S754_infinity _ => Raise OverflowError
      | x => Ok x
      end
  | Zneg d =>
      match float_of_ratio (- a) d with
      | SpecFloat.S754_infinity _ => Raise OverflowError
      | SpecFloat.S754_zero _ => Ok (SpecFloat.S754_zero true)
      | x => Ok x
      end
  end.

(** The number a float is, when it is one. *)
Definition value (x : float) : result Q :=
  match x with
  | SpecFloat.S754_zero _ => Ok 0%Q
  | SpecFloat.S754_finite s m e =>
      Ok (inject_Z (SpecFloat.cond_Zopp s (Zpos m)) * Qpower 2 e)%Q
  | SpecFloat.S754_infinity _ => Raise OverflowError
  | SpecFloat.S754_nan => Raise ValueError
  end.

(** To the nearest integer, ties to the even one. *)
Definition round_half_even (x : Q) : Z :=
  let f := Qfloor x in
  match (x - inject_Z f ?= 1 # 2)%Q with
  | Lt => f
  | Gt => f + 1
  | Eq => if Z.even f then f else f + 1
  end.

(** [round(x)] and [math.ceil(x)] of a float: exact on the number the
    float is; an infinity and a NaN have no integer. *)
Definition round (x : float) : result Z :=
  let? q := value x in Ok (round_half_even q).
Definition ceil (x : float) : result Z :=
  let? q := value x in Ok (Qceiling q).

(** [round(n * ratio)] for an integer [n] and a float [ratio] of the
    configuration: the product is a product of floats. *)
Definition round_product (n : Z) (ratio : Q) : result Z :=
  let? x := float_of_int n in
  round (fmul x (float_of_Q ratio)).

(** [math.ceil(a / b)] on integers: the quotient is a float. *)
Definition ceil_div (a b : Z) : result Z :=
  let? q := truediv a b in
  ceil q.

(** [l[:n]] and [l[n:]] for any integer [n]: a negative bound counts from
    the end, and every bound is clamped to the list. *)
Definition slice_to {A : Type} (l : list A) (n : Z) : list A :=
  if decide (n < 0) then take (Z.to_nat (Z.of_nat (length l) + n)) l
  else take (Z.to_nat n) l.
Definition slice_from {A : Type} (l : list A) (n : Z) : list A :=
  if decide (n < 0) then drop (Z.to_nat (Z.of_nat (length l) + n)) l
  else drop (Z.to_nat n) l.

End Py.

(** ** PPO minibatching, [agents/ppo.py] *)

Module PPO.

(** The integer entries of the workflow's [DictConfig].  Reading a key
    that the configuration lacks raises (OmegaConf's
    [ConfigAttributeError], an [AttributeError]). *)
Abbreviation DictConfig := (gmap string Z).

Definition getattr (config : DictConfig) (name : string) : result Z :=
  match config !! name with
  | Some v => Ok v
  | None => Raise AttributeError
  end.

Record PPOWorkflow : Type := { config : DictConfig }.

Definition warning_text (shown : Z) : string :=
  "minibatch_size (" +:+ pretty shown
    +:+ " cannot divides num_envs*rollout_length)".

(** [PPOWorkflow._build_from_config], lines 303-313.  The log of
    [logger.warning] is threaded through; the environment, agent,
    optimizer and evaluator built around the check are collaborators
    and are left out of the returned record.  The text of the warning is
    an f-string: it is evaluated, attribute reads included, before
    [logger.warning] is entered. *)
Definition _build_from_config (config : DictConfig) (log : list string)
    : result (list string * PPOWorkflow) :=
  let? num_envs := getattr config "num_envs" in
  let? rollout_length := getattr config "rollout_length" in
  let one_step_rollout_steps := num_envs * rollout_length in
  let? minibatch_size := getattr config "minibatch_size" in
  let? remainder := Py.mod_ one_step_rollout_steps minibatch_size in
  let? log :=
    if decide (remainder ≠ 0)
    then let? shown := getattr config "minibath_size" in
         Ok (log ++ [warning_text shown])
    else Ok log in
  Ok (log, {| config := config |}).

(** [num_minibatches], lines 376-380 of [PPOWorkflow.step]. *)
Definition num_minibatches (config : DictConfig) : result Z :=
  let? rollout_length := getattr config "rollout_length" in
  let? num_envs := getattr config "num_envs" in
  let? minibatch_size := getattr config "minibatch_size" in
  Py.floordiv (rollout_length * num_envs) minibatch_size.

Section Minibatch.
Context {Key A : Type}.
  (** [jax.random.permutation(key, x)] along the leading axis. *)
Variable random_permutation : Key → list A → list A.

Fixpoint chunks (size count : nat) (l : list A) : list (list A) :=
    match count with
    | O => []
    | S c => take size l :: chunks size c (drop size l)
    end.

  (** [x.reshape(n, -1, *x.shape[1:])]: [n] rows of equal length; the
      inferred length must be an integer, and it cannot be inferred for
      [n = 0]. *)
Definition reshape_rows (n : Z) (l : list A) : result (list (list A)) :=
    if decide (n ≤ 0) then Raise ValueError
    else if decide (Z.of_nat (length l) mod n ≠ 0) then Raise ValueError
    else Ok (chunks (Z.to_nat (Z.of_nat (length l) / n)) (Z.to_nat n) l).

  (** [_get_shuffled_minibatch], lines 382-386. *)
Definition _get_shuffled_minibatch (config : DictConfig)
      (perm_key : Key) (x : list A) : result (list (list A)) :=
    let? num_minibatches := num_minibatches config in
    let? minibatch_size := getattr config "minibatch_size" in
    let x := Py.slice_to (random_permutation perm_key x)
                         (num_minibatches * minibatch_size) in
    reshape_rows num_minibatches x.
End Minibatch.

End PPO.

(** ** Population-based training, [agents/meta/pbt_distributed.py]

  A pytree whose leaves carry a leading population axis is kept as the
  list of its slices, member by member: what [x[i]] yields leaf by leaf,
  and the view [jax.vmap] gives the function it maps.

  A hyperparameter is a float of JAX, a value of the carrier [F]; a
  fitness value is the number it is compared by; a ratio or a
  perturbation factor of the configuration is the number written
  there. *)

Module PBT.
Section Population.
Context {F Key Metrics AgentState EnvState HypStates InnerState Other : Type}.

(** [optax.InjectStatefulHyperparamsState]. *)
Record InjectStatefulHyperparamsState : Type := {
  count : Z;
  hyperparams : gmap string F;
  hyperparams_states : HypStates;
  inner_state : InnerState
}.

(** An optimizer state is either of that class or of another one. *)
Inductive OptState : Type :=
| Inject (s : InjectStatefulHyperparamsState)
| Plain (o : Other).

Abbreviation WState :=
  (@Workflow.State Key Metrics AgentState EnvState OptState).
Abbreviation Hyper := (gmap string F).

Record Config : Type := {
  pop_size : Z;
  bottom_ratio : Q;
  top_ratio : Q;
  perturb_factor : gmap string Q;
  warmup_steps : Z;
  per_iter_workflow_steps : Z
}.

(** The arithmetic of the hyperparameters: the constant [1], [+] and
    [*]. *)
Variable one : F.
Variables add mul : F → F → F.

(** The random number generator: [jax.random.split], [jax.random.uniform]
    and the positions [jax.random.choice] draws with [randint]. *)
Variable random_split : Key → nat → list Key.
Variable random_uniform : Key → Q → Q → F.
Variable random_randint : Key → nat → nat → list nat.

(** [jax.random.choice(key, a, (n,))], with replacement: no draw yields
    the empty array, a draw from nothing raises, and otherwise the drawn
    positions are gathered from [a] (a gather clamps its indices). *)
Definition random_choice (key : Key) (a : list nat) (n : nat)
    : result (list nat) :=
  if decide (n = 0%nat) then Ok []
  else if decide (a = []) then Raise ValueError
  else Ok ((λ i, default 0%nat (a !! (i `min` (length a - 1))%nat))
             <$> random_randint key n (length a)).

(** [jnp.argsort]: the indices in ascending order of their values, equal
    values in the order of their indices. *)
Fixpoint insert_index (v : nat → Q) (i : nat) (l : list nat) : list nat :=
  match l with
  | [] => [i]
  | j :: l' =>
      if Qle_bool (v j) (v i) then j :: insert_index v i l'
      else i :: j :: l'
  end.

Definition argsort (a : list Q) : list nat :=
  foldl (λ acc i, insert_index (λ k, default 0%Q (a !! k)) i acc)
        [] (seq 0 (length a)).

(** [deepcopy_InjectStatefulHyperparamsState], lines 358-364. *)
Definition deepcopy_InjectStatefulHyperparamsState
    (state : InjectStatefulHyperparamsState)
    : InjectStatefulHyperparamsState :=
  {| count := count state;
     hyperparams := hyperparams state;
     hyperparams_states := hyperparams_states state;
     inner_state := inner_state state |}.

(** [opt_state.hyperparams[name] = value] on the copy. *)
Definition set_hyperparam (state : InjectStatefulHyperparamsState)
    (name : string) (value : F) : InjectStatefulHyperparamsState :=
  {| count := count state;
     hyperparams := <[name := value]> (hyperparams state);
     hyperparams_states := hyperparams_states state;
     inner_state := inner_state state |}.

(** [apply_hyperparams_to_workflow_state], lines 345-355. *)
Definition apply_hyperparams_to_workflow_state
    (hyperparams : Hyper) (workflow_state : WState) : result WState :=
  match Workflow.opt_state workflow_state with
  | Plain _ => Raise AssertionError
  | Inject opt_state =>
      let opt_state := deepcopy_InjectStatefulHyperparamsState opt_state in
      match hyperparams !! "lr" with
      | None => Raise AttributeError
      | Some lr =>
          let opt_state := set_hyperparam opt_state "learning_rate" lr in
          Ok (Workflow.replace_opt_state workflow_state (Inject opt_state))
      end
  end.

(** [_exploit_and_explore_fn], lines 309-321: every hyperparameter of the
    donor is scaled by one plus a uniform draw, all draws from the one
    key; a hyperparameter without a perturbation factor is a [KeyError]. *)
Definition perturb (config : Config) (key : Key) (hp_name : string)
    (value : F) : F :=
  let factor := default 0%Q (perturb_factor config !! hp_name) in
  mul value (add one (random_uniform key (- factor) factor)).

Definition _exploit_and_explore_fn (config : Config) (key : Key)
    (top : Hyper) (top_wf_state : WState) : result (Hyper * WState) :=
  if decide (dom top ⊆ dom (perturb_factor config)) then
    let new := map_imap (λ hp_name v, Some (perturb config key hp_name v))
                        top in
    let? new_wf_state := apply_hyperparams_to_workflow_state new top_wf_state in
    Ok (new, new_wf_state)
  else Raise KeyError.

(** [_read] and [_write], lines 327-331: a gather, which clamps its
    indices, and a scatter, which drops the updates that fall outside. *)
Fixpoint _read {A : Type} (indices : list nat) (pop : list A)
    : result (list A) :=
  match indices with
  | [] => Ok []
  | i :: rest =>
      match pop !! (i `min` (length pop - 1))%nat with
      | None => Raise IndexError
      | Some x => let? xs := _read rest pop in Ok (x :: xs)
      end
  end.

Fixpoint _write {A : Type} (indices : list nat) (pop new : list A)
    : list A :=
  match indices, new with
  | i :: indices', y :: new' => _write indices' (<[i := y]> pop) new'
  | _, _ => pop
  end.

(** [jax.vmap] of a function of three arguments over three batches of
    one size, member by member.  (JAX traces the mapped function once,
    also for an empty batch; on the well-formed populations of
    [population_ok] below the function raises for no member.) *)
Fixpoint vmap3 {A B C D : Type} (f : A → B → C → result D)
    (xs : list A) (ys : list B) (zs : list C) : result (list D) :=
  match xs, ys, zs with
  | [], [], [] => Ok []
  | x :: xs', y :: ys', z :: zs' =>
      let? d := f x y z in
      let? ds := vmap3 f xs' ys' zs' in
      Ok (d :: ds)
  | _, _, _ => Raise ValueError
  end.

(** [exploit_and_explore], lines 300-342. *)
Definition exploit_and_explore (config : Config) (key : Key)
    (pop_episode_returns : list Q) (pop : list Hyper)
    (pop_workflow_state : list WState)
    : result (list Hyper * list WState) :=
  let? bottoms_num :=
    Py.round_product (pop_size config) (bottom_ratio config) in
  let? tops_num :=
    Py.round_product (pop_size config) (top_ratio config) in
  let indices := argsort pop_episode_returns in
  let bottoms_indices := Py.slice_to indices bottoms_num in
  let tops_indices := Py.slice_from indices (- tops_num) in
  match random_split key 3 with
  | [key; exploit_key; explore_key] =>
      let? tops_choice_indices :=
        random_choice exploit_key tops_indices (length bottoms_indices) in
      let? tops := _read tops_choice_indices pop in
      let? tops_wf_state := _read tops_choice_indices pop_workflow_state in
      let? news :=
        vmap3 (_exploit_and_explore_fn config)
              (random_split explore_key (length bottoms_indices))
              tops tops_wf_state in
      let new_bottoms := fst <$> news in
      let new_bottoms_wf_state := snd <$> news in
      let pop := _write bottoms_indices pop new_bottoms in
      let pop_workflow_state :=
        _write bottoms_indices pop_workflow_state new_bottoms_wf_state in
      Ok (pop, pop_workflow_state)
  | _ => Raise ValueError
  end.

(** A population the operator can work on: one hyperparameter dictionary
    and one workflow state per fitness value, every dictionary with the
    keys of the first one, among them [lr], each with a perturbation
    factor, and every optimizer state of the injected class. *)
Definition hyper_ok (config : Config) (keys : gset string) (h : Hyper) : bool :=
  bool_decide (dom h = keys)
  && bool_decide (keys ⊆ dom (perturb_factor config))
  && bool_decide (is_Some (h !! "lr")).

Definition state_ok (s : WState) : bool :=
  match Workflow.opt_state s with Inject _ => true | Plain _ => false end.

Definition population_ok (config : Config) (pop_episode_returns : list Q)
    (pop : list Hyper) (pop_workflow_state : list WState) : bool :=
  bool_decide (length pop = length pop_episode_returns)
  && bool_decide (length pop_workflow_state = length pop_episode_returns)
  && forallb (hyper_ok config (default ∅ (dom <$> head pop))) pop
  && forallb state_ok pop_workflow_state.

(** The value at an index of the fitness vector, and the order of two
    indices by their values. *)
Definition fitness (a : list Q) (i : nat) : Q := default 0%Q (a !! i).
Definition le_at (v : nat → Q) (i j : nat) : Prop := (v i <= v j)%Q.

End Population.
End PBT.

(** A small population for evaluating the operator: five members, keys
    that are numbers, a split that appends a digit, a uniform draw a
    quarter of the way into its interval and a position drawn as the key
    modulo the number of candidates.  The hyperparameters are rationals
    under their own addition and multiplication; the ones met here are
    quarters of small integers, on which the floats compute the same. *)
Module Demo.
Definition split (k n : nat) : list nat := (λ i, k * 10 + i)%nat <$> seq 1 n.
Definition uniform (k : nat) (lo hi : Q) : Q := (lo + (hi - lo) * (1 # 4))%Q.
Definition randint (k n m : nat) : list nat := replicate n (k `mod` m)%nat.

Definition config (bottom top : Q) : PBT.Config :=
  {| PBT.pop_size := 5; PBT.bottom_ratio := bottom; PBT.top_ratio := top;
     PBT.perturb_factor := {[ "lr" := (1 # 2)%Q ]};
     PBT.warmup_steps := 10; PBT.per_iter_workflow_steps := 2 |}.

Abbreviation OptState := (@PBT.OptState Q unit Z unit).
Abbreviation WState := (@Workflow.State nat unit Z unit OptState).

(** Member [i]: learning rate [lr]; its agent state is [i], its optimizer
    has made [100 + i] steps and holds the momentum [1000 + i]. *)
Definition member (lr : Q) : gmap string Q := {[ "lr" := lr ]}.
Definition state (i : Z) (lr : Q) : WState :=
  {| Workflow.key := 0%nat; Workflow.metrics := tt;
     Workflow.agent_state := i; Workflow.env_state := tt;
     Workflow.opt_state :=
       PBT.Inject {| PBT.count := 100 + i;
                     PBT.hyperparams := {[ "learning_rate" := lr ]};
                     PBT.hyperparams_states := tt;
                     PBT.inner_state := 1000 + i |} |}.

Definition pop (lrs : list Q) : list (gmap string Q) := member <$> lrs.
Definition states (lrs : list Q) : list WState :=
  imap (λ i lr, state (Z.of_nat i) lr) lrs.

Definition fitness : list Q := [5; 1; 9; 3; 7]%Q.
Definition lrs : list Q := [10; 11; 12; 13; 14]%Q.

Definition exploit_and_explore :=
  PBT.exploit_and_explore (Metrics:=unit) (AgentState:=Z) (EnvState:=unit)
    (HypStates:=unit) (InnerState:=Z) (Other:=unit) 1%Q Qplus Qmult
    split uniform randint.
End Demo.

(** ** Shifts and masks, [utils/toolkits.py] and [types.py] *)

Module Toolkits.
Section Shift.
Context {R : Type}.
Variable zero : R.

(** [right_shift], [toolkits.py] lines 52-58, on a one-dimensional array:
    [shift] pad values, then [arr[:-shift]].  A negative [shift] is refused
    by the array constructor. *)
Definition right_shift (arr : list R) (shift : Z) (pad_val : option R)
    : result (list R) :=
  if decide (shift < 0) then Raise ValueError
  else
    let padding := replicate (Z.to_nat shift) (default zero pad_val) in
    Ok (padding ++ Py.slice_to arr (- shift)).
End Shift.

(** [Episode.valid_mask], [types.py] lines 227-229. *)
Definition valid_mask (done : list Q) : result (list Q) :=
  let? shifted := right_shift 0%Q done 1 None in
  Ok ((λ x, 1 - x)%Q <$> shifted).
End Toolkits.

(** ** The population across iterations, [agents/meta/pbt_distributed.py] *)

Module Population.
Section Members.
Context {F Key Metrics AgentState EnvState HypStates InnerState Other : Type}.

Abbreviation WState :=
  (@Workflow.State Key Metrics AgentState EnvState
     (@PBT.OptState F HypStates InnerState Other)).

(** The learning rate held in a member's optimizer state,
    [opt_state.hyperparams['learning_rate']]. *)
Definition injected_lr (s : WState) : option F :=
  match Workflow.opt_state s with
  | PBT.Inject o => PBT.hyperparams o !! "learning_rate"
  | PBT.Plain _ => None
  end.

(** Every member's optimizer runs at the learning rate the population
    records for it. *)
Definition synced (pop : list (gmap string F)) (wfs : list WState) : Prop :=
  Forall2 (λ h s, is_Some (h !! "lr") ∧ injected_lr s = h !! "lr") pop wfs.

(** A member state with the learning rate [lr] injected, as
    [apply_hyperparams_to_workflow_state] leaves it. *)
Definition inject_lr (lr : F) (s : WState) : WState :=
  match Workflow.opt_state s with
  | PBT.Inject o =>
      Workflow.replace_opt_state s
        (PBT.Inject (PBT.set_hyperparam o "learning_rate" lr))
  | PBT.Plain _ => s
  end.

End Members.

Definition rescale_warning (pop_size num_devices rescaled : Z) : string :=
  "pop_size(" +:+ pretty pop_size +:+ ") cannot be divided by num_devices("
    +:+ pretty num_devices +:+ "), rescale pop_size to " +:+ pretty rescaled.

Definition set_pop_size (config : PBT.Config) (n : Z) : PBT.Config :=
  {| PBT.pop_size := n;
     PBT.bottom_ratio := PBT.bottom_ratio config;
     PBT.top_ratio := PBT.top_ratio config;
     PBT.perturb_factor := PBT.perturb_factor config;
     PBT.warmup_steps := PBT.warmup_steps config;
     PBT.per_iter_workflow_steps := PBT.per_iter_workflow_steps config |}.

(** [PBTWorkflow._rescale_config], lines 86-96, with [num_devices] for
    [len(devices)]; the log of [logger.warning] is threaded through. *)
Definition _rescale_config (config : PBT.Config) (num_devices : Z)
    (log : list string) : result (list string * PBT.Config) :=
  let? remainder := Py.mod_ (PBT.pop_size config) num_devices in
  let? log :=
    if decide (remainder ≠ 0)
    then
      let? per_device := Py.floordiv (PBT.pop_size config) num_devices in
      Ok (log ++ [rescale_warning (PBT.pop_size config) num_devices
                    (per_device * num_devices)])
    else Ok log in
  let? per_device := Py.floordiv (PBT.pop_size config) num_devices in
  Ok (log, set_pop_size config (per_device * num_devices)).

Section Setup.
Context {F Key Metrics AgentState EnvState HypStates InnerState Other : Type}.
Context {PopMetrics : Type}.

Abbreviation MState :=
  (@Workflow.State Key Metrics AgentState EnvState
     (@PBT.OptState F HypStates InnerState Other)).

(** The [State] of the scheduler, [PBTWorkflow.setup] lines 183-188. *)
Record PBTState : Type := {
  key : Key;
  metrics : PopMetrics;
  pop_workflow_state : list MState;
  pop : list (gmap string F)
}.

(** [jax.random.split], [jax.random.uniform] with a shape, the [setup] of
    the target workflow (run with the injected optimizer that line 154
    installs) and [_setup_workflow_metrics]. *)
Variable random_split : Key → nat → list Key.
Variable random_uniform_array : Key → nat → Q → Q → list F.
Variable workflow_setup : Key → MState.
Variable _setup_workflow_metrics : PopMetrics.

(** [jax.vmap] of a function of two arguments over two batches of one
    size. *)
Fixpoint vmap2 {A B C : Type} (f : A → B → result C)
    (xs : list A) (ys : list B) : result (list C) :=
  match xs, ys with
  | [], [] => Ok []
  | x :: xs', y :: ys' =>
      let? c := f x y in
      let? cs := vmap2 f xs' ys' in
      Ok (c :: cs)
  | _, _ => Raise ValueError
  end.

(** [PBTWorkflow.setup], lines 150-188, with the bounds
    [config.search_space.lr.low] and [.high] as arguments.  Placing the
    values on devices does not change them. *)
Definition setup (config : PBT.Config) (lr_low lr_high : Q) (key : Key)
    : result PBTState :=
  let pop_size := PBT.pop_size config in
  match random_split key 3 with
  | [key; workflow_key; pop_key] =>
      if decide (pop_size < 0) then Raise ValueError
      else
        let pop_local :=
          (λ lr : F, ({[ "lr" := lr ]} : gmap string F))
            <$> random_uniform_array pop_key (Z.to_nat pop_size)
                  lr_low lr_high in
        let workflow_metrics := _setup_workflow_metrics in
        let workflow_keys := random_split workflow_key (Z.to_nat pop_size) in
        let pop_workflow_state := workflow_setup <$> workflow_keys in
        let pop := pop_local in
        let? pop_workflow_state :=
          vmap2 PBT.apply_hyperparams_to_workflow_state
                pop pop_workflow_state in
        Ok {| key := key; metrics := workflow_metrics;
              pop_workflow_state := pop_workflow_state; pop := pop_local |}
  | _ => Raise ValueError
  end.

(** *** The training phase of [PBTWorkflow.step], lines 190-219 *)

(** The step of the target workflow, [self.workflow.step]. *)
Variable workflow_step : MState → result (Metrics * MState).

(** [jax.lax.scan(_one_step, wf_state, None, length)]: the state is
    threaded through [length] steps and the metrics of the steps are
    stacked. *)
Fixpoint scan (length : nat) (wf_state : MState)
    : result (MState * list Metrics) :=
  match length with
  | O => Ok (wf_state, [])
  | S length =>
      let? out := workflow_step wf_state in
      let? rest := scan length out.2 in
      Ok (rest.1, out.1 :: rest.2)
  end.

(** [_train_steps], lines 194-207: [x[-1]] is the last of the stacked
    metrics, and there is none to take of an empty stack. *)
Definition _train_steps (config : PBT.Config) (wf_state : MState)
    : result (Metrics * MState) :=
  let? out :=
    scan (Z.to_nat (PBT.per_iter_workflow_steps config)) wf_state in
  match last out.2 with
  | Some train_metrics => Ok (train_metrics, out.1)
  | None => Raise IndexError
  end.

(** What a call passes in a position: a function, or a pytree of arrays,
    here the member states of a population. *)
Inductive argument : Type :=
| Function (f : MState → result (Metrics * MState))
| Pytree (pop_workflow_state : list MState).

Definition is_pytree (a : argument) : bool :=
  match a with Pytree _ => true | Function _ => false end.

(** A callable over the population, by the positional arguments of its
    call. *)
Abbreviation Mapped :=
  (list argument → result (list Metrics * list MState)).

(** One function of one argument over the members, their results
    stacked leaf by leaf. *)
Fixpoint over_members (f : MState → result (Metrics * MState))
    (members : list MState) : result (list Metrics * list MState) :=
  match members with
  | [] => Ok ([], [])
  | x :: members =>
      let? out := f x in
      let? outs := over_members f members in
      Ok (out.1 :: outs.1, out.2 :: outs.2)
  end.

(** [jax.vmap(f)] for [f] of one argument: its call takes one pytree; a
    function is no array to map over, and a second argument is one more
    than [f] takes.  (JAX words the refusal as a [TypeError] or as a
    [ValueError], by its version; nothing below depends on which.) *)
Definition vmap (f : MState → result (Metrics * MState)) : Mapped :=
  λ args,
    match args with
    | [Pytree xs] => over_members f xs
    | _ => Raise TypeError
    end.

(** [jax.lax.map(f, xs)]: two positional arguments, the function and the
    pytree. *)
Definition lax_map : Mapped :=
  λ args,
    match args with
    | [Function f; Pytree xs] => over_members f xs
    | _ => Raise TypeError
    end.

(** [functools.partial(g, a)]: [a] goes before the arguments of the
    call. *)
Definition partial (g : Mapped) (a : argument) : Mapped :=
  λ args, g (a :: args).

(** [jax.pmap(g, axis_name)]: the arguments of the call are flattened to
    arrays before anything runs, which a function among them is not;
    what the devices then compute is [per_device]. *)
Variable per_device : Mapped → Mapped.

Definition pmap (g : Mapped) : Mapped :=
  λ args,
    if forallb is_pytree args then per_device g args
    else Raise TypeError.

(** [PBTWorkflow.step] down to the call of line 217; the evaluation, the
    warmup conditional and the metrics of lines 221-266 are what [rest]
    does with the outcome of the training phase. *)
Definition step {R : Type} (config : PBT.Config)
    (parallel_train enable_multi_devices : bool) (state : PBTState)
    (rest : list Metrics → list MState → result R) : result R :=
  let pop_workflow_state := pop_workflow_state state in
  let train_steps_fn :=
    if parallel_train then vmap (_train_steps config)
    else partial lax_map (Function (_train_steps config)) in
  let train_steps_fn :=
    if enable_multi_devices then pmap train_steps_fn
    else train_steps_fn in
  let? out :=
    train_steps_fn [Function (_train_steps config);
                    Pytree pop_workflow_state] in
  rest out.1 out.2.

(** The call that line 217 is one argument away from: the population
    alone. *)
Definition train_population (config : PBT.Config) (parallel_train : bool)
    (pop_workflow_state : list MState)
    : result (list Metrics * list MState) :=
  let train_steps_fn :=
    if parallel_train then vmap (_train_steps config)
    else partial lax_map (Function (_train_steps config)) in
  train_steps_fn [Pytree pop_workflow_state].
End Setup.

End Population.

(** ** Building the PPO workflow on several devices, [agents/ppo.py] and
    [workflows/rl_workflow.py] *)

Module PPOBuild.
Import PPO.

Definition indivisible_text (name : string) (value num_devices : Z) : string :=
  name +:+ "(" +:+ pretty value +:+ ") cannot be divided by num_devices("
    +:+ pretty num_devices +:+ "), rescale " +:+ name +:+ " to "
    +:+ pretty (value / num_devices).

(** One of the three checks of [PPOWorkflow._rescale_config]. *)
Definition warn_indivisible (config : gmap string Z) (num_devices : Z)
    (name : string) (log : list string) : result (list string) :=
  let? value := getattr config name in
  let? remainder := Py.mod_ value num_devices in
  if decide (remainder ≠ 0)
  then Ok (log ++ [indivisible_text name value num_devices])
  else Ok log.

(** [config.name = config.name // num_devices]. *)
Definition divide_entry (config : gmap string Z) (num_devices : Z)
    (name : string) : result (gmap string Z) :=
  let? value := getattr config name in
  let? per_device := Py.floordiv value num_devices in
  Ok (<[name := per_device]> config).

(** [PPOWorkflow._rescale_config], lines 238-260, with [num_devices] for
    [jax.device_count()]: three checks, then three divisions. *)
Definition _rescale_config (config : gmap string Z) (num_devices : Z)
    (log : list string) : result (list string * gmap string Z) :=
  let? log := warn_indivisible config num_devices "num_envs" log in
  let? log := warn_indivisible config num_devices "num_eval_envs" log in
  let? log := warn_indivisible config num_devices "minibatch_size" log in
  let? config := divide_entry config num_devices "num_envs" in
  let? config := divide_entry config num_devices "num_eval_envs" in
  let? config := divide_entry config num_devices "minibatch_size" in
  Ok (log, config).

(** [RLWorkflow.build_from_config], lines 41-66, for [PPOWorkflow]: the
    configuration is copied, rescaled when several devices are enabled, and
    handed to [_build_from_config].  Rebinding [step] and [evaluate] to
    their compiled versions does not touch the configuration. *)
Definition build_from_config (config : gmap string Z)
    (enable_multi_devices : bool) (num_devices : Z) (log : list string)
    : result (list string * PPOWorkflow) :=
  let? rescaled :=
    if enable_multi_devices then _rescale_config config num_devices log
    else Ok (log, config) in
  _build_from_config rescaled.2 rescaled.1.

End PPOBuild.

(** ** The update epochs of [PPOWorkflow.step], [agents/ppo.py] lines
    372-417 *)

Module PPOUpdate.
Import Gradients.

(** [jax.lax.scan(f, init, xs)], front to back. *)
Fixpoint scan {C X Y : Type} (f : C → X → result (C * Y)) (init : C)
    (xs : list X) : result (C * list Y) :=
  match xs with
  | [] => Ok (init, [])
  | x :: xs' =>
      let? r := f init x in
      let? rs := scan f r.1 xs' in
      Ok (rs.1, r.2 :: rs.2)
  end.

Section Epochs.
Context {Params Grads Updates OptState Value Extra Key A : Type}.
Variable value_and_grad : bool → (Params → Value) → Params → Value * Grads.
Variable pmean : string → Grads → Grads.
Variable apply_updates : Params → Updates → Params.
Variable random_split : Key → nat → list Key.
Variable random_permutation : Key → list A → list A.

(** [loss_fn], lines 362-370, is what the agent's loss and the weights
    make of an agent state, a batch and a key; [optimizer] is
    [self.optimizer].  The flattened trajectory is the list of its [T*B]
    transitions: permuting every leaf with one key permutes them. *)
Variable loss_fn : AgentState (Params:=Params) (Extra:=Extra)
                   → list A → Key → Value.
Variable optimizer : GradientTransformation (Params:=Params) (Grads:=Grads)
                       (Updates:=Updates) (OptState:=OptState).
Variable pmap_axis_name : option string.

Definition update_fn :=
  agent_gradient_update value_and_grad pmean apply_updates loss_fn optimizer
    pmap_axis_name true.

Abbreviation Carry := (OptState * AgentState (Params:=Params) (Extra:=Extra)
                       * Key)%type.

(** [minibatch_step], lines 388-396. *)
Definition minibatch_step (carry : Carry) (trajectory : list A)
    : result (Carry * Value) :=
  let '(opt_state, agent_state, key) := carry in
  match random_split key 2 with
  | [key; learn_key] =>
      let '(loss, agent_state, opt_state) :=
        update_fn opt_state agent_state trajectory learn_key in
      Ok ((opt_state, agent_state, key), loss)
  | _ => Raise ValueError
  end.

(** [epoch_step], lines 398-409. *)
Definition epoch_step (config : gmap string Z) (trajectory : list A)
    (carry : Carry) (_ : unit) : result (Carry * list Value) :=
  let '(opt_state, agent_state, key) := carry in
  match random_split key 2 with
  | [perm_key; learn_key] =>
      let? batches :=
        PPO._get_shuffled_minibatch random_permutation config perm_key
          trajectory in
      scan minibatch_step (opt_state, agent_state, learn_key) batches
  | _ => Raise ValueError
  end.

(** The outer scan, lines 412-417, over [reuse_rollout_epochs] epochs. *)
Definition update_epochs (config : gmap string Z) (trajectory : list A)
    (opt_state : OptState) (agent_state : AgentState) (learn_key : Key)
    (reuse_rollout_epochs : nat) : result (Carry * list (list Value)) :=
  scan (epoch_step config trajectory) (opt_state, agent_state, learn_key)
    (replicate reuse_rollout_epochs ()).

(** The loss of the agent state [a] on some batch, as the differentiation
    operator reports it. *)
Definition loss_at (a : AgentState (Params:=Params) (Extra:=Extra))
    (v : Value) : Prop :=
  ∃ batch key,
    v = (loss_and_pgrad value_and_grad pmean
           (λ p, loss_fn (replace_params a p) batch key)
           pmap_axis_name true (params a)).1.

End Epochs.
End PPOUpdate.

(** ** Array operations of [jax.numpy] on arrays of one axis *)

Module Jnp.

(** An elementwise operation on two arrays of one axis, with numpy's
    broadcasting of an axis of length one. *)
Definition broadcast_with {A B C : Type} (f : A → B → C)
    (x : list A) (y : list B) : result (list C) :=
  if decide (length x = length y) then Ok (zip_with f x y)
  else match x, y with
       | [a], _ => Ok (f a <$> y)
       | _, [b] => Ok ((λ a, f a b) <$> x)
       | _, _ => Raise ValueError
       end.

(** [jnp.where(c, x, y)]. *)
Definition where_ {A : Type} (c : list bool) (x y : list A)
    : result (list A) :=
  let? xy := broadcast_with pair x y in
  broadcast_with (λ (c : bool) (p : A * A), if c then p.1 else p.2) c xy.

Section Carrier.
Context {F : Type}.

(** The floats of the arrays: the constants [0] and [1], [-], [*], [/],
    [jnp.minimum], [jnp.maximum], the test [x == 0] and the sum of an
    array, in whatever order the device adds. *)
Variables zero one : F.
Variables sub mul div minimum maximum : F → F → F.
Variable is_zero : F → bool.
Variable reduce_sum : list F → F.

(** [jnp.logical_not] of an array of floats: true where the entry is zero. *)
Definition logical_not (x : list F) : list bool := is_zero <$> x.

(** [mask.astype(float)]. *)
Definition astype_float (mask : list bool) : list F :=
  (λ m : bool, if m then one else zero) <$> mask.

(** [x.mean(where=mask)]: the mask is broadcast to the shape of [x]; the
    entries it drops are replaced by zero before the sum, and the sum is
    divided by the sum of the mask. *)
Definition mean_where (x : list F) (mask : list bool) : result F :=
  let? mask :=
    if decide (length mask = length x) then Ok mask
    else match mask with
         | [m] => Ok (replicate (length x) m)
         | _ => Raise ValueError
         end in
  Ok (div (reduce_sum (zip_with (λ a (m : bool), if m then a else zero)
                         x mask))
          (reduce_sum (astype_float mask))).

(** [jnp.clip(x, lo, hi)] and [optax.squared_error]. *)
Definition clip (x lo hi : F) : F := minimum hi (maximum lo x).
Definition squared_error (predictions targets : F) : F :=
  mul (sub predictions targets) (sub predictions targets).

End Carrier.
End Jnp.

(** ** The PPO loss, [agents/ppo.py] lines 155-221 and 362-370 *)

Module PPOLoss.
Import Jnp.

Section Loss.
Context {F : Type}.

(** The arithmetic of the arrays, with [+], unary [-] and [jnp.exp], and
    the conversion of a Python float that meets an array. *)
Variables zero one : F.
Variables add sub mul div minimum maximum : F → F → F.
Variable neg : F → F.
Variable exp : F → F.
Variable is_zero : F → bool.
Variable reduce_sum : list F → F.
Variable of_float : Py.float → F.

Abbreviation mean_where := (Jnp.mean_where zero one div reduce_sum).

(** What the networks make of the observations of the batch: the values,
    the log-probabilities of the actions taken and the entropies. *)
Record NetworkOutputs : Type := {
  vs : list F;
  actions_logp : list F;
  entropy : list F
}.

(** The fields of the sample batch that the loss reads. *)
Record SampleBatch : Type := {
  v_targets : list F;
  logp : list F;             (* extras.policy_extras.logp *)
  advantages : list F;
  autoreset : list F         (* extras.env_extras.autoreset *)
}.

Definition critic_loss (vs v_targets : list F) (mask : list bool)
    : result F :=
  let? errors := broadcast_with (squared_error sub mul) vs v_targets in
  mean_where errors mask.

Definition rho (actions_logp behavior_actions_logp : list F)
    : result (list F) :=
  broadcast_with (λ a b, exp (sub a b)) actions_logp behavior_actions_logp.

(** The bounds [1 - clip_epsilon] and [1 + clip_epsilon] are computed by
    Python before [jnp.clip] sees them. *)
Definition policy_loss (clip_epsilon : Q)
    (actions_logp behavior_actions_logp advantages : list F)
    (mask : list bool) : result F :=
  let? rho := rho actions_logp behavior_actions_logp in
  let? policy_sorrogate_loss1 := broadcast_with mul rho advantages in
  let lo :=
    of_float (Py.fsub (Py.float_of_ratio 1 1) (Py.float_of_Q clip_epsilon)) in
  let hi :=
    of_float (Py.fadd (Py.float_of_ratio 1 1) (Py.float_of_Q clip_epsilon)) in
  let? policy_sorrogate_loss2 :=
    broadcast_with mul
      ((λ r, clip minimum maximum r lo hi) <$> rho) advantages in
  let? smaller :=
    broadcast_with minimum policy_sorrogate_loss1 policy_sorrogate_loss2 in
  let? mean := mean_where smaller mask in
  Ok (neg mean).

(** [PPOAgent.loss], lines 155-221, from the outputs of the networks on. *)
Definition loss (clip_epsilon : Q) (out : NetworkOutputs)
    (sample_batch : SampleBatch) : result (gmap string F) :=
  let mask := logical_not is_zero (autoreset sample_batch) in
  let? critic_loss := critic_loss (vs out) (v_targets sample_batch) mask in
  let? policy_loss :=
    policy_loss clip_epsilon (actions_logp out) (logp sample_batch)
      (advantages sample_batch) mask in
  let? entropy_loss := mean_where (entropy out) mask in
  Ok (<["actor_loss" := policy_loss]>
        (<["critic_loss" := critic_loss]>
          (<["actor_entropy_loss" := entropy_loss]> ∅))).

(** The loop of [loss_fn], lines 362-370 of [PPOWorkflow.step], over the
    entries of [config.loss_weights] in their order; a weight is a float
    of the configuration. *)
Fixpoint weighted_sum (loss_weights : list (string * Q))
    (loss_dict : gmap string F) (loss : F) : result F :=
  match loss_weights with
  | [] => Ok loss
  | (loss_key, weight) :: rest =>
      match loss_dict !! loss_key with
      | Some l =>
          weighted_sum rest loss_dict
            (add loss (mul (of_float (Py.float_of_Q weight)) l))
      | None => Raise KeyError
      end
  end.

Definition loss_fn (clip_epsilon : Q) (loss_weights : list (string * Q))
    (out : NetworkOutputs) (sample_batch : SampleBatch)
    : result (F * gmap string F) :=
  let? loss_dict := loss clip_epsilon out sample_batch in
  let? loss := weighted_sum loss_weights loss_dict zero in
  Ok (loss, loss_dict).

(** Two arrays agree wherever the mask keeps an entry. *)
Definition agree (mask : list bool) (x y : list F) : Prop :=
  length x = length y
  ∧ ∀ i, mask !! i = Some true → x !! i = y !! i.

End Loss.

(** An arithmetic for the examples: the rationals and one NaN, [None];
    a division by zero gives NaN, [exp] is [1 + x], and a Python float
    that is not finite converts to NaN. *)
Module Example.
Definition t : Type := option Q.
Definition lift2 (f : Q → Q → Q) (a b : t) : t :=
  match a, b with Some x, Some y => Some (f x y) | _, _ => None end.
Definition add : t → t → t := lift2 Qplus.
Definition sub : t → t → t := lift2 Qminus.
Definition mul : t → t → t := lift2 Qmult.
Definition div (a b : t) : t :=
  match a, b with
  | Some x, Some y => if Qeq_bool y 0 then None else Some (x / y)%Q
  | _, _ => None
  end.
Definition minimum : t → t → t := lift2 Qmin.
Definition maximum : t → t → t := lift2 Qmax.
Definition neg (a : t) : t := Qopp <$> a.
Definition exp (a : t) : t := (λ x, 1 + x)%Q <$> a.
Definition is_zero (a : t) : bool :=
  match a with Some x => Qeq_bool x 0 | None => false end.
Definition reduce_sum (l : list t) : t := foldr add (Some 0%Q) l.
Definition of_float (x : Py.float) : t :=
  match Py.value x with Ok q => Some q | Raise _ => None end.
Definition loss_fn :=
  loss_fn (Some 0%Q) (Some 1%Q) add sub mul div minimum maximum neg exp
    is_zero reduce_sum of_float.
End Example.
End PPOLoss.

(** ** The envpool adapter and the one-episode wrapper, [envs/envpool.py] *)

Module EnvPool.
Import Jnp.

Section Adapter.
Context {F Obs Action Key : Type}.

(** The floats of the arrays: the constants [0] and [1], [+], [-], [*]
    and the test [x != 0] that [jnp.where] makes of a condition. *)
Variables zero one : F.
Variables add sub mul : F → F → F.
Variable nonzero : F → bool.

(** [EnvState.info] as [EnvPoolAdapter] builds it, and [EnvState] without
    its [env_state] field, which the adapter leaves [None]. *)
Record Info : Type := {
  termination : list F;
  truncation : list F;
  episode_return : list F;
  autoreset : list F
}.

Record EnvState : Type := {
  obs : list Obs;
  reward : list F;
  done : list F;
  info : Info
}.

(** What the pool answers to a step; its own [info] is dropped. *)
Record StepOut : Type := {
  out_obs : list Obs;
  out_reward : list F;
  out_termination : list bool;
  out_truncation : list bool
}.

(** The two callbacks into the pool, which JAX treats as pure
    ([jax.pure_callback]). *)
Variable _reset : Key → list Obs.
Variable _step : Action → StepOut.
Variable num_envs : nat.

(** [b.astype(jnp.float32)] of a boolean. *)
Definition astype_float (b : bool) : F := if b then one else zero.

Definition zeros (n : nat) : list F := replicate n zero.

(** [EnvPoolAdapter.reset], lines 116-134. *)
Definition reset (key : Key) : EnvState :=
  {| obs := _reset key;
     reward := zeros num_envs;
     done := zeros num_envs;
     info := {| termination := zeros num_envs;
                truncation := zeros num_envs;
                episode_return := zeros num_envs;
                autoreset := zeros num_envs |} |}.

(** [EnvPoolAdapter.step], lines 136-154. *)
Definition step (state : EnvState) (action : Action) : result EnvState :=
  let prev_done := done state in
  let? episode_return :=
    broadcast_with (λ e d, mul e (sub one d))
      (episode_return (info state)) (done state) in
  let out := _step action in
  let reward := out_reward out in
  let? done :=
    broadcast_with (λ a b, astype_float (a || b))
      (out_termination out) (out_truncation out) in
  let? episode_return := broadcast_with add episode_return reward in
  Ok {| obs := out_obs out;
        reward := reward;
        done := done;
        info := {| termination := astype_float <$> out_termination out;
                   truncation := astype_float <$> out_truncation out;
                   episode_return := episode_return;
                   autoreset := prev_done |} |}.

(** *** [OneEpisodeWrapper], lines 164-184, around any environment *)
Variable env_step : EnvState → Action → result EnvState.

(** [where_done]: the flags are reshaped to the leading axis of the leaf,
    which fails unless there is one flag per entry. *)
Definition where_done {A : Type} (state : EnvState) (x y : list A)
    : result (list A) :=
  let done := done state in
  if decide (length done = length x)
  then where_ (nonzero <$> done) x y
  else Raise TypeError.

Definition one_episode_step (state : EnvState) (action : Action)
    : result EnvState :=
  let? stepped := env_step state action in
  let? obs := where_done state (obs state) (obs stepped) in
  let? reward := where_done state (reward state) (reward stepped) in
  let? done := where_done state (done state) (done stepped) in
  let? termination :=
    where_done state (termination (info state))
      (termination (info stepped)) in
  let? truncation :=
    where_done state (truncation (info state)) (truncation (info stepped)) in
  let? episode_return :=
    where_done state (episode_return (info state))
      (episode_return (info stepped)) in
  let? autoreset :=
    where_done state (autoreset (info state)) (autoreset (info stepped)) in
  Ok {| obs := obs; reward := reward; done := done;
        info := {| termination := termination; truncation := truncation;
                   episode_return := episode_return;
                   autoreset := autoreset |} |}.

(** A rollout: one step per action. *)
Fixpoint run (step : EnvState → Action → result EnvState)
    (state : EnvState) (actions : list Action) : result EnvState :=
  match actions with
  | [] => Ok state
  | action :: rest =>
      let? state := step state action in
      run step state rest
  end.

(** Whether the step taken with [action] ends the episode of environment
    [i], and its reward there. *)
Definition done_at (i : nat) (action : Action) : bool :=
  default false (out_termination (_step action) !! i)
  || default false (out_truncation (_step action) !! i).

Definition reward_at (i : nat) (action : Action) : F :=
  default zero (out_reward (_step action) !! i).

(** The episode return of environment [i] along a rollout, from the
    return [e] and the flag [d] of the state it starts in: at every step
    the return is multiplied by one minus the flag of the step before,
    and the reward of the step is added to the product. *)
Fixpoint return_after (i : nat) (e d : F) (actions : list Action) : F :=
  match actions with
  | [] => e
  | action :: rest =>
      return_after i (add (mul e (sub one d)) (reward_at i action))
        (astype_float (done_at i action)) rest
  end.

(** The flag of environment [i] after a rollout. *)
Definition done_after (i : nat) (d : F) (actions : list Action) : F :=
  default d (astype_float <$> (done_at i <$> last actions)).

(** The same return over steps that follow no end of an episode: the
    rewards are added from the left, each to the return so far times
    [1 - 0]. *)
Definition running_return (i : nat) (e : F) (actions : list Action) : F :=
  foldl (λ e action, add (mul e (sub one zero)) (reward_at i action))
        e actions.

(** Every array of the state, or of an answer of the pool, has one entry
    per environment. *)
Definition state_shaped (n : nat) (state : EnvState) : Prop :=
  length (obs state) = n ∧ length (reward state) = n
  ∧ length (done state) = n
  ∧ length (termination (info state)) = n
  ∧ length (truncation (info state)) = n
  ∧ length (episode_return (info state)) = n
  ∧ length (autoreset (info state)) = n.

Definition out_shaped (n : nat) (action : Action) : Prop :=
  length (out_obs (_step action)) = n
  ∧ length (out_reward (_step action)) = n
  ∧ length (out_termination (_step action)) = n
  ∧ length (out_truncation (_step action)) = n.

(** The entries of environment [i]. *)
Definition slot (i : nat) (state : EnvState)
    : option Obs * option F * option F * list (option F) :=
  (obs state !! i, reward state !! i, done state !! i,
   [termination (info state) !! i; truncation (info state) !! i;
    episode_return (info state) !! i; autoreset (info state) !! i]).

End Adapter.

(** A pool of two environments for the examples: an action is the answer
    the pool gives to it, observations are integers, and the floats are
    rationals under their own arithmetic. *)
Definition answer (o : Z) (r0 r1 : Q) (d0 d1 : bool)
    : StepOut (F:=Q) (Obs:=Z) :=
  {| out_obs := [o; o]; out_reward := [r0; r1];
     out_termination := [d0; d1]; out_truncation := [false; false] |}.
Definition pool (action : StepOut (F:=Q) (Obs:=Z)) : StepOut := action.
Definition pool_reset (key : nat) : list Z := [0; 0].
Definition nonzero (d : Q) : bool := negb (Qeq_bool d 0).
Definition pool_step :=
  step (Obs:=Z) 0%Q 1%Q Qplus Qminus Qmult pool.
Definition pool_one_episode_step :=
  one_episode_step (F:=Q) (Obs:=Z) (Action:=StepOut (F:=Q) (Obs:=Z))
    nonzero.

End EnvPool.

(** ** Evolutionary optimizers, [ec/optimizers/ga.py] and
    [ec/optimizers/open_es.py] *)

Module EC.

(** [jnp.argsort(a, descending=True)]: the indices in descending order of
    their values, equal values in the order of their indices. *)
Definition argsort_descending (a : list Q) : list nat :=
  PBT.argsort (Qopp <$> a).

(** [x[indices]] along the leading axis, for indices that are not
    negative: JAX clamps an index beyond the end to the last entry, and
    an empty axis has no entry to return. *)
Definition take_indices {X : Type} (xs : list X) (indices : list nat)
    : result (list X) :=
  match mapM (λ i, xs !! (i `min` (length xs - 1))%nat) indices with
  | Some ys => Ok ys
  | None => Raise IndexError
  end.

Section GA.
Context {Key X : Type}.

Record GAState : Type := { pop : list X; key : Key }.

Record GA : Type := {
  pop_size : Z;
  num_elites : Z;
  enable_crossover : bool
}.

(** [jax.random.split] and the three operators that [__post_init__]
    installs: tournament selection, mutation and crossover. *)
Variable random_split : Key → nat → list Key.
Variable select_parents : list Q → Z → Key → list nat.
Variable mutate : list X → Key → list X.
Variable crossover : list X → Key → list X.

(** The assertion of [GA.__post_init__], lines 41-44. *)
Definition __post_init__ (self : GA) : result unit :=
  if bool_decide ((pop_size self - num_elites self) mod 2 = 0)
     || negb (enable_crossover self)
  then Ok () else Raise AssertionError.

(** [GA.tell], lines 62-84. *)
Definition tell (self : GA) (state : GAState) (xs : list X)
    (fitnesses : list Q) : result GAState :=
  match random_split (key state) 4 with
  | [key; select_key; mutate_key; crossover_key] =>
      let elite_indices :=
        Py.slice_to (argsort_descending fitnesses) (num_elites self) in
      let? elites := take_indices xs elite_indices in
      let parents_indices :=
        select_parents fitnesses (pop_size self - num_elites self)
          select_key in
      let? parents := take_indices xs parents_indices in
      let offsprings :=
        if enable_crossover self
        then mutate (crossover parents crossover_key) mutate_key
        else mutate parents mutate_key in
      let new_pop := elites ++ offsprings in
      Ok {| pop := new_pop; key := key |}
  | _ => Raise ValueError
  end.

End GA.

(** [compute_ranks], lines 16-23 of [open_es.py]. *)
Definition compute_ranks (x : list Q) : result (list nat) :=
  take_indices (seq 0 (length x)) (argsort_descending x).

(** The fitness of member [i]. *)
Definition value (a : list Q) (i : nat) : Q := default 0%Q (a !! i).

End EC.

(** ** The training loop, [PPOWorkflow.learn], [agents/ppo.py] lines
    448-479 *)

Module PPOLearn.
Import PPO.

Section Learn.
Context {State Metrics TrainMetric EvalMetric Data : Type}.

(** What the recorder and the checkpoint manager are given, in order. *)
Inductive record : Type :=
| WorkflowMetrics (iters : Z) (m : Metrics)
| TrainMetrics (iters : Z) (d : Data)
| EvalMetrics (iters : Z) (e : EvalMetric)
| Checkpoint (iters : Z) (s : State).

(** [self.step], [self.evaluate], [state.metrics], its [iterations], and
    [to_local_dict] on the training metrics with the replacement of a
    missing episode return. *)
Variable step : State → result (TrainMetric * State).
Variable evaluate : State → result (EvalMetric * State).
Variable metrics : State → Metrics.
Variable iterations : Metrics → Z.
Variable train_metric_data : TrainMetric → Data.

(** The body of the loop, [count] times from the index [i]. *)
Fixpoint learn_loop (config : gmap string Z) (count : nat) (i : Z)
    (state : State) (log : list record) : result (list record * State) :=
  match count with
  | O => Ok (log, state)
  | S count' =>
      let? stepped := step state in
      let train_metrics := stepped.1 in
      let state := stepped.2 in
      let workflow_metrics := metrics state in
      let iters := i + 1 in
      let log := log ++ [WorkflowMetrics iters workflow_metrics] in
      let log := log ++ [TrainMetrics iters
                           (train_metric_data train_metrics)] in
      let? eval_interval := getattr config "eval_interval" in
      let? remainder := Py.mod_ iters eval_interval in
      let? evaluated :=
        if decide (remainder = 0)
        then let? r := evaluate state in
             Ok (log ++ [EvalMetrics iters r.1], r.2)
        else Ok (log, state) in
      let log := evaluated.1 ++ [Checkpoint iters evaluated.2] in
      learn_loop config count' (i + 1) evaluated.2 log
  end.

(** [range(start, stop)] has [stop - start] elements, none when that is
    negative. *)
Definition learn (config : gmap string Z) (state : State)
    (log : list record) : result (list record * State) :=
  let? rollout_length := getattr config "rollout_length" in
  let? num_envs := getattr config "num_envs" in
  let one_step_timesteps := rollout_length * num_envs in
  let? total_timesteps := getattr config "total_timesteps" in
  let? num_iters := Py.ceil_div total_timesteps one_step_timesteps in
  let start_iteration := iterations (metrics state) in
  learn_loop config (Z.to_nat (num_iters - start_iteration))
    start_iteration state log.

(** The iterations at which a checkpoint was saved, and those at which
    the agent was evaluated. *)
Definition checkpoints (log : list record) : list Z :=
  omap (λ r, match r with Checkpoint iters _ => Some iters | _ => None end)
       log.
Definition evaluations (log : list record) : list Z :=
  omap (λ r, match r with EvalMetrics iters _ => Some iters | _ => None end)
       log.
Definition steps (log : list record) : list Z :=
  omap (λ r, match r with TrainMetrics iters _ => Some iters | _ => None end)
       log.

End Learn.

(** The iterations [i + 1, ..., i + count]. *)
Definition iterations_from (i : Z) (count : nat) : list Z :=
  (λ k : nat, i + 1 + Z.of_nat k) <$> seq 0 count.

End PPOLearn.

(** ** Sampling candidates, [OpenES.ask], [ec/optimizers/open_es.py] *)

Module OpenES.
Import Jnp.

(** A function that may raise, applied to every element in turn. *)
Fixpoint map_result {A B : Type} (f : A → result B) (l : list A)
    : result (list B) :=
  match l with
  | [] => Ok []
  | x :: l' =>
      let? y := f x in
      let? ys := map_result f l' in
      Ok (y :: ys)
  end.

Section Ask.
Context {F Key OptState : Type}.

(** The floats of the arrays: [+], [*] and unary [-]. *)
Variables add mul : F → F → F.
Variable neg : F → F.

(** [OpenESState], with a mean of one leaf and one axis. *)
Record OpenESState : Type := {
  mean : list F;
  opt_state : OptState;
  noise_std : F;
  key : Key
}.

(** The fields of [OpenES] that sampling reads. *)
Record OpenES : Type := {
  pop_size : Z;
  mirror_sampling : bool
}.

(** [jax.random.split], [rng_split_like_tree] on a tree of one leaf, and
    [jax.random.normal(key, shape=(n, d))]. *)
Variable random_split : Key → nat → list Key.
Variable rng_split_like_tree : Key → Key.
Variable random_normal : Key → nat → nat → list (list F).

(** The assertions of [__post_init__], lines 52-55. *)
Definition __post_init__ (self : OpenES) : result unit :=
  if decide (pop_size self > 0)
  then if mirror_sampling self
       then if decide (pop_size self mod 2 = 0) then Ok ()
            else Raise AssertionError
       else Ok ()
  else Raise AssertionError.

(** A leading axis of negative length is refused. *)
Definition normal (k : Key) (n : Z) (d : nat) : result (list (list F)) :=
  if decide (n < 0) then Raise ValueError
  else Ok (random_normal k (Z.to_nat n) d).

(** [OpenES.ask], lines 106-131. *)
Definition ask (self : OpenES) (state : OpenESState)
    : result (list (list F) * OpenESState) :=
  match random_split (key state) 2 with
  | [key; sample_key] =>
      let sample_keys := rng_split_like_tree sample_key in
      let? noise :=
        if mirror_sampling self
        then let? half := Py.floordiv (pop_size self) 2 in
             let? x := normal sample_keys half (length (mean state)) in
             Ok (x ++ ((λ row : list F, neg <$> row) <$> x))
        else normal sample_keys (pop_size self) (length (mean state)) in
      let? pop :=
        map_result
          (λ delta : list F,
             broadcast_with (λ m d, add m (mul (noise_std state) d))
               (mean state) delta)
          noise in
      let state := {| mean := mean state; opt_state := opt_state state;
                      noise_std := noise_std state; key := key |} in
      Ok (pop, state)
  | _ => Raise ValueError
  end.

End Ask.
End OpenES.

(** * Properties *)

Lemma bind_Ok {A B : Type} (m : result A) (k : A → result B) (b : B) :
  bind m k = Ok b → ∃ a, m = Ok a ∧ k a = Ok b.
Proof. destruct m as [a|e]; simpl; [eauto | discriminate]. Qed.

Module ArrayFacts.
Import Array.

Section Carrier.
Context {R : Type}.
Variables (zero one : R) (add sub mul : R → R → R).

Abbreviation compute_gae := (Array.compute_gae zero one add sub mul).
Abbreviation _compute_gae := (Array._compute_gae add mul).
Abbreviation gae_rows := (Array.gae_rows add mul).
Abbreviation at_ := (Array.at_ zero).

Lemma shape_eqb_refl (s : list nat) : shape_eqb s s = true.
Proof. unfold shape_eqb. by rewrite bool_decide_eq_true. Qed.

Lemma shape_inv (a : Array.t (R:=R)) n s :
  shape a = n :: s ↔ length (rows a) = n ∧ trail a = s.
Proof. unfold shape. split; [intros [= -> ->] | intros [-> ->]]; done. Qed.

Lemma zip_same_ok (f : R → R → R) (a b : Array.t) :
  shape a = shape b →
  zip_same f a b = Ok (mk (trail a) (zip_with (zip_with f) (rows a) (rows b))).
Proof. intros H. unfold zip_same. by rewrite H, shape_eqb_refl. Qed.

(** *** The scan, slice by slice *)

Lemma gae_rows_length init xs : length (gae_rows init xs) = length xs.
Proof. induction xs as [|[d f] xs IH]; simpl; [done | by rewrite IH]. Qed.

Lemma gae_rows_lookup init xs t d f :
  xs !! t = Some (d, f) →
  gae_rows init xs !! t
  = Some (zip_with add d
            (zip_with mul f (default init (gae_rows init xs !! S t)))).
Proof.
  revert t. induction xs as [|[d' f'] xs IH]; intros [|t] Hx; simpl in *;
    try discriminate.
  - injection Hx as -> ->. by destruct (gae_rows init xs).
  - by apply IH.
Qed.

Lemma gae_rows_row_length n init xs :
  length init = n →
  Forall (λ x : list R * list R, length x.1 = n ∧ length x.2 = n) xs →
  Forall (λ r, length r = n) (gae_rows init xs).
Proof.
  intros Hi. induction 1 as [|[d f] xs [Hd Hf] _ IH]; simpl in *;
    constructor; [|done].
  rewrite !length_zip_with, Hd, Hf.
  assert (length (hd init (gae_rows init xs)) = n) as ->; [|lia].
  destruct IH; simpl; done.
Qed.

Lemma scan_gae (s : list nat) (init : slice) (xs : list (slice * slice)) :
  sshape init = s →
  Forall (λ x : slice * slice, sshape x.1 = s ∧ sshape x.2 = s) xs →
  ∃ ys, scan_reverse _compute_gae init xs = Ok (hd init ys, ys)
        ∧ Forall (λ y, sshape y = s) ys
        ∧ sdata <$> ys
          = gae_rows (sdata init) ((λ x, (sdata x.1, sdata x.2)) <$> xs).
Proof.
  intros Hi. induction 1 as [|[d f] xs [Hd Hf] _ (ys & Hscan & Hsh & Hdata)];
    simpl in *.
  - by exists [].
  - rewrite Hscan. simpl.
    assert (sshape (hd init ys) = s) as Hc by (by destruct Hsh).
    unfold Array._compute_gae, zip_slice. simpl.
    rewrite Hf, Hc, shape_eqb_refl. simpl.
    rewrite Hd, shape_eqb_refl. simpl. rewrite shape_eqb_refl. simpl.
    eexists (_ :: ys). split; [reflexivity|]. split; [by constructor|].
    cbn [fmap list_fmap fst snd sdata]. fold (fmap (M:=list) (@sdata R) ys).
    change (list_fmap _ _ ?g xs) with (g <$> xs).
    rewrite <- Hdata. do 3 f_equal. by destruct ys.
Qed.

Lemma slices_zip_data (a b : Array.t (R:=R)) :
  (λ x : slice * slice, (sdata x.1, sdata x.2))
    <$> zip (slices a) (slices b)
  = zip (rows a) (rows b).
Proof.
  unfold slices. generalize (trail a) (trail b) (rows b).
  induction (rows a) as [|r ra IH]; intros sa sb [|r' rb]; simpl; try done.
  by rewrite IH.
Qed.

Lemma slices_zip_shape (a b : Array.t (R:=R)) s :
  trail a = s → trail b = s →
  Forall (λ x : slice * slice, sshape x.1 = s ∧ sshape x.2 = s)
         (zip (slices a) (slices b)).
Proof.
  intros <- Hb. unfold slices. rewrite Hb. generalize (rows b).
  induction (rows a) as [|r ra IH]; intros [|r' rb]; simpl;
    constructor; auto.
Qed.

(** *** Reading entries *)

Lemma get_is_Some (a : Array.t (R:=R)) n s t b :
  shape a = n :: s → wf a → (t < n)%nat → (b < numel s)%nat →
  ∃ x, get a t b = Some x ∧ at_ a t b = x.
Proof.
  intros [Hn Hs]%shape_inv Hwf Ht Hb. unfold Array.at_, get, get_rows.
  destruct (lookup_lt_is_Some_2 (rows a) t) as [r Hr]; [lia|].
  rewrite Hr. simpl.
  assert (length r = numel s) as Hlen.
  { rewrite <- Hs.
    exact (proj1 (Forall_lookup _ _) Hwf t r Hr). }
  destruct (lookup_lt_is_Some_2 r b) as [x Hx]; [lia|].
  rewrite Hx. eauto.
Qed.

(** *** [compute_gae] on arrays of shapes [T :: s], [T :: s], [S T :: s] *)

Lemma first_row_ok (a : Array.t (R:=R)) n :
  length (rows a) = S n →
  first_row a = Ok (mk_slice (trail a) (hd [] (rows a))).
Proof. unfold first_row. by destruct (rows a). Qed.

Lemma init_rows_eq (a : Array.t (R:=R)) n :
  length (rows a) = S n → init_rows a = mk (trail a) (take n (rows a)).
Proof.
  intros H. unfold init_rows. rewrite H. do 2 f_equal. lia.
Qed.

Lemma compute_gae_rows dones rewards values gae_lambda discount T s :
  shape dones = T :: s → shape rewards = T :: s →
  shape values = S T :: s →
  let factor := (λ r : list R, mul (mul discount gae_lambda) <$> r)
                  <$> ((λ r : list R, sub one <$> r) <$> rows dones) in
  let deltas :=
    zip_with (zip_with sub)
      (zip_with (zip_with add) (rows rewards)
         (zip_with (zip_with mul)
            ((λ r : list R, mul discount <$> r)
               <$> ((λ r : list R, sub one <$> r) <$> rows dones))
            (drop 1 (rows values))))
      (take T (rows values)) in
  let adv := gae_rows ((λ _, zero) <$> hd [] (rows values))
                      (zip deltas factor) in
  compute_gae dones rewards values gae_lambda discount
  = Ok (mk s (zip_with (zip_with add) adv (take T (rows values))),
        mk s adv).
Proof.
  intros [Hd Hds]%shape_inv [Hr Hrs]%shape_inv [Hv Hvs]%shape_inv.
  unfold Array.compute_gae, assert_shape.
  rewrite (init_rows_eq values T Hv), (first_row_ok values T Hv).
  cbn [hd tl]. unfold shape at 1 2 3.
  rewrite Hv, Hr, Hvs, Hrs, shape_eqb_refl. cbn [bind].
  rewrite zip_same_ok; cycle 1.
  { unfold shape, scalar_l, tail_rows. cbn [rows trail].
    rewrite !length_fmap, length_drop. f_equal; [lia | congruence]. }
  cbn [bind]. rewrite zip_same_ok; cycle 1.
  { unfold shape. cbn [rows trail scalar_l tail_rows].
    rewrite !length_zip_with, !length_fmap, length_drop.
    f_equal; [lia | congruence]. }
  cbn [bind]. rewrite zip_same_ok; cycle 1.
  { unfold shape. cbn [rows trail scalar_l tail_rows].
    rewrite !length_zip_with, !length_fmap, length_drop, length_take.
    f_equal; [lia | congruence]. }
  cbn [bind rows trail scalar_l tail_rows].
  match goal with |- (if negb ?c then _ else _) = _ =>
    assert (c = true) as -> end.
  { apply Nat.eqb_eq.
    rewrite !length_zip_with, !length_fmap, length_drop, length_take. lia. }
  cbn [negb].
  edestruct (scan_gae s) as (ys & -> & Hsh & Hdata).
  { by cbn. }
  { apply (slices_zip_shape _ _ s); cbn; congruence. }
  cbn [bind snd]. rewrite slices_zip_data in Hdata.
  cbn [rows trail scalar_l zeros_like sdata sshape] in Hdata.
  unfold stack. rewrite zip_same_ok; cycle 1.
  { unfold shape. cbn [rows trail]. rewrite Hdata.
    rewrite gae_rows_length, length_zip, !length_zip_with, !length_fmap.
    rewrite length_drop, length_take.
    cbn [zeros_like sshape]. f_equal; first [lia | congruence]. }
  cbn [bind rows trail zeros_like sshape]. by rewrite Hdata.
Qed.

(** *** Entry by entry *)

Lemma get_rows_Some (l : list (list R)) t b x :
  get_rows l t b = Some x ↔ ∃ r, l !! t = Some r ∧ r !! b = Some x.
Proof. unfold get_rows. by rewrite bind_Some. Qed.

Lemma get_rows_zip_with (f : R → R → R) (l k : list (list R)) t b x y :
  get_rows l t b = Some x → get_rows k t b = Some y →
  get_rows (zip_with (zip_with f) l k) t b = Some (f x y).
Proof.
  intros (r & Hr & Hx)%get_rows_Some (q & Hq & Hy)%get_rows_Some.
  apply get_rows_Some. exists (zip_with f r q).
  rewrite !lookup_zip_with, Hr, Hq, Hx, Hy. done.
Qed.

Lemma get_rows_fmap (f : R → R) (l : list (list R)) t b x :
  get_rows l t b = Some x →
  get_rows ((λ r : list R, f <$> r) <$> l) t b = Some (f x).
Proof.
  intros (r & Hr & Hx)%get_rows_Some. apply get_rows_Some.
  exists (f <$> r). by rewrite !list_lookup_fmap, Hr, Hx.
Qed.

Lemma get_rows_drop1 (l : list (list R)) t b :
  get_rows (drop 1 l) t b = get_rows l (S t) b.
Proof. unfold get_rows. by rewrite lookup_drop. Qed.

Lemma get_rows_take (l : list (list R)) n t b :
  (t < n)%nat → get_rows (take n l) t b = get_rows l t b.
Proof. intros H. unfold get_rows. by rewrite lookup_take_lt. Qed.

Lemma gae_rows_entry init xs t b d f δ φ nx :
  xs !! t = Some (d, f) → d !! b = Some δ → f !! b = Some φ →
  default init (gae_rows init xs !! S t) !! b = Some nx →
  get_rows (gae_rows init xs) t b = Some (add δ (mul φ nx)).
Proof.
  intros Hx Hd Hf Hn. apply get_rows_Some.
  rewrite (gae_rows_lookup _ _ _ _ _ Hx). eexists. split; [done|].
  by rewrite !lookup_zip_with, Hd, Hf, Hn.
Qed.

(** The recursion of [compute_gae], entry by entry: on inputs of shapes
    [T :: s], [T :: s] and [S T :: s] the call returns, and the returned
    advantage at time [t] is [delta t] plus the decayed advantage at
    [t + 1], with the advantage beyond the horizon being [zero]; the
    target adds [values[t]]. *)
Lemma compute_gae_entries dones rewards values gae_lambda discount T s :
  shape dones = T :: s → shape rewards = T :: s →
  shape values = S T :: s →
  wf dones → wf rewards → wf values →
  ∃ target adv,
    compute_gae dones rewards values gae_lambda discount = Ok (target, adv)
    ∧ shape target = T :: s ∧ shape adv = T :: s
    ∧ ∀ t b, (t < T)%nat → (b < numel s)%nat →
        let done_t := at_ dones t b in
        let delta_t :=
          sub (add (at_ rewards t b)
                   (mul (mul discount (sub one done_t)) (at_ values (S t) b)))
              (at_ values t b) in
        let next := if decide (S t < T)%nat then at_ adv (S t) b else zero in
        get adv t b
        = Some (add delta_t
                    (mul (mul (mul discount gae_lambda) (sub one done_t)) next))
        ∧ get target t b = Some (add (at_ adv t b) (at_ values t b)).
Proof.
  intros Hsd Hsr Hsv Hwd Hwr Hwv.
  rewrite (compute_gae_rows _ _ _ _ _ T s Hsd Hsr Hsv). cbv zeta.
  set (factor := (λ r : list R, mul (mul discount gae_lambda) <$> r) <$> _).
  set (deltas := zip_with (zip_with sub) _ _).
  set (init := (λ _, zero) <$> hd [] (rows values)).
  set (adv := gae_rows init (zip deltas factor)).
  eexists _, _. split; [reflexivity|].
  pose proof Hsd as [Hd _]%shape_inv. pose proof Hsr as [Hr _]%shape_inv.
  pose proof Hsv as [Hv _]%shape_inv.
  assert (length deltas = T) as Hld.
  { subst deltas. rewrite !length_zip_with, !length_fmap, length_drop,
      length_take. lia. }
  assert (length factor = T) as Hlf.
  { subst factor. by rewrite !length_fmap. }
  assert (length adv = T) as Hla.
  { subst adv. rewrite gae_rows_length, length_zip. lia. }
  split; [|split].
  { unfold shape. cbn [rows trail].
    rewrite length_zip_with, Hla, length_take. f_equal. lia. }
  { unfold shape. cbn [rows trail]. by rewrite Hla. }
  (* the advantage entries, from the horizon backwards *)
  assert (∀ k t b, T = (t + S k)%nat → (b < numel s)%nat →
    get_rows adv t b
    = Some (add (sub (add (at_ rewards t b)
                          (mul (mul discount (sub one (at_ dones t b)))
                               (at_ values (S t) b)))
                     (at_ values t b))
                (mul (mul (mul discount gae_lambda) (sub one (at_ dones t b)))
                     (if decide (S t < T)%nat
                      then default zero (get_rows adv (S t) b) else zero))))
    as Hadv.
  { induction k as [|k IH]; intros t b Ht Hb.
    all: destruct (get_is_Some dones T s t b) as (d & Hgd & ->);
      [done | done | lia | done |].
    all: destruct (get_is_Some rewards T s t b) as (r & Hgr & ->);
      [done | done | lia | done |].
    all: destruct (get_is_Some values (S T) s t b) as (v0 & Hg0 & ->);
      [done | done | lia | done |].
    all: destruct (get_is_Some values (S T) s (S t) b) as (v1 & Hg1 & ->);
      [done | done | lia | done |].
    all: assert (get_rows deltas t b
                 = Some (sub (add r (mul (mul discount (sub one d)) v1)) v0))
           as (dr & Hdr & Hdb)%get_rows_Some.
    1, 3: subst deltas; apply get_rows_zip_with;
      [apply get_rows_zip_with; [done|];
       apply get_rows_zip_with;
         [by do 2 apply get_rows_fmap | by rewrite get_rows_drop1]
      | rewrite get_rows_take; [done | lia]].
    all: assert (get_rows factor t b
                 = Some (mul (mul discount gae_lambda) (sub one d)))
           as (fr & Hfr & Hfb)%get_rows_Some
           by (subst factor; by do 2 apply get_rows_fmap).
    all: assert (zip deltas factor !! t = Some (dr, fr)) as Hz
           by (by rewrite lookup_zip_with, Hdr, Hfr).
    - (* t is the last step: the carry is the initial zero slice *)
      rewrite decide_False by lia.
      apply (gae_rows_entry _ _ _ _ _ _ _ _ _ Hz Hdb Hfb).
      fold adv. rewrite (lookup_ge_None_2 adv (S t)) by lia. cbn [default].
      subst init. rewrite list_lookup_fmap.
      destruct (get_is_Some values (S T) s 0 b) as (z & Hz0 & _);
        [done | done | lia | done |].
      apply get_rows_Some in Hz0 as (r0 & Hr0 & Hb0).
      destruct (rows values); [done|]. injection Hr0 as ->.
      cbn [hd]. by rewrite Hb0.
    - (* the carry is the advantage computed at step t + 1 *)
      rewrite decide_True by lia.
      specialize (IH (S t) b ltac:(lia) Hb).
      rewrite IH. cbn [default].
      apply (gae_rows_entry _ _ _ _ _ _ _ _ _ Hz Hdb Hfb).
      fold adv.
      apply get_rows_Some in IH as (nr & -> & Hnb). by cbn [default]. }
  intros t b Ht Hb. cbv zeta. unfold get, Array.at_ at 6 7, get. cbn [rows].
  specialize (Hadv (T - S t)%nat t b ltac:(lia) Hb).
  split; [exact Hadv|].
  apply get_rows_zip_with.
  - rewrite Hadv. done.
  - rewrite get_rows_take by lia.
    destruct (get_is_Some values (S T) s t b) as (v0 & Hg0 & ->);
      [done | done | lia | done |]. done.
Qed.

Lemma assert_shape_leading (values : Array.t (R:=R)) n s :
  length (rows values) ≠ n → assert_shape values (n :: s) = Raise AssertionError.
Proof.
  intros H. unfold assert_shape, shape_eqb, shape.
  rewrite bool_decide_eq_false_2; [done|]. intros [= ? _]. done.
Qed.

End Carrier.

(** C2.  On [rewards] and [dones] of shape [T :: s] and [values] of shape
    [S T :: s], [compute_gae] returns a target and an advantage of shape
    [T :: s] with, entry by entry,
    [advantage[t] = delta[t] + discount*gae_lambda*(1-done[t])*advantage[t+1]],
    the advantage at the horizon [T] being zero,
    [delta[t] = reward[t] + discount*(1-done[t])*value[t+1] - value[t]] and
    [target[t] = advantage[t] + value[t]].  The operations are those of
    any carrier, grouped as the code groups them.  On the integers,
    [rewards=[1,1,1]], [values=[0,0,0,0]], [dones=[0,0,0]],
    [gae_lambda=1], [discount=1] give [target=[3,2,1]] and
    [advantage=[3,2,1]]. *)
Theorem compute_gae_correct :
  (∀ (R : Type) (zero one : R) (add sub mul : R → R → R)
     (dones rewards values : Array.t) (gae_lambda discount : R)
     (T : nat) (s : list nat),
     shape dones = T :: s → shape rewards = T :: s →
     shape values = S T :: s →
     wf dones → wf rewards → wf values →
     ∃ target advantage,
       compute_gae zero one add sub mul dones rewards values
                   gae_lambda discount
       = Ok (target, advantage)
       ∧ shape target = T :: s ∧ shape advantage = T :: s
       ∧ ∀ t b, (t < T)%nat → (b < numel s)%nat →
           let done_t := at_ zero dones t b in
           let delta_t :=
             sub (add (at_ zero rewards t b)
                      (mul (mul discount (sub one done_t))
                           (at_ zero values (S t) b)))
                 (at_ zero values t b) in
           let next :=
             if decide (S t < T)%nat then at_ zero advantage (S t) b
             else zero in
           get advantage t b
           = Some (add delta_t
                     (mul (mul (mul discount gae_lambda) (sub one done_t))
                          next))
           ∧ get target t b
             = Some (add (at_ zero advantage t b) (at_ zero values t b)))
  ∧ compute_gae 0 1 Z.add Z.sub Z.mul
      (zarr [0; 0; 0]) (zarr [1; 1; 1]) (zarr [0; 0; 0; 0]) 1 1
    = Ok (zarr [3; 2; 1], zarr [3; 2; 1]).
Proof.
  split; [|reflexivity].
  intros. by apply compute_gae_entries.
Qed.

Lemma compute_gae_correct_witness :
  ∃ target advantage,
    compute_gae 0 1 Z.add Z.sub Z.mul
      (Array.mk [2%nat] [[0; 1]; [0; 0]])
      (Array.mk [2%nat] [[1; 2]; [3; 4]])
      (Array.mk [2%nat] [[5; 6]; [7; 8]; [9; 10]]) 1 1
    = Ok (target, advantage)
    ∧ get advantage 0 1 = Some (2 + 1 * (1 - 1) * 8 - 6 + 1 * 1 * (1 - 1) * (4 + 10 - 8))
    ∧ get target 0 1 = Some (2 + 1 * (1 - 1) * 8 - 6 + 1 * 1 * (1 - 1) * (4 + 10 - 8) + 6).
Proof.
  destruct (proj1 compute_gae_correct Z 0 1 Z.add Z.sub Z.mul
              (Array.mk [2%nat] [[0; 1]; [0; 0]])
              (Array.mk [2%nat] [[1; 2]; [3; 4]])
              (Array.mk [2%nat] [[5; 6]; [7; 8]; [9; 10]]) 1 1 2%nat [2%nat])
    as (target & advantage & Hrun & _ & _ & Hentries);
    [reflexivity | reflexivity | reflexivity
    | repeat constructor | repeat constructor | repeat constructor |].
  exists target, advantage. split; [exact Hrun|].
  vm_compute in Hrun. injection Hrun as <- <-. vm_compute. split; reflexivity.
Defined.

(** C8.  When the leading length of [values] is not one more than that of
    [rewards], [compute_gae] stops at its shape assertion, whatever the
    other arguments are: nothing is truncated or padded, nothing returned. *)
Theorem compute_gae_shape_assert :
  ∀ (R : Type) (zero one : R) (add sub mul : R → R → R)
    (dones rewards values : Array.t) (gae_lambda discount : R),
    length (rows values) ≠ S (length (rows rewards)) →
    compute_gae zero one add sub mul dones rewards values gae_lambda discount
    = Raise AssertionError.
Proof.
  intros R zero one add sub mul dones rewards values gl disc H.
  unfold compute_gae. cbn [shape hd tl].
  by rewrite assert_shape_leading.
Qed.

Lemma compute_gae_shape_assert_witness :
  compute_gae 0 1 Z.add Z.sub Z.mul
    (zarr [0; 0; 0]) (zarr [1; 1; 1]) (zarr [0; 0; 0]) 1 1
  = Raise AssertionError.
Proof.
  apply compute_gae_shape_assert. vm_compute. lia.
Defined.

End ArrayFacts.

(** ** Python's rounding of float products and quotients *)

Module PyFacts.

(** [round(45 * 0.7)] is 31: the float nearest to 0.7 is below it, and the
    product of floats is 31.499999999999996, where the product of the
    numbers is the tie 31.5. *)
Example round_product_below_tie :
  Py.round_product 45 (7 # 10) = Ok 31
  ∧ Py.round_half_even (45 * (7 # 10)) = 32.
Proof. split; vm_compute; reflexivity. Qed.

(** A tie of floats goes to the even integer: [round(5 * 0.5)] is 2 and
    [round(7 * 0.5)] is 4. *)
Example round_product_ties :
  Py.round_product 5 (1 # 2) = Ok 2 ∧ Py.round_product 7 (1 # 2) = Ok 4.
Proof. split; vm_compute; reflexivity. Qed.

Example round_product_fifth :
  Py.round_product 5 (1 # 5) = Ok 1 ∧ Py.round_product 5 0 = Ok 0.
Proof. split; vm_compute; reflexivity. Qed.

(** [math.ceil(30000000000000001 / 3)] is 10000000000000000: the numerator
    is beyond [2 ^ 53], the quotient 10000000000000000.33 rounds to the
    float 10000000000000000, and the ceiling of the number is one more. *)
Example ceil_div_rounds_down :
  Py.ceil_div 30000000000000001 3 = Ok 10000000000000000
  ∧ Qceiling (30000000000000001 # 3) = 10000000000000001.
Proof. split; vm_compute; reflexivity. Qed.

Example ceil_div_small :
  Py.ceil_div 10 2 = Ok 5 ∧ Py.ceil_div 20 6 = Ok 4
  ∧ Py.ceil_div (-7) 2 = Ok (-3)
  ∧ Py.ceil_div 10 0 = Raise ZeroDivisionError.
Proof. repeat split; vm_compute; reflexivity. Qed.

End PyFacts.

Module GradientFacts.
Import Gradients.

(** C9.  The function returned by [gradient_update] does not read its
    [params] argument: two calls that differ only there agree, and on a
    non-empty [*args] the loss, the gradient and the updated parameters are
    all those of [args[0]]. *)
Theorem gradient_update_ignores_params :
  ∀ (Params Grads Updates OptState Value Rest : Type)
    (value_and_grad : bool → (Params → Value) → Params → Value * Grads)
    (pmean : string → Grads → Grads)
    (apply_updates : Params → Updates → Params)
    (loss_fn : Params → Rest → Value)
    (optimizer : GradientTransformation)
    (pmap_axis_name : option string) (has_aux : bool)
    (optimizer_state : OptState) (p1 p2 : Params) (args : arguments),
    let f := gradient_update value_and_grad pmean apply_updates loss_fn
               optimizer pmap_axis_name has_aux in
    f optimizer_state p1 args = f optimizer_state p2 args
    ∧ ∀ a0 rest, args = Args a0 rest →
        let vg := loss_and_pgrad value_and_grad pmean (λ p, loss_fn p rest)
                    pmap_axis_name has_aux a0 in
        let u := update optimizer vg.2 optimizer_state in
        f optimizer_state p1 args = Ok (vg.1, apply_updates a0 u.1, u.2).
Proof.
  intros. split; [reflexivity|].
  intros a0 rest ->. subst f. unfold gradient_update. cbv zeta.
  destruct (loss_and_pgrad _ _ _ _ _ a0) as [value grads]. cbn [fst snd].
  by destruct (update optimizer grads optimizer_state).
Qed.

Lemma gradient_update_ignores_params_witness :
  gradient_update Toy.value_and_grad Toy.pmean Toy.apply_updates
    (λ (p : Z) (_ : unit), p * p) Toy.sgd None false 0 100 (Args 3 tt)
  = Ok (9, -3, 1)
  ∧ gradient_update Toy.value_and_grad Toy.pmean Toy.apply_updates
      (λ (p : Z) (_ : unit), p * p) Toy.sgd None false 0 100 (Args 3 tt)
    = gradient_update Toy.value_and_grad Toy.pmean Toy.apply_updates
        (λ (p : Z) (_ : unit), p * p) Toy.sgd None false 0 200 (Args 3 tt).
Proof.
  destruct (gradient_update_ignores_params Z Z Z Z Z unit
              Toy.value_and_grad Toy.pmean Toy.apply_updates
              (λ (p : Z) (_ : unit), p * p) Toy.sgd None false
              0 100 200 (Args 3 tt)) as [Hsame Hvalue].
  split; [exact (Hvalue 3 tt eq_refl) | exact Hsame].
Defined.

(** What [agent_gradient_update] returns: the optimizer state of the
    update, and the agent state it was given. *)
Lemma agent_gradient_update_returns
    {Params Grads Updates OptState Value Extra Batch Key : Type}
    (value_and_grad : bool → (Params → Value) → Params → Value * Grads)
    (pmean : string → Grads → Grads)
    (apply_updates : Params → Updates → Params)
    (loss_fn : AgentState (Extra:=Extra) → Batch → Key → Value)
    (optimizer : GradientTransformation)
    (pmap_axis_name : option string) (has_aux : bool)
    (opt_state : OptState) (agent_state : AgentState)
    (sample_batch : Batch) (key : Key) :
  let vg := loss_and_pgrad value_and_grad pmean
              (λ p, loss_fn (replace_params agent_state p) sample_batch key)
              pmap_axis_name has_aux (params agent_state) in
  let u := update optimizer vg.2 opt_state in
  agent_gradient_update value_and_grad pmean apply_updates loss_fn optimizer
    pmap_axis_name has_aux opt_state agent_state sample_batch key
  = (vg.1, agent_state, u.2).
Proof.
  cbv zeta. unfold agent_gradient_update.
  destruct (loss_and_pgrad _ _ _ _ _ _) as [value grads]. cbn [fst snd].
  by destruct (update optimizer grads opt_state).
Qed.

(** C1 (the code departs from it).  With the loss [p * p], gradient
    descent of step one and parameters [3], the update leads to
    [3 + (-6) = -3]; the optimizer state returned is that of the update,
    but the agent state returned still carries [3]. *)
Theorem agent_gradient_update_keeps_old_params :
  agent_gradient_update Toy.value_and_grad Toy.pmean Toy.apply_updates
    Toy.square_loss Toy.sgd None false 0 (Toy.agent 3) tt tt
  = (9, Toy.agent 3, 1)
  ∧ Toy.apply_updates 3 (Gradients.update Toy.sgd 6 0).1 = -3.
Proof. split; reflexivity. Qed.

End GradientFacts.

Module WorkflowFacts.
Import Workflow.

(** C10.  [OnPolicyWorkflow.evaluate] returns, and the state it returns
    differs from its input in the key only, which becomes the first half of
    a split of the input key; the agent state, the environment state, the
    optimizer state and the metrics are those of the input. *)
Theorem evaluate_changes_key_only :
  ∀ (Key Metrics AgentState EnvState OptState RawMetrics EvalMetrics
       Scalar : Type)
    (random_split : Key → nat → list Key)
    (evaluator_evaluate : AgentState → Z → Key → RawMetrics)
    (episode_returns_mean episode_lengths_mean : RawMetrics → Scalar)
    (EvaluateMetric : Scalar → Scalar → EvalMetrics)
    (all_reduce : option string → EvalMetrics → EvalMetrics)
    (eval_episodes : Z) (pmap_axis_name : option string)
    (state : State (Key:=Key) (Metrics:=Metrics) (AgentState:=AgentState)
                   (EnvState:=EnvState) (OptState:=OptState)),
    length (random_split (key state) 2%nat) = 2%nat →
    ∃ eval_metrics new_key eval_key state',
      random_split (key state) 2%nat = [new_key; eval_key]
      ∧ evaluate random_split evaluator_evaluate episode_returns_mean
          episode_lengths_mean EvaluateMetric all_reduce
          eval_episodes pmap_axis_name state
        = Ok (eval_metrics, state')
      ∧ key state' = new_key
      ∧ agent_state state' = agent_state state
      ∧ env_state state' = env_state state
      ∧ opt_state state' = opt_state state
      ∧ metrics state' = metrics state.
Proof.
  intros until state. intros Hlen. unfold evaluate.
  destruct (random_split (key state) 2%nat) as [|k [|ek [|? ?]]];
    try discriminate Hlen.
  eexists _, k, ek, _. split; [reflexivity|]. split; [reflexivity|].
  by cbn.
Qed.

Lemma evaluate_changes_key_only_witness :
  ∃ eval_metrics state',
    evaluate (λ (k : nat) n, (λ i, k * 10 + i)%nat <$> seq 1 n)
      (λ (a : Z) (n : Z) (k : nat), a + n) id id
      (λ r l : Z, (r, l)) (λ _ m, m) 10 None
      {| key := 7%nat; metrics := 1; agent_state := 2; env_state := 3;
         opt_state := 4 |}
    = Ok (eval_metrics, state')
    ∧ state' = {| key := 71%nat; metrics := 1; agent_state := 2;
                  env_state := 3; opt_state := 4 |}.
Proof.
  destruct (evaluate_changes_key_only nat Z Z Z Z Z (Z * Z) Z
              (λ (k : nat) n, (λ i, k * 10 + i)%nat <$> seq 1 n)
              (λ (a : Z) (n : Z) (k : nat), a + n) id id
              (λ r l : Z, (r, l)) (λ _ m, m) 10 None
              {| key := 7%nat; metrics := 1; agent_state := 2;
                 env_state := 3; opt_state := 4 |})
    as (m & k & ek & s' & _ & Hrun & _); [reflexivity|].
  exists m, s'. split; [exact Hrun|].
  vm_compute in Hrun. by injection Hrun as _ <-.
Defined.

End WorkflowFacts.

Module PPOFacts.
Import PPO.

Lemma getattr_lookup (config : gmap string Z) name v :
  config !! name = Some v → getattr config name = Ok v.
Proof. intros H. unfold getattr. by rewrite H. Qed.

(** The divisibility check of [_build_from_config]: when the minibatch size
    divides the rollout, the log is left as it was; when it does not, the
    text of the warning reads the key [minibath_size], and a configuration
    without that key makes the construction raise. *)
Lemma build_divisible (config : gmap string Z) log num_envs rollout_length
    minibatch_size :
  config !! "num_envs" = Some num_envs →
  config !! "rollout_length" = Some rollout_length →
  config !! "minibatch_size" = Some minibatch_size →
  minibatch_size ≠ 0 →
  (num_envs * rollout_length) mod minibatch_size = 0 →
  _build_from_config config log = Ok (log, {| config := config |}).
Proof.
  intros Hn Hr Hm Hz Hd. unfold _build_from_config.
  rewrite (getattr_lookup _ _ _ Hn), (getattr_lookup _ _ _ Hr),
    (getattr_lookup _ _ _ Hm). cbn [bind].
  unfold Py.mod_. rewrite decide_False by done. cbn [bind].
  by rewrite decide_False by (intros H; by apply H).
Qed.

Lemma build_not_divisible (config : gmap string Z) log num_envs
    rollout_length minibatch_size :
  config !! "num_envs" = Some num_envs →
  config !! "rollout_length" = Some rollout_length →
  config !! "minibatch_size" = Some minibatch_size →
  minibatch_size ≠ 0 →
  (num_envs * rollout_length) mod minibatch_size ≠ 0 →
  _build_from_config config log
  = match config !! "minibath_size" with
    | Some shown => Ok (log ++ [warning_text shown], {| config := config |})
    | None => Raise AttributeError
    end.
Proof.
  intros Hn Hr Hm Hz Hd. unfold _build_from_config.
  rewrite (getattr_lookup _ _ _ Hn), (getattr_lookup _ _ _ Hr),
    (getattr_lookup _ _ _ Hm). cbn [bind].
  unfold Py.mod_. rewrite decide_False by done. cbn [bind].
  rewrite decide_True by done. unfold getattr.
  by destruct (config !! "minibath_size").
Qed.

(** C4 (the code departs from it).  Three rollout steps and a minibatch
    size of two: the construction does not return with a warning logged, it
    raises while the text of the warning is being built. *)
Theorem build_from_config_raises :
  _build_from_config
    (<["num_envs" := 1]> (<["rollout_length" := 3]>
      (<["minibatch_size" := 2]> ∅))) []
  = Raise AttributeError.
Proof. by vm_compute. Qed.

Section Minibatch.
Context {Key A : Type}.
Variable random_permutation : Key → list A → list A.

Lemma chunks_length size count (l : list A) :
  length (chunks size count l) = count.
Proof. revert l. induction count as [|c IH]; intros l; simpl; [done | by rewrite IH]. Qed.

Lemma chunks_exact size count (l : list A) :
  length l = (count * size)%nat →
  Forall (λ b, length b = size) (chunks size count l)
  ∧ concat (chunks size count l) = l.
Proof.
  revert l. induction count as [|c IH]; intros l Hl; simpl in *.
  - split; [constructor|]. by destruct l.
  - destruct (IH (drop size l)) as [IH1 IH2].
    { rewrite length_drop. lia. }
    split.
    + constructor; [|done]. rewrite length_take. lia.
    + rewrite IH2. apply take_drop.
Qed.

(** X7.  The minibatches of one epoch: [floor (rollout_length * num_envs /
    minibatch_size)] of them, each of [minibatch_size] entries, together the
    first entries of the shuffled batch; the remainder is dropped. *)
Lemma shuffled_minibatch_truncates (config : gmap string Z) perm_key
    (x : list A) num_envs rollout_length minibatch_size :
  config !! "num_envs" = Some num_envs →
  config !! "rollout_length" = Some rollout_length →
  config !! "minibatch_size" = Some minibatch_size →
  Z.of_nat (length x) = rollout_length * num_envs →
  length (random_permutation perm_key x) = length x →
  0 < minibatch_size ≤ rollout_length * num_envs →
  let n := rollout_length * num_envs / minibatch_size in
  ∃ batches,
    _get_shuffled_minibatch random_permutation config perm_key x = Ok batches
    ∧ Z.of_nat (length batches) = n
    ∧ Forall (λ b, Z.of_nat (length b) = minibatch_size) batches
    ∧ concat batches
      = take (Z.to_nat (n * minibatch_size)) (random_permutation perm_key x).
Proof.
  intros Hn Hr Hm Hx Hp [Hpos Hle] n.
  unfold _get_shuffled_minibatch, num_minibatches.
  rewrite (getattr_lookup _ _ _ Hn), (getattr_lookup _ _ _ Hr),
    (getattr_lookup _ _ _ Hm). cbn [bind].
  unfold Py.floordiv. rewrite decide_False by lia. cbn [bind]. fold n.
  assert (0 < n) as Hn0 by (apply Z.div_str_pos; lia).
  assert (n * minibatch_size ≤ rollout_length * num_envs) as Hnm.
  { subst n. rewrite Z.mul_comm. apply Z.mul_div_le. lia. }
  unfold Py.slice_to. rewrite decide_False by lia.
  set (sliced := take _ _).
  assert (Z.of_nat (length sliced) = n * minibatch_size) as Hs.
  { subst sliced. rewrite length_take, Hp. lia. }
  unfold reshape_rows. rewrite decide_False by lia. rewrite Hs.
  rewrite (Z.mul_comm n minibatch_size).
  rewrite decide_False by (rewrite Z_mod_mult; lia).
  rewrite Z.div_mul by lia.
  eexists. split; [reflexivity|].
  destruct (chunks_exact (Z.to_nat minibatch_size) (Z.to_nat n) sliced)
    as [Hall Hcat]; [nia|].
  split; [rewrite chunks_length; lia|]. split; [|done].
  eapply Forall_impl; [exact Hall|]. simpl. intros b Hb. lia.
Qed.

End Minibatch.
End PPOFacts.

Module PBTFacts.
Import PBT.

(** *** [argsort] sorts the indices *)

Section Argsort.
Variable v : nat → Q.

Abbreviation le_at := (PBT.le_at v).

Lemma insert_index_perm i l : insert_index v i l ≡ₚ i :: l.
Proof.
  induction l as [|j l IH]; simpl; [done|].
  destruct (Qle_bool (v j) (v i)); [|done].
  rewrite IH. apply Permutation_swap.
Qed.

Lemma insert_index_sorted i l :
  StronglySorted le_at l → StronglySorted le_at (insert_index v i l).
Proof.
  induction 1 as [|j l Hs IH Hall]; simpl.
  - repeat constructor.
  - destruct (Qle_bool (v j) (v i)) eqn:E.
    + constructor; [done|].
      rewrite insert_index_perm. constructor; [|done].
      by apply Qle_bool_iff.
    + assert (v i <= v j)%Q as Hij.
      { apply Qlt_le_weak, Qnot_le_lt. intros H%Qle_bool_iff. congruence. }
      constructor; [by constructor|].
      constructor; [done|].
      eapply Forall_impl; [exact Hall|]. intros k Hk. unfold le_at in *.
      by eapply Qle_trans.
Qed.

Lemma foldl_insert_perm l acc :
  foldl (λ acc i, insert_index v i acc) acc l ≡ₚ l ++ acc.
Proof.
  revert acc. induction l as [|i l IH]; intros acc; simpl; [done|].
  rewrite IH, insert_index_perm. by rewrite Permutation_middle.
Qed.

Lemma foldl_insert_sorted l acc :
  StronglySorted le_at acc →
  StronglySorted le_at (foldl (λ acc i, insert_index v i acc) acc l).
Proof.
  revert acc. induction l as [|i l IH]; intros acc H; simpl; [done|].
  by apply IH, insert_index_sorted.
Qed.

End Argsort.

Lemma argsort_perm (a : list Q) : argsort a ≡ₚ seq 0 (length a).
Proof. unfold argsort. by rewrite foldl_insert_perm, app_nil_r. Qed.

Lemma argsort_sorted (a : list Q) :
  StronglySorted (le_at (fitness a)) (argsort a).
Proof. unfold argsort. apply foldl_insert_sorted. constructor. Qed.

Lemma argsort_length (a : list Q) : length (argsort a) = length a.
Proof. by rewrite argsort_perm, length_seq. Qed.

Lemma argsort_NoDup (a : list Q) : NoDup (argsort a).
Proof. rewrite argsort_perm. apply NoDup_seq. Qed.

Lemma argsort_lt (a : list Q) i : i ∈ argsort a → (i < length a)%nat.
Proof. rewrite argsort_perm, elem_of_seq. lia. Qed.

(** *** Slices, gathers and scatters *)

Lemma slice_to_sublist {A : Type} (l : list A) n : Py.slice_to l n `sublist_of` l.
Proof. unfold Py.slice_to. case_decide; apply sublist_take. Qed.

Lemma slice_from_sublist {A : Type} (l : list A) n :
  Py.slice_from l n `sublist_of` l.
Proof. unfold Py.slice_from. case_decide; apply sublist_drop. Qed.

Lemma slice_to_nonneg {A : Type} (l : list A) n :
  0 ≤ n → Py.slice_to l n = take (Z.to_nat n) l.
Proof. intros H. unfold Py.slice_to. by rewrite decide_False by lia. Qed.

Lemma slice_from_neg {A : Type} (l : list A) n :
  0 < n → Py.slice_from l (- n) = drop (length l - Z.to_nat n) l.
Proof.
  intros H. unfold Py.slice_from. rewrite decide_True by lia.
  f_equal. lia.
Qed.

(** The slip in [indices[-tops_num:]]: for [tops_num = 0] the slice starts
    at [-0 = 0] and is the whole list. *)
Lemma slice_from_zero {A : Type} (l : list A) : Py.slice_from l (- 0) = l.
Proof. done. Qed.

Lemma slice_from_nonempty {A : Type} (l : list A) n :
  l ≠ [] → 0 ≤ n → Py.slice_from l (- n) ≠ [].
Proof.
  intros Hl Hn Hnil. apply (f_equal length) in Hnil.
  assert (0 < length l)%nat by (destruct l; simpl; [done | lia]).
  unfold Py.slice_from in Hnil. case_decide; rewrite length_drop in Hnil;
    simpl in Hnil; lia.
Qed.

Lemma read_ok {A : Type} (indices : list nat) (pop : list A) :
  Forall (λ i, i < length pop)%nat indices →
  ∃ xs, _read indices pop = Ok xs
        ∧ Forall2 (λ i x, pop !! i = Some x) indices xs.
Proof.
  induction 1 as [|i indices Hi _ (xs & Hxs & Hall)]; simpl.
  - exists []. by split.
  - rewrite Nat.min_l by lia.
    destruct (lookup_lt_is_Some_2 pop i Hi) as [x Hx]. rewrite Hx, Hxs.
    exists (x :: xs). split; [done|]. by constructor.
Qed.

Lemma write_length {A : Type} (indices : list nat) (pop new : list A) :
  length (_write indices pop new) = length pop.
Proof.
  revert pop new. induction indices as [|i indices IH]; intros pop [|y new];
    simpl; try done.
  by rewrite IH, length_insert.
Qed.

Lemma write_lookup_notin {A : Type} (indices : list nat) (pop new : list A) i :
  i ∉ indices → _write indices pop new !! i = pop !! i.
Proof.
  revert pop new. induction indices as [|j indices IH]; intros pop [|y new] Hi;
    simpl; try done.
  apply not_elem_of_cons in Hi as [Hij Hi].
  rewrite IH by done. by apply list_lookup_insert_ne.
Qed.

Lemma write_lookup_in {A : Type} (indices : list nat) (pop new : list A) j i y :
  NoDup indices → indices !! j = Some i → new !! j = Some y →
  (i < length pop)%nat →
  _write indices pop new !! i = Some y.
Proof.
  revert pop new j. induction indices as [|i0 indices IH];
    intros pop [|y0 new] [|j] Hnd Hi Hy Hlt; simpl in *; try done.
  - injection Hi as ->. injection Hy as ->.
    apply NoDup_cons in Hnd as [Hnotin _].
    rewrite write_lookup_notin by done. by apply list_lookup_insert_eq.
  - apply NoDup_cons in Hnd as [_ Hnd].
    eapply IH; eauto. by rewrite length_insert.
Qed.

Lemma vmap3_ok {A B C D : Type} (f : A → B → C → result D) ks xs ys :
  length ks = length xs → length ys = length xs →
  (∀ j k x y, ks !! j = Some k → xs !! j = Some x → ys !! j = Some y →
     is_ok (f k x y) = true) →
  ∃ ds, vmap3 f ks xs ys = Ok ds ∧ length ds = length xs
        ∧ ∀ j k x y, ks !! j = Some k → xs !! j = Some x → ys !! j = Some y →
            ∃ d, ds !! j = Some d ∧ f k x y = Ok d.
Proof.
  revert xs ys. induction ks as [|k ks IH]; intros [|x xs] [|y ys] Hk Hy Hf;
    simpl in *; try discriminate.
  - exists []. split; [done|]. split; [done|]. intros j ? ? ? Hj. done.
  - destruct (f k x y) as [d|e] eqn:E.
    2: { specialize (Hf 0%nat k x y eq_refl eq_refl eq_refl).
         rewrite E in Hf. done. }
    destruct (IH xs ys) as (ds & -> & Hlen & Hds); [lia | lia | |].
    { intros j. apply (Hf (S j)). }
    exists (d :: ds). simpl. split; [done|]. split; [by rewrite Hlen|].
    intros [|j] k' x' y' Hk' Hx' Hy'; simpl in *.
    + injection Hk' as <-. injection Hx' as <-. injection Hy' as <-. eauto.
    + eauto.
Qed.

(** *** The operator on a well-formed population *)

Section Operator.
Context {F Key Metrics AgentState EnvState HypStates InnerState Other : Type}.
Variable one : F.
Variables add mul : F → F → F.
Variable random_split : Key → nat → list Key.
Variable random_uniform : Key → Q → Q → F.
Variable random_randint : Key → nat → nat → list nat.

Abbreviation WState :=
  (@Workflow.State Key Metrics AgentState EnvState
     (@OptState F HypStates InnerState Other)).
Abbreviation random_choice := (PBT.random_choice random_randint).
Abbreviation perturb := (PBT.perturb one add mul random_uniform).
Abbreviation _exploit_and_explore_fn :=
  (PBT._exploit_and_explore_fn (F:=F) (Key:=Key) (Metrics:=Metrics)
     (AgentState:=AgentState) (EnvState:=EnvState) (HypStates:=HypStates)
     (InnerState:=InnerState) (Other:=Other) one add mul random_uniform).
Abbreviation exploit_and_explore :=
  (PBT.exploit_and_explore (F:=F) (Key:=Key) (Metrics:=Metrics)
     (AgentState:=AgentState) (EnvState:=EnvState) (HypStates:=HypStates)
     (InnerState:=InnerState) (Other:=Other)
     one add mul random_split random_uniform random_randint).

(** The hyperparameters and the state a replaced member receives from a
    donor with hyperparameters [top], learning rate [lr], workflow state
    [st] and optimizer state [o], under the key [k]. *)
Abbreviation new_hyper config k top :=
  (map_imap (λ hp_name v, Some (perturb config k hp_name v)) top).
Abbreviation new_state config k lr st o :=
  (Workflow.replace_opt_state st
     (Inject (set_hyperparam o "learning_rate" (perturb config k "lr" lr)))).

Lemma random_choice_ok key a n :
  n = 0%nat ∨ a ≠ [] →
  length (random_randint key n (length a)) = n →
  ∃ ds, random_choice key a n = Ok ds ∧ length ds = n ∧ Forall (λ d, d ∈ a) ds.
Proof.
  intros Hna Hlen. unfold PBT.random_choice.
  destruct (decide (n = 0%nat)) as [->|Hn]; [by exists []|].
  destruct Hna as [?|Ha]; [done|]. rewrite decide_False by done.
  eexists. split; [reflexivity|]. split; [by rewrite length_fmap|].
  apply Forall_fmap, Forall_forall. intros i _. simpl.
  assert (0 < length a)%nat by (destruct a; simpl; [done | lia]).
  destruct (lookup_lt_is_Some_2 a (i `min` (length a - 1))) as [d Hd]; [lia|].
  rewrite Hd. simpl. by eapply list_elem_of_lookup_2.
Qed.

Lemma exploit_fn_ok config keys k top (st : WState) :
  hyper_ok config keys top = true → state_ok st = true →
  ∃ lr o, top !! "lr" = Some lr ∧ Workflow.opt_state st = Inject o
    ∧ _exploit_and_explore_fn config k top st
      = Ok (new_hyper config k top, new_state config k lr st o).
Proof.
  unfold hyper_ok, state_ok. intros Hh Hs.
  apply andb_prop in Hh as [Hh Hlr]. apply andb_prop in Hh as [Hdom Hsub].
  apply bool_decide_eq_true in Hdom, Hsub, Hlr. destruct Hlr as [lr Hlr].
  destruct (Workflow.opt_state st) as [o|] eqn:Ho; [|done].
  exists lr, o. split; [done|]. split; [done|].
  unfold PBT._exploit_and_explore_fn.
  rewrite decide_True by (by rewrite Hdom).
  unfold apply_hyperparams_to_workflow_state. rewrite Ho.
  rewrite map_lookup_imap, Hlr. simpl. done.
Qed.

Lemma population_ok_inv config returns pop (wfs : list WState) :
  population_ok config returns pop wfs = true →
  length pop = length returns ∧ length wfs = length returns
  ∧ Forall (λ h, hyper_ok config (default ∅ (dom <$> head pop)) h = true) pop
  ∧ Forall (λ s, state_ok s = true) wfs.
Proof.
  unfold population_ok. intros H.
  apply andb_prop in H as [H Hs]. apply andb_prop in H as [H Hh].
  apply andb_prop in H as [Hp Hw].
  apply bool_decide_eq_true in Hp, Hw.
  repeat split; [done | done | |].
  - apply Forall_forall. intros h Hin.
    apply list_elem_of_In in Hin.
    by apply (proj1 (forallb_forall _ _) Hh).
  - apply Forall_forall. intros h Hin.
    apply list_elem_of_In in Hin.
    by apply (proj1 (forallb_forall _ _) Hs).
Qed.

(** What [exploit_and_explore] returns on a well-formed population: the
    bottom slots are overwritten, slot by slot, with what
    [_exploit_and_explore_fn] makes of the donor drawn for the slot. *)
Lemma exploit_and_explore_spec config key returns pop (wfs : list WState)
    k' ek xk bottoms_num tops_num :
  population_ok config returns pop wfs = true →
  random_split key 3%nat = [k'; ek; xk] →
  Py.round_product (pop_size config) (bottom_ratio config) = Ok bottoms_num →
  Py.round_product (pop_size config) (top_ratio config) = Ok tops_num →
  let indices := argsort returns in
  let bottoms := Py.slice_to indices bottoms_num in
  let tops := Py.slice_from indices (- tops_num) in
  let keys := random_split xk (length bottoms) in
  bottoms = [] ∨ tops ≠ [] →
  length keys = length bottoms →
  length (random_randint ek (length bottoms) (length tops)) = length bottoms →
  ∃ donors news,
    exploit_and_explore config key returns pop wfs
    = Ok (_write bottoms pop (fst <$> news), _write bottoms wfs (snd <$> news))
    ∧ random_choice ek tops (length bottoms) = Ok donors
    ∧ length donors = length bottoms ∧ Forall (λ d, d ∈ tops) donors
    ∧ length news = length bottoms
    ∧ ∀ j d, donors !! j = Some d →
        ∃ k top st lr o,
          keys !! j = Some k ∧ pop !! d = Some top ∧ wfs !! d = Some st
          ∧ top !! "lr" = Some lr ∧ Workflow.opt_state st = Inject o
          ∧ news !! j
            = Some (new_hyper config k top, new_state config k lr st o).
Proof.
  intros Hok Hsplit Hbn Htn indices bottoms tops keys Hne Hlk Hlr.
  apply population_ok_inv in Hok as (Hlp & Hlw & Hhyp & Hst).
  unfold PBT.exploit_and_explore. rewrite Hbn, Htn. cbn [bind].
  rewrite Hsplit. fold indices. fold bottoms tops. fold keys.
  destruct (random_choice_ok ek tops (length bottoms))
    as (donors & Hc & Hdl & Hdin); [| done |].
  { destruct Hne as [->|?]; [by left | by right]. }
  rewrite Hc. cbn [bind].
  assert (Forall (λ d, d < length returns)%nat donors) as Hdlt.
  { eapply Forall_impl; [exact Hdin|]. intros d Hd. simpl in Hd.
    apply argsort_lt. eapply elem_of_sublist; [exact Hd|].
    apply slice_from_sublist. }
  destruct (read_ok donors pop) as (hs & Hrh & Hhs); [by rewrite Hlp|].
  destruct (read_ok donors wfs) as (ss & Hrs & Hss); [by rewrite Hlw|].
  rewrite Hrh, Hrs. cbn [bind].
  pose proof (Forall2_length _ _ _ Hhs) as Hlh.
  pose proof (Forall2_length _ _ _ Hss) as Hls.
  assert (∀ j k x y, keys !! j = Some k → hs !! j = Some x → ss !! j = Some y →
    ∃ d lr o, donors !! j = Some d ∧ pop !! d = Some x ∧ wfs !! d = Some y
      ∧ x !! "lr" = Some lr ∧ Workflow.opt_state y = Inject o
      ∧ _exploit_and_explore_fn config k x y
        = Ok (new_hyper config k x, new_state config k lr y o)) as Hfn.
  { intros j k x y Hk Hx Hy.
    destruct (Forall2_lookup_r _ _ _ _ _ Hhs Hx) as (d & Hd & Hpd).
    destruct (Forall2_lookup_r _ _ _ _ _ Hss Hy) as (d' & Hd' & Hwd).
    rewrite Hd in Hd'. injection Hd' as <-.
    destruct (exploit_fn_ok config (default ∅ (dom <$> head pop)) k x y)
      as (lr & o & Hlr' & Ho & Hrun).
    - exact (proj1 (Forall_lookup _ _) Hhyp d x Hpd).
    - exact (proj1 (Forall_lookup _ _) Hst d y Hwd).
    - exists d, lr, o. eauto 10. }
  destruct (vmap3_ok (_exploit_and_explore_fn config) keys hs ss)
    as (news & Hv & Hln & Hnews); [lia | lia | |].
  { intros j k x y Hk Hx Hy.
    destruct (Hfn j k x y Hk Hx Hy) as (? & ? & ? & _ & _ & _ & _ & _ & ->).
    done. }
  rewrite Hv. cbn [bind].
  exists donors, news. split; [done|]. split; [done|]. split; [done|].
  split; [done|]. split; [lia|].
  intros j d Hd.
  destruct (lookup_lt_is_Some_2 keys j) as [k Hk].
  { apply lookup_lt_Some in Hd. lia. }
  destruct (Forall2_lookup_l _ _ _ _ _ Hhs Hd) as (top & Htop & Hpd).
  destruct (Forall2_lookup_l _ _ _ _ _ Hss Hd) as (st & Hstj & Hwd).
  destruct (Hfn j k top st Hk Htop Hstj)
    as (d' & lr & o & Hd' & _ & _ & Hlr' & Ho & Hrun).
  destruct (Hnews j k top st Hk Htop Hstj) as (dd & Hdd & Hrun').
  rewrite Hrun in Hrun'. injection Hrun' as <-.
  exists k, top, st, lr, o. eauto 10.
Qed.

Lemma exploit_and_explore_slots config key returns pop (wfs : list WState)
    k' ek xk bottoms_num tops_num :
  population_ok config returns pop wfs = true →
  random_split key 3%nat = [k'; ek; xk] →
  Py.round_product (pop_size config) (bottom_ratio config) = Ok bottoms_num →
  Py.round_product (pop_size config) (top_ratio config) = Ok tops_num →
  let indices := argsort returns in
  let bottoms := Py.slice_to indices bottoms_num in
  let tops := Py.slice_from indices (- tops_num) in
  let keys := random_split xk (length bottoms) in
  bottoms = [] ∨ tops ≠ [] →
  length keys = length bottoms →
  length (random_randint ek (length bottoms) (length tops)) = length bottoms →
  ∃ donors pop' wfs',
    exploit_and_explore config key returns pop wfs = Ok (pop', wfs')
    ∧ length pop' = length pop ∧ length wfs' = length wfs
    ∧ length donors = length bottoms ∧ Forall (λ d, d ∈ tops) donors
    ∧ (∀ i, i ∉ bottoms → pop' !! i = pop !! i ∧ wfs' !! i = wfs !! i)
    ∧ ∀ j b, bottoms !! j = Some b →
        ∃ d k top st lr o,
          donors !! j = Some d ∧ keys !! j = Some k
          ∧ pop !! d = Some top ∧ wfs !! d = Some st
          ∧ top !! "lr" = Some lr ∧ Workflow.opt_state st = Inject o
          ∧ pop' !! b = Some (new_hyper config k top)
          ∧ wfs' !! b = Some (new_state config k lr st o).
Proof.
  intros Hok Hsplit Hbn Htn indices bottoms tops keys Hne Hlk Hlr.
  destruct (exploit_and_explore_spec config key returns pop wfs k' ek xk
              bottoms_num tops_num Hok Hsplit Hbn Htn Hne Hlk Hlr)
    as (donors & news & Hrun & _ & Hdl & Hdin & Hln & Hnews).
  change (length donors = length bottoms) in Hdl.
  change (length news = length bottoms) in Hln.
  change (Forall (λ d, d ∈ tops) donors) in Hdin.
  change (exploit_and_explore config key returns pop wfs
          = Ok (_write bottoms pop (fst <$> news),
                _write bottoms wfs (snd <$> news))) in Hrun.
  apply population_ok_inv in Hok as (Hlp & Hlw & _ & _).
  assert (NoDup bottoms) as Hnd.
  { apply (sublist_NoDup bottoms indices);
      [apply argsort_NoDup | apply slice_to_sublist]. }
  exists donors, (_write bottoms pop (fst <$> news)),
    (_write bottoms wfs (snd <$> news)).
  split; [done|]. rewrite !write_length.
  split; [done|]. split; [done|]. split; [done|]. split; [done|].
  split.
  { intros i Hi. by rewrite !write_lookup_notin. }
  intros j b Hb.
  destruct (lookup_lt_is_Some_2 donors j) as [d Hd].
  { apply lookup_lt_Some in Hb. lia. }
  destruct (Hnews j d Hd) as (k & top & st & lr & o & Hk & Hp & Hw & Hl & Ho & Hn).
  exists d, k, top, st, lr, o.
  assert (b < length returns)%nat as Hblt.
  { apply argsort_lt. eapply elem_of_sublist; [|apply slice_to_sublist].
    by eapply list_elem_of_lookup_2. }
  repeat (split; [done|]). split.
  - eapply write_lookup_in; [done | done | | lia].
    by rewrite list_lookup_fmap, Hn.
  - eapply write_lookup_in; [done | done | | lia].
    by rewrite list_lookup_fmap, Hn.
Qed.

(** *** The operator keeps the structure of the population *)

Lemma dom_new_hyper config k (top : gmap string F) :
  dom (new_hyper config k top) = dom top.
Proof.
  apply set_eq. intros name. rewrite !elem_of_dom, map_lookup_imap.
  destruct (top !! name); simpl; split; intros [? ?]; eauto; discriminate.
Qed.

Lemma write_fmap_const {A B : Type} (f : A → B) (c : B) indices (pop new : list A) :
  Forall (λ x, f x = c) pop → Forall (λ y, f y = c) new →
  f <$> _write indices pop new = f <$> pop.
Proof.
  revert pop new. induction indices as [|i indices IH];
    intros pop [|y new] Hp Hn; simpl; try done.
  apply Forall_cons in Hn as [Hy Hn].
  rewrite IH; [| |done].
  - rewrite list_fmap_insert. apply list_eq. intros j.
    destruct (decide (i = j)) as [<-|Hij];
      [|by rewrite list_lookup_insert_ne].
    destruct (decide (i < length (f <$> pop))%nat) as [Hlt|Hge].
    + rewrite list_lookup_insert_eq by done.
      destruct (lookup_lt_is_Some_2 _ _ Hlt) as [z Hz]. rewrite Hz.
      apply list_lookup_fmap_Some in Hz as (x & -> & Hx).
      f_equal. rewrite Hy. symmetry.
      exact (proj1 (Forall_lookup _ _) Hp i x Hx).
    + by rewrite list_insert_ge by lia.
  - apply Forall_insert; done.
Qed.

Lemma slices_usable (returns : list Q) bottoms_num tops_num :
  0 ≤ tops_num →
  Py.slice_to (argsort returns) bottoms_num = []
  ∨ Py.slice_from (argsort returns) (- tops_num) ≠ [].
Proof.
  intros Ht. destruct (argsort returns) as [|i l] eqn:E.
  - left. unfold Py.slice_to. case_decide; apply take_nil.
  - right. by apply slice_from_nonempty.
Qed.

Lemma exploit_keeps_structure config key returns pop (wfs : list WState)
    k' ek xk bottoms_num tops_num :
  population_ok config returns pop wfs = true →
  random_split key 3%nat = [k'; ek; xk] →
  Py.round_product (pop_size config) (bottom_ratio config) = Ok bottoms_num →
  Py.round_product (pop_size config) (top_ratio config) = Ok tops_num →
  let indices := argsort returns in
  let bottoms := Py.slice_to indices bottoms_num in
  let tops := Py.slice_from indices (- tops_num) in
  0 ≤ tops_num →
  length (random_split xk (length bottoms)) = length bottoms →
  length (random_randint ek (length bottoms) (length tops)) = length bottoms →
  ∃ pop' wfs',
    exploit_and_explore config key returns pop wfs = Ok (pop', wfs')
    ∧ length pop' = length pop ∧ length wfs' = length wfs
    ∧ dom <$> pop' = dom <$> pop.
Proof.
  intros Hok Hsplit Hbn Htn indices bottoms tops Ht Hlk Hlr.
  destruct (exploit_and_explore_spec config key returns pop wfs k' ek xk
              bottoms_num tops_num Hok Hsplit Hbn Htn
              (slices_usable returns bottoms_num tops_num Ht) Hlk Hlr)
    as (donors & news & Hrun & _ & Hdl & _ & Hln & Hnews).
  eexists _, _. split; [exact Hrun|].
  apply population_ok_inv in Hok as (_ & _ & Hhyp & _).
  rewrite !write_length. split; [done|]. split; [done|].
  apply (write_fmap_const dom (default ∅ (dom <$> head pop))).
  - eapply Forall_impl; [exact Hhyp|]. intros h Hh. simpl in Hh.
    unfold hyper_ok in Hh. apply andb_prop in Hh as [Hh _].
    apply andb_prop in Hh as [Hh _]. by apply bool_decide_eq_true in Hh.
  - apply Forall_fmap, Forall_lookup. intros j [h st'] Hj. simpl.
    destruct (lookup_lt_is_Some_2 donors j) as [d Hd].
    { apply lookup_lt_Some in Hj. lia. }
    destruct (Hnews j d Hd) as (k & top & st & lr & o & _ & Hp & _ & _ & _ & Hn).
    rewrite Hn in Hj. injection Hj as <- _.
    rewrite dom_new_hyper.
    pose proof (proj1 (Forall_lookup _ _) Hhyp d top Hp) as Hh. simpl in Hh.
    unfold hyper_ok in Hh. apply andb_prop in Hh as [Hh _].
    apply andb_prop in Hh as [Hh _]. by apply bool_decide_eq_true in Hh.
Qed.

(** X19.  Without a bottom slot the operator changes nothing: when
    [round (pop_size * bottom_ratio)] is 0, and [round (pop_size *
    top_ratio)] is any integer, the population and the member states are
    returned as they were given. *)
Lemma exploit_no_bottoms config key returns pop (wfs : list WState) k' ek xk
    tops_num :
  population_ok config returns pop wfs = true →
  random_split key 3%nat = [k'; ek; xk] →
  Py.round_product (pop_size config) (bottom_ratio config) = Ok 0 →
  Py.round_product (pop_size config) (top_ratio config) = Ok tops_num →
  random_split xk 0%nat = [] →
  exploit_and_explore config key returns pop wfs = Ok (pop, wfs).
Proof.
  intros _ Hsplit Hb Ht Hk. unfold PBT.exploit_and_explore.
  rewrite Hb, Ht. cbn [bind]. rewrite Hsplit.
  assert (Py.slice_to (argsort returns) 0 = []) as -> by done.
  cbn [length].
  unfold PBT.random_choice. rewrite decide_True by done.
  cbn [bind _read]. rewrite Hk. done.
Qed.

(** C5, as amended.  After [exploit_and_explore] on a well-formed
    population, every replaced member holds the optimizer state of its
    donor (the donor being a candidate, the state that of the input
    population) in everything but the injected learning rate: the count,
    the inner state, the schedule states and every other hyperparameter are
    the donor's.  The learning rate is the product the code computes: the
    donor's hyperparameter times the sum of one and [u], where [u] is the
    draw that [jax.random.uniform] makes under the key of the slot with
    [minval = - perturb_factor] and [maxval = perturb_factor]. *)
Theorem exploit_keeps_optimizer_state :
  ∀ config key returns pop (wfs : list WState) k' ek xk bottoms_num tops_num
    pf,
    population_ok config returns pop wfs = true →
    random_split key 3%nat = [k'; ek; xk] →
    Py.round_product (pop_size config) (bottom_ratio config) = Ok bottoms_num →
    Py.round_product (pop_size config) (top_ratio config) = Ok tops_num →
    let bottoms := Py.slice_to (argsort returns) bottoms_num in
    let tops := Py.slice_from (argsort returns) (- tops_num) in
    let keys := random_split xk (length bottoms) in
    0 ≤ tops_num →
    length keys = length bottoms →
    length (random_randint ek (length bottoms) (length tops)) = length bottoms →
    perturb_factor config !! "lr" = Some pf →
    ∃ donors pop' wfs',
      exploit_and_explore config key returns pop wfs = Ok (pop', wfs')
      ∧ length donors = length bottoms
      ∧ ∀ j b, bottoms !! j = Some b →
          ∃ d k top lr st o st' o' u,
            donors !! j = Some d ∧ d ∈ tops ∧ keys !! j = Some k
            ∧ pop !! d = Some top ∧ top !! "lr" = Some lr
            ∧ wfs !! d = Some st ∧ Workflow.opt_state st = Inject o
            ∧ wfs' !! b = Some st' ∧ Workflow.opt_state st' = Inject o'
            ∧ count o' = count o
            ∧ inner_state o' = inner_state o
            ∧ hyperparams_states o' = hyperparams_states o
            ∧ (∀ name, name ≠ "learning_rate" →
                 hyperparams o' !! name = hyperparams o !! name)
            ∧ u = random_uniform k (- pf)%Q pf
            ∧ hyperparams o' !! "learning_rate" = Some (mul lr (add one u)).
Proof.
  intros config key returns pop wfs k' ek xk bottoms_num tops_num pf
    Hok Hsplit Hbn Htn bottoms tops keys Ht Hlk Hlr Hpf.
  destruct (exploit_and_explore_slots config key returns pop wfs k' ek xk
              bottoms_num tops_num Hok Hsplit Hbn Htn
              (slices_usable returns bottoms_num tops_num Ht) Hlk Hlr)
    as (donors & pop' & wfs' & Hrun & _ & _ & Hdl & Hdin & _ & Hslots).
  exists donors, pop', wfs'. split; [done|]. split; [done|].
  intros j b Hb.
  destruct (Hslots j b Hb)
    as (d & k & top & st & lr & o & Hd & Hk & Hp & Hw & Hl & Ho & Hp' & Hw').
  assert (perturb config k "lr" lr
          = mul lr (add one (random_uniform k (- pf)%Q pf))) as Hper.
  { unfold PBT.perturb. by rewrite Hpf. }
  eexists d, k, top, lr, st, o, _, _, _.
  split; [done|]. split.
  { exact (proj1 (Forall_lookup _ _) Hdin j d Hd). }
  do 5 (split; [done|]). split; [exact Hw'|].
  cbn [Workflow.opt_state Workflow.replace_opt_state].
  split; [done|]. cbn [count inner_state hyperparams_states hyperparams set_hyperparam].
  do 3 (split; [done|]). split.
  { intros name Hname. by rewrite lookup_insert_ne. }
  split; [reflexivity|].
  by rewrite lookup_insert_eq, Hper.
Qed.

(** X18.  The rank partition when there is a donor to draw.
    [exploit_and_explore] orders the indices by ascending fitness; its
    replacement targets are the first [round (P * bottom_ratio)] of them
    and, for [round (P * top_ratio)] at least one, its donor candidates the
    last [round (P * top_ratio)]; every target slot receives the
    hyperparameters and the workflow state of a candidate drawn for it,
    perturbed and re-injected by [_exploit_and_explore_fn], and no other
    slot changes. For the fitness [5, 1, 9, 3, 7] and both ratios one fifth,
    the only target is member 1 (fitness 1), the only candidate member 2
    (fitness 9), and slot 1 receives member 2's hyperparameters and state. *)
Theorem exploit_rank_partition :
  (∀ config key returns pop (wfs : list WState) k' ek xk
      bottoms_num tops_num,
     population_ok config returns pop wfs = true →
     random_split key 3%nat = [k'; ek; xk] →
     Py.round_product (pop_size config) (bottom_ratio config)
     = Ok bottoms_num →
     Py.round_product (pop_size config) (top_ratio config) = Ok tops_num →
     let indices := argsort returns in
     let bottoms := Py.slice_to indices bottoms_num in
     let tops := Py.slice_from indices (- tops_num) in
     let keys := random_split xk (length bottoms) in
     0 ≤ bottoms_num → 0 < tops_num →
     length keys = length bottoms →
     length (random_randint ek (length bottoms) (length tops)) = length bottoms →
     indices ≡ₚ seq 0 (length returns)
     ∧ StronglySorted (le_at (fitness returns)) indices
     ∧ bottoms = take (Z.to_nat bottoms_num) indices
     ∧ tops = drop (length indices - Z.to_nat tops_num) indices
     ∧ ∃ donors pop' wfs',
         exploit_and_explore config key returns pop wfs = Ok (pop', wfs')
         ∧ length donors = length bottoms ∧ Forall (λ d, d ∈ tops) donors
         ∧ (∀ i, i ∉ bottoms → pop' !! i = pop !! i ∧ wfs' !! i = wfs !! i)
         ∧ ∀ j b, bottoms !! j = Some b →
             ∃ d k top st lr o,
               donors !! j = Some d ∧ keys !! j = Some k
               ∧ pop !! d = Some top ∧ wfs !! d = Some st
               ∧ top !! "lr" = Some lr ∧ Workflow.opt_state st = Inject o
               ∧ pop' !! b = Some (new_hyper config k top)
               ∧ wfs' !! b = Some (new_state config k lr st o))
  ∧ (∀ config key pop (wfs : list WState) k' ek xk,
       pop_size config = 5 →
       bottom_ratio config = (1 # 5)%Q → top_ratio config = (1 # 5)%Q →
       population_ok config [5; 1; 9; 3; 7]%Q pop wfs = true →
       random_split key 3%nat = [k'; ek; xk] →
       length (random_split xk 1%nat) = 1%nat →
       length (random_randint ek 1%nat 1%nat) = 1%nat →
       ∃ k top st lr o,
         random_split xk 1%nat = [k]
         ∧ pop !! 2%nat = Some top ∧ wfs !! 2%nat = Some st
         ∧ top !! "lr" = Some lr ∧ Workflow.opt_state st = Inject o
         ∧ exploit_and_explore config key [5; 1; 9; 3; 7]%Q pop wfs
           = Ok (<[1%nat := new_hyper config k top]> pop,
                 <[1%nat := new_state config k lr st o]> wfs)).
Proof.
  split.
  - intros config key returns pop wfs k' ek xk bottoms_num tops_num
      Hok Hsplit Hbn Htn indices bottoms tops keys Hb Ht Hlk Hlr.
    split; [apply argsort_perm|]. split; [apply argsort_sorted|].
    split; [by apply slice_to_nonneg|]. split; [by apply slice_from_neg|].
    destruct (exploit_and_explore_slots config key returns pop wfs k' ek xk
                bottoms_num tops_num Hok Hsplit Hbn Htn)
      as (donors & pop' & wfs' & Hrun & _ & _ & Hrest);
      [apply slices_usable; lia | done | done |].
    exists donors, pop', wfs'. by split.
  - intros config key pop wfs k' ek xk Hps Hbr Htr Hok Hsplit Hlk Hlr.
    assert (Py.round_product (pop_size config) (bottom_ratio config) = Ok 1)
      as Hbn by (rewrite Hps, Hbr; vm_compute; reflexivity).
    assert (Py.round_product (pop_size config) (top_ratio config) = Ok 1)
      as Htn by (rewrite Hps, Htr; vm_compute; reflexivity).
    assert (Py.slice_to (argsort [5; 1; 9; 3; 7]%Q) 1 = [1%nat])
      as Hbot by reflexivity.
    assert (Py.slice_from (argsort [5; 1; 9; 3; 7]%Q) (Z.opp 1) = [2%nat])
      as Htop by reflexivity.
    destruct (exploit_and_explore_spec config key [5; 1; 9; 3; 7]%Q pop wfs
                k' ek xk 1 1 Hok Hsplit Hbn Htn)
      as (donors & news & Hrun & _ & Hdl & Hdin & Hln & Hnews).
    { right. by rewrite Htop. }
    { by rewrite Hbot. }
    { by rewrite Hbot, Htop. }
    rewrite Hbot in Hrun, Hdl, Hln, Hnews. rewrite Htop in Hdin.
    destruct donors as [|d [|? ?]]; try discriminate Hdl.
    apply Forall_cons in Hdin as [Hd _].
    apply list_elem_of_singleton in Hd as ->.
    destruct (Hnews 0%nat 2%nat eq_refl)
      as (k & top & st & lr & o & Hk & Hp & Hw & Hl & Ho & Hn).
    destruct news as [|n [|? ?]]; try discriminate Hln.
    cbn in Hn. injection Hn as ->.
    cbn [length] in Hk.
    destruct (random_split xk 1%nat) as [|k0 [|? ?]] eqn:Ek;
      try discriminate Hlk.
    cbn in Hk. injection Hk as ->.
    exists k, top, st, lr, o. repeat (split; [done|]).
    rewrite Hrun. done.
Qed.

End Operator.

(** *** The operator on the demonstration population *)

Lemma exploit_keeps_optimizer_state_witness :
  ∃ pop' wfs',
    Demo.exploit_and_explore (Demo.config (1 # 5) (1 # 5)) 7%nat Demo.fitness
      (Demo.pop Demo.lrs) (Demo.states Demo.lrs)
    = Ok (pop', wfs').
Proof.
  destruct (exploit_keeps_optimizer_state 1%Q Qplus Qmult
              Demo.split Demo.uniform Demo.randint
              (Demo.config (1 # 5) (1 # 5)) 7%nat Demo.fitness
              (Demo.pop Demo.lrs) (Demo.states Demo.lrs)
              71%nat 72%nat 73%nat 1 1 (1 # 2)%Q)
    as (donors & pop' & wfs' & Hrun & _).
  - vm_compute; reflexivity.
  - reflexivity.
  - vm_compute; reflexivity.
  - vm_compute; reflexivity.
  - vm_compute; discriminate.
  - reflexivity.
  - reflexivity.
  - reflexivity.
  - exists pop', wfs'. exact Hrun.
Defined.

Lemma exploit_rank_partition_witness :
  ∃ pop' wfs',
    Demo.exploit_and_explore (Demo.config (1 # 5) (1 # 5)) 7%nat Demo.fitness
      (Demo.pop Demo.lrs) (Demo.states Demo.lrs)
    = Ok (pop', wfs')
    ∧ pop' !! 1%nat
      = Some (map_imap
                (λ hp_name v,
                   Some (PBT.perturb 1%Q Qplus Qmult Demo.uniform
                           (Demo.config (1 # 5) (1 # 5)) 731%nat hp_name v))
                (Demo.member 12)).
Proof.
  destruct (proj1 (@exploit_rank_partition Q nat unit Z unit unit Z unit
                     1%Q Qplus Qmult Demo.split Demo.uniform Demo.randint)
              (Demo.config (1 # 5) (1 # 5)) 7%nat Demo.fitness
              (Demo.pop Demo.lrs) (Demo.states Demo.lrs)
              71%nat 72%nat 73%nat 1 1)
    as (_ & _ & _ & _ & donors & pop' & wfs' & Hrun & _).
  - vm_compute; reflexivity.
  - reflexivity.
  - vm_compute; reflexivity.
  - vm_compute; reflexivity.
  - vm_compute; discriminate.
  - vm_compute; reflexivity.
  - reflexivity.
  - reflexivity.
  - exists pop', wfs'. split; [exact Hrun|].
    vm_compute in Hrun. injection Hrun as <- _. vm_compute. reflexivity.
Defined.

(** C3 (the code departs from it).  One bottom slot and
    [tops_num = round (5 * 0) = 0]: the donor candidates
    [indices[-0:]] are the whole population, and the slot of member 1 is
    overwritten with a perturbed copy of member 0, a member that is not
    among the best. *)
Theorem exploit_without_tops_replaces :
  let config := Demo.config (1 # 5) 0 in
  Py.round_product (pop_size config) (bottom_ratio config) = Ok 1
  ∧ Py.round_product (pop_size config) (top_ratio config) = Ok 0
  ∧ Py.slice_from (argsort Demo.fitness) (- 0) = [1; 3; 0; 4; 2]%nat
  ∧ ∃ pop' wfs' lr',
      Demo.exploit_and_explore config 7%nat Demo.fitness
        (Demo.pop Demo.lrs) (Demo.states Demo.lrs)
      = Ok (pop', wfs')
      ∧ Demo.pop Demo.lrs !! 1%nat = Some (Demo.member 11)
      ∧ pop' !! 1%nat = Some (Demo.member lr') ∧ (lr' == 15 # 2)%Q
      ∧ Workflow.agent_state <$> Demo.states Demo.lrs !! 1%nat = Some 1
      ∧ Workflow.agent_state <$> wfs' !! 1%nat = Some 0.
Proof.
  cbv zeta. split; [vm_compute; reflexivity|].
  split; [vm_compute; reflexivity|]. split; [reflexivity|].
  eexists _, _, (240 # 32)%Q.
  split; [vm_compute; reflexivity|].
  repeat split; vm_compute; reflexivity.
Qed.

(** C6 (the code departs from it).  With [round (5 * 0) = 0] for the top
    ratio, the zero highest-fitness indices are no index at all, but the
    donor candidates the code takes, [indices[-0:]], are all five; the
    donor drawn for the slot of member 1 is member 0, whose fitness 5 is
    the median, and its state is what the slot receives. *)
Theorem donor_candidates_without_tops :
  let config := Demo.config (1 # 5) 0 in
  let indices := argsort Demo.fitness in
  ∃ tops_num,
  Py.round_product (pop_size config) (top_ratio config) = Ok tops_num
  ∧ indices = [1; 3; 0; 4; 2]%nat
  ∧ tops_num = 0
  ∧ drop (length indices - Z.to_nat tops_num) indices = []
  ∧ Py.slice_from indices (- tops_num) = indices
  ∧ PBT.random_choice Demo.randint 72%nat
      (Py.slice_from indices (- tops_num)) 1%nat = Ok [0%nat]
  ∧ ∃ pop' wfs' st',
      Demo.exploit_and_explore config 7%nat Demo.fitness
        (Demo.pop Demo.lrs) (Demo.states Demo.lrs)
      = Ok (pop', wfs')
      ∧ wfs' !! 1%nat = Some st'
      ∧ Workflow.agent_state st' = 0
      ∧ Workflow.agent_state (Demo.state 0 10) = 0.
Proof.
  cbv zeta. exists 0. split; [vm_compute; reflexivity|].
  repeat (split; [reflexivity|]).
  eexists _, _, _. split; [vm_compute; reflexivity|].
  split; [reflexivity|]. split; reflexivity.
Qed.

(** C5 as stated fails.  The perturbation factor is one half, not zero,
    and member 2, the donor, has the learning rate 0: the learning rate
    injected into the replaced member 1 is 0 as well. *)
Lemma perturbed_learning_rate_equals_donor :
  let config := Demo.config (1 # 5) (1 # 5) in
  let lrs := [10; 11; 0; 13; 14]%Q in
  ∃ pop' wfs' st' o' lr',
    Demo.exploit_and_explore config 7%nat Demo.fitness
      (Demo.pop lrs) (Demo.states lrs)
    = Ok (pop', wfs')
    ∧ perturb_factor config !! "lr" = Some (1 # 2)%Q ∧ ¬ (1 # 2 == 0)%Q
    ∧ Py.slice_to (argsort Demo.fitness) 1 = [1%nat]
    ∧ Py.slice_from (argsort Demo.fitness) (- 1) = [2%nat]
    ∧ Demo.pop lrs !! 2%nat = Some (Demo.member 0)
    ∧ wfs' !! 1%nat = Some st' ∧ Workflow.opt_state st' = Inject o'
    ∧ hyperparams o' !! "learning_rate" = Some lr'
    ∧ (lr' == 0)%Q.
Proof.
  cbv zeta. eexists _, _, _, _, _.
  split; [vm_compute; reflexivity|].
  split; [reflexivity|]. split; [discriminate|].
  split; [reflexivity|]. split; [reflexivity|]. split; [reflexivity|].
  split; [vm_compute; reflexivity|]. split; [reflexivity|].
  split; [vm_compute; reflexivity|]. reflexivity.
Qed.

End PBTFacts.

Module ToolkitsFacts.
Import Toolkits.

Section Shift.
Context {R : Type}.
Variable zero : R.

Lemma right_shift_shifted (arr : list R) (shift : Z) (pad_val : option R) :
  0 < shift ≤ Z.of_nat (length arr) →
  right_shift zero arr shift pad_val
  = Ok (replicate (Z.to_nat shift) (default zero pad_val)
        ++ take (length arr - Z.to_nat shift) arr).
Proof.
  intros [Hpos Hle]. unfold right_shift. rewrite decide_False by lia.
  unfold Py.slice_to. rewrite decide_True by lia.
  do 3 f_equal. lia.
Qed.

(** X1.  [right_shift] by [shift] between one and the length of the array
    keeps the length: the first [shift] entries are the pad value, entry [i]
    after them is entry [i - shift] of the input, and the last [shift]
    entries of the input are dropped. *)
Theorem right_shift_entries (arr : list R) (shift : Z) (pad_val : option R) :
  0 < shift ≤ Z.of_nat (length arr) →
  ∃ out, right_shift zero arr shift pad_val = Ok out
    ∧ length out = length arr
    ∧ ∀ i, (i < length arr)%nat →
        out !! i = if decide (Z.of_nat i < shift)
                   then Some (default zero pad_val)
                   else arr !! (i - Z.to_nat shift)%nat.
Proof.
  intros Hshift. rewrite right_shift_shifted by done.
  eexists. split; [reflexivity|]. split.
  - rewrite length_app, length_replicate, length_take. lia.
  - intros i Hi. case_decide as Hlt.
    + rewrite lookup_app_l by (rewrite length_replicate; lia).
      apply lookup_replicate_2. lia.
    + rewrite lookup_app_r by (rewrite length_replicate; lia).
      rewrite length_replicate. apply lookup_take_lt. lia.
Qed.

(** X2.  The length of what [right_shift] returns, for every non-negative
    [shift]: a shift by zero returns the empty array, whatever the input
    ([arr[:-0]] is empty), and a shift beyond the length of the input
    returns [shift] pad values. *)
Theorem right_shift_length (arr : list R) (shift : Z) (pad_val : option R) :
  0 ≤ shift →
  ∃ out, right_shift zero arr shift pad_val = Ok out
    ∧ Z.of_nat (length out)
      = (if decide (shift = 0) then 0 else Z.of_nat (length arr) `max` shift)
    ∧ (shift = 0 → out = [])
    ∧ (Z.of_nat (length arr) ≤ shift →
       out = replicate (Z.to_nat shift) (default zero pad_val)).
Proof.
  intros Hs. unfold right_shift. rewrite decide_False by lia.
  eexists. split; [reflexivity|]. unfold Py.slice_to.
  destruct (decide (shift = 0)) as [->|Hne].
  - split; [done|]. split; [done|]. intros Hle. simpl. by rewrite take_0.
  - rewrite decide_True by lia. split; [|split; [done|]].
    + rewrite length_app, length_replicate, length_take. lia.
    + intros Hle.
      replace (Z.to_nat (Z.of_nat (length arr) + - shift)) with 0%nat by lia.
      rewrite take_0. apply app_nil_r.
Qed.

End Shift.

Lemma right_shift_entries_witness :
  right_shift 0 [1; 2; 3; 4] 1 None = Ok [0; 1; 2; 3].
Proof.
  destruct (right_shift_entries 0 [1; 2; 3; 4] 1 None) as (out & Hrun & _);
    [simpl; lia|].
  rewrite Hrun. vm_compute in Hrun. by injection Hrun as <-.
Defined.

Lemma right_shift_length_witness :
  right_shift 0 [1; 2; 3; 4] 0 None = Ok []
  ∧ right_shift 0 [1; 2] 3 (Some 7) = Ok [7; 7; 7].
Proof.
  split.
  - destruct (right_shift_length 0 [1; 2; 3; 4] 0 None) as (out & Hrun & _);
      [lia|].
    rewrite Hrun. vm_compute in Hrun. by injection Hrun as <-.
  - destruct (right_shift_length 0 [1; 2] 3 (Some 7)) as (out & Hrun & _);
      [lia|].
    rewrite Hrun. vm_compute in Hrun. by injection Hrun as <-.
Defined.

(** X3.  [Episode.valid_mask] of a trajectory with at least one step: one
    entry per step, the first step always valid, every later step valid
    exactly when the step before it was not done. Of an empty trajectory the
    mask has one entry. *)
Theorem valid_mask_entries (done : list Q) :
  (done ≠ [] →
   ∃ mask, valid_mask done = Ok mask
     ∧ length mask = length done
     ∧ mask !! 0%nat = Some 1%Q
     ∧ ∀ t, (S t < length done)%nat →
         mask !! S t = (λ d, 1 - d)%Q <$> done !! t)
  ∧ valid_mask [] = Ok [1%Q].
Proof.
  split; [|reflexivity].
  intros Hne. unfold valid_mask.
  assert (0 < length done)%nat as Hpos by (destruct done; simpl; [done|lia]).
  rewrite right_shift_shifted by lia.
  cbn [bind]. eexists. split; [reflexivity|].
  change (Z.to_nat 1) with 1%nat. cbn [replicate app default].
  split; [rewrite length_fmap; cbn; rewrite length_take; lia|].
  split; [reflexivity|].
  intros t Ht. rewrite !list_lookup_fmap.
  assert (∀ (x : Q) l, (x :: l) !! S t = l !! t) as -> by done.
  by rewrite lookup_take_lt by lia.
Qed.

Lemma valid_mask_entries_witness :
  valid_mask [0; 1; 0]%Q = Ok [1; 1 - 0; 1 - 1]%Q.
Proof.
  destruct (proj1 (valid_mask_entries [0; 1; 0]%Q)) as (mask & Hrun & _);
    [done|].
  rewrite Hrun. vm_compute in Hrun. by injection Hrun as <-.
Defined.

End ToolkitsFacts.

Module PopulationFacts.
Import PBT Population PBTFacts.

(** *** [PBTWorkflow._rescale_config] *)

(** X16.  On a positive number of devices, [_rescale_config] sets [pop_size]
    to the largest multiple of that number not above it and leaves every
    other entry alone; a size that is a multiple already is kept and nothing
    is logged, any other size is logged once, with the size it becomes; a
    non-negative size below the number of devices becomes zero; a second
    rescaling changes nothing. Without devices it raises. *)
Theorem rescale_config_multiple (config : Config) (n : Z) (log : list string) :
  (0 < n →
   ∃ log' config',
     _rescale_config config n log = Ok (log', config')
     ∧ pop_size config' = n * (pop_size config / n)
     ∧ pop_size config' mod n = 0
     ∧ pop_size config - n < pop_size config' ≤ pop_size config
     ∧ (0 ≤ pop_size config < n → pop_size config' = 0)
     ∧ config' = set_pop_size config (pop_size config')
     ∧ (pop_size config mod n = 0 → config' = config ∧ log' = log)
     ∧ (pop_size config mod n ≠ 0 →
        log' = log ++ [rescale_warning (pop_size config) n
                         (pop_size config')])
     ∧ _rescale_config config' n log' = Ok (log', config'))
  ∧ _rescale_config config 0 log = Raise ZeroDivisionError.
Proof.
  split; [|reflexivity].
  intros Hn. unfold _rescale_config, Py.mod_, Py.floordiv.
  rewrite !decide_False by lia. cbn [bind].
  set (ps := pop_size config).
  pose proof (Z.mod_pos_bound ps n Hn) as Hmod.
  pose proof (Z.div_mod ps n ltac:(lia)) as Hdiv.
  exists (if decide (ps mod n ≠ 0)
          then log ++ [rescale_warning ps n (ps / n * n)] else log),
    (set_pop_size config (ps / n * n)). split.
  { destruct (decide (ps mod n ≠ 0)); reflexivity. }
  cbn [pop_size set_pop_size].
  split; [lia|]. split; [apply Z_mod_mult|]. split; [lia|].
  split; [intros ?; rewrite Z.div_small by lia; lia|].
  split; [done|]. split; [|split].
  - intros H0. rewrite decide_False by (intros H; by apply H).
    split; [|done]. destruct config. unfold set_pop_size. cbn in *.
    f_equal. subst ps. cbn in *. lia.
  - intros H0. by rewrite decide_True by done.
  - rewrite Z_mod_mult. rewrite !(decide_False (P:=n = 0)) by lia.
    cbn [bind]. rewrite (decide_False (P:=0 ≠ 0)) by (intros H; by apply H).
    cbn [bind]. by rewrite Z.div_mul by lia.
Qed.

Lemma rescale_config_multiple_witness :
  ∃ log' config',
    _rescale_config (Demo.config (1 # 5) (1 # 5)) 4 [] = Ok (log', config')
    ∧ pop_size config' = 4.
Proof.
  destruct (proj1 (rescale_config_multiple (Demo.config (1 # 5) (1 # 5)) 4 []))
    as (log' & config' & Hrun & Hps & _); [lia|].
  exists log', config'. split; [exact Hrun | exact Hps].
Defined.

Lemma hyper_ok_inv {F : Type} config keys (h : gmap string F) :
  hyper_ok config keys h = true ↔
  dom h = keys ∧ keys ⊆ dom (perturb_factor config) ∧ is_Some (h !! "lr").
Proof.
  unfold hyper_ok. rewrite !andb_true_iff, !bool_decide_eq_true. tauto.
Qed.

Lemma head_dom_fmap {F : Type} (l : list (gmap string F)) :
  default ∅ (dom <$> head l) = default ∅ (head (dom <$> l)).
Proof. by destruct l. Qed.

Section Operator.
Context {F Key Metrics AgentState EnvState HypStates InnerState Other : Type}.
Variable one : F.
Variables add mul : F → F → F.
Variable random_split : Key → nat → list Key.
Variable random_uniform : Key → Q → Q → F.
Variable random_randint : Key → nat → nat → list nat.

Abbreviation WState :=
  (@Workflow.State Key Metrics AgentState EnvState
     (@OptState F HypStates InnerState Other)).
Abbreviation perturb := (PBT.perturb one add mul random_uniform).
Abbreviation exploit_and_explore :=
  (PBT.exploit_and_explore (F:=F) (Key:=Key) (Metrics:=Metrics)
     (AgentState:=AgentState) (EnvState:=EnvState) (HypStates:=HypStates)
     (InnerState:=InnerState) (Other:=Other)
     one add mul random_split random_uniform random_randint).
Abbreviation new_hyper config k top :=
  (map_imap (λ hp_name v, Some (perturb config k hp_name v)) top).
Abbreviation new_state config k lr st o :=
  (Workflow.replace_opt_state st
     (Inject (set_hyperparam o "learning_rate" (perturb config k "lr" lr)))).

(** A member of the returned population is either a member of the input
    or what [_exploit_and_explore_fn] makes of one. *)
Lemma exploit_members config key returns pop (wfs : list WState) k' ek xk
    bottoms_num tops_num :
  population_ok config returns pop wfs = true →
  random_split key 3%nat = [k'; ek; xk] →
  Py.round_product (pop_size config) (bottom_ratio config) = Ok bottoms_num →
  Py.round_product (pop_size config) (top_ratio config) = Ok tops_num →
  let bottoms := Py.slice_to (argsort returns) bottoms_num in
  let tops := Py.slice_from (argsort returns) (- tops_num) in
  0 ≤ tops_num →
  length (random_split xk (length bottoms)) = length bottoms →
  length (random_randint ek (length bottoms) (length tops)) = length bottoms →
  ∃ pop' wfs',
    exploit_and_explore config key returns pop wfs = Ok (pop', wfs')
    ∧ length pop' = length pop ∧ length wfs' = length wfs
    ∧ dom <$> pop' = dom <$> pop
    ∧ ∀ i h' s', pop' !! i = Some h' → wfs' !! i = Some s' →
        (pop !! i = Some h' ∧ wfs !! i = Some s')
        ∨ ∃ d k top st lr o,
            pop !! d = Some top ∧ wfs !! d = Some st
            ∧ top !! "lr" = Some lr ∧ Workflow.opt_state st = Inject o
            ∧ h' = new_hyper config k top
            ∧ s' = new_state config k lr st o.
Proof.
  intros Hok Hsplit Hbn Htn bottoms tops Ht Hlk Hlr.
  destruct (exploit_and_explore_slots one add mul random_split random_uniform
              random_randint config key returns pop wfs k' ek xk
              bottoms_num tops_num Hok Hsplit Hbn Htn
              (slices_usable returns bottoms_num tops_num Ht) Hlk Hlr)
    as (donors & pop' & wfs' & Hrun & Hlp & Hlw & _ & _ & Hout & Hin).
  destruct (exploit_keeps_structure one add mul random_split random_uniform
              random_randint config key returns pop wfs k' ek xk
              bottoms_num tops_num Hok Hsplit Hbn Htn Ht Hlk Hlr)
    as (pop'' & wfs'' & Hrun' & _ & _ & Hdom).
  rewrite Hrun in Hrun'. injection Hrun' as <- <-.
  exists pop', wfs'. split; [done|]. split; [done|]. split; [done|].
  split; [done|].
  intros i h' s' Hh Hs.
  destruct (decide (i ∈ bottoms)) as [Hi|Hi].
  - right. apply list_elem_of_lookup_1 in Hi as [j Hj].
    destruct (Hin j i Hj)
      as (d & k & top & st & lr & o & _ & _ & Hp & Hw & Hl & Ho & Hp' & Hw').
    rewrite Hh in Hp'. rewrite Hs in Hw'.
    injection Hp' as ->. injection Hw' as ->.
    exists d, k, top, st, lr, o. done.
  - left. destruct (Hout i Hi) as [<- <-]. done.
Qed.

(** X20.  [exploit_and_explore] returns a population it can be applied to
    again: of the size of the input, every member with the hyperparameter
    names of the input, among them [lr], and with an optimizer state of the
    injected class. *)
Theorem exploit_keeps_population_ok :
  ∀ config key returns pop (wfs : list WState) k' ek xk bottoms_num tops_num,
    population_ok config returns pop wfs = true →
    random_split key 3%nat = [k'; ek; xk] →
    Py.round_product (pop_size config) (bottom_ratio config) = Ok bottoms_num →
    Py.round_product (pop_size config) (top_ratio config) = Ok tops_num →
    let bottoms := Py.slice_to (argsort returns) bottoms_num in
    let tops := Py.slice_from (argsort returns) (- tops_num) in
    0 ≤ tops_num →
    length (random_split xk (length bottoms)) = length bottoms →
    length (random_randint ek (length bottoms) (length tops)) = length bottoms →
    ∃ pop' wfs',
      exploit_and_explore config key returns pop wfs = Ok (pop', wfs')
      ∧ length pop' = length pop ∧ length wfs' = length wfs
      ∧ dom <$> pop' = dom <$> pop
      ∧ population_ok config returns pop' wfs' = true.
Proof.
  intros config key returns pop wfs k' ek xk bottoms_num tops_num
    Hok Hsplit Hbn Htn bottoms tops Ht Hlk Hlr.
  destruct (exploit_members config key returns pop wfs k' ek xk
              bottoms_num tops_num Hok Hsplit Hbn Htn Ht Hlk Hlr)
    as (pop' & wfs' & Hrun & Hlp & Hlw & Hdom & Hmem).
  exists pop', wfs'. repeat (split; [done|]).
  pose proof Hok as (Hp & Hw & Hhyp & Hst)%population_ok_inv.
  unfold population_ok. rewrite !andb_true_iff, !bool_decide_eq_true.
  rewrite head_dom_fmap, Hdom, <- head_dom_fmap.
  split; [split; [split; [lia | lia] |] |].
  - apply forallb_forall. intros h' Hin%list_elem_of_In.
    apply list_elem_of_lookup_1 in Hin as [i Hi].
    destruct (lookup_lt_is_Some_2 wfs' i) as [s' Hs'].
    { apply lookup_lt_Some in Hi. lia. }
    destruct (Hmem i h' s' Hi Hs')
      as [[Hold _] | (d & k & top & st & lr & o & Hpd & _ & Hl & _ & -> & _)].
    + exact (proj1 (Forall_lookup _ _) Hhyp i h' Hold).
    + pose proof (proj1 (Forall_lookup _ _) Hhyp d top Hpd) as Htop.
      simpl in Htop. apply hyper_ok_inv in Htop as (Hd & Hsub & _).
      apply hyper_ok_inv. rewrite dom_new_hyper. split; [done|].
      split; [done|]. rewrite map_lookup_imap, Hl. simpl. eauto.
  - apply forallb_forall. intros s' Hin%list_elem_of_In.
    apply list_elem_of_lookup_1 in Hin as [i Hi].
    destruct (lookup_lt_is_Some_2 pop' i) as [h' Hh'].
    { apply lookup_lt_Some in Hi. lia. }
    destruct (Hmem i h' s' Hh' Hi)
      as [[_ Hold] | (d & k & top & st & lr & o & _ & _ & _ & _ & _ & ->)].
    + exact (proj1 (Forall_lookup _ _) Hst i s' Hold).
    + done.
Qed.

(** X21.  If every member's optimizer runs at the learning rate the
    population records for it, the same holds after [exploit_and_explore]: a
    replaced member gets one perturbed value, both recorded and injected. *)
Theorem exploit_keeps_synced :
  ∀ config key returns pop (wfs : list WState) k' ek xk bottoms_num tops_num,
    population_ok config returns pop wfs = true →
    synced pop wfs →
    random_split key 3%nat = [k'; ek; xk] →
    Py.round_product (pop_size config) (bottom_ratio config) = Ok bottoms_num →
    Py.round_product (pop_size config) (top_ratio config) = Ok tops_num →
    let bottoms := Py.slice_to (argsort returns) bottoms_num in
    let tops := Py.slice_from (argsort returns) (- tops_num) in
    0 ≤ tops_num →
    length (random_split xk (length bottoms)) = length bottoms →
    length (random_randint ek (length bottoms) (length tops)) = length bottoms →
    ∃ pop' wfs',
      exploit_and_explore config key returns pop wfs = Ok (pop', wfs')
      ∧ synced pop' wfs'.
Proof.
  intros config key returns pop wfs k' ek xk bottoms_num tops_num
    Hok Hsync Hsplit Hbn Htn bottoms tops Ht Hlk Hlr.
  destruct (exploit_members config key returns pop wfs k' ek xk
              bottoms_num tops_num Hok Hsplit Hbn Htn Ht Hlk Hlr)
    as (pop' & wfs' & Hrun & Hlp & Hlw & _ & Hmem).
  exists pop', wfs'. split; [done|].
  pose proof (Forall2_length _ _ _ Hsync) as Hlen.
  apply Forall2_same_length_lookup_2; [lia|].
  intros i h' s' Hh Hs.
  destruct (Hmem i h' s' Hh Hs)
    as [[Hp Hw] | (d & k & top & st & lr & o & _ & _ & Hl & _ & -> & ->)].
  - exact (Forall2_lookup_lr _ _ _ _ _ _ Hsync Hp Hw).
  - unfold injected_lr.
    cbn [Workflow.opt_state Workflow.replace_opt_state hyperparams
         set_hyperparam].
    rewrite lookup_insert_eq, map_lookup_imap, Hl. simpl. eauto.
Qed.

(** X22.  The hyperparameters a replaced member receives: it has the
    hyperparameter names of its donor, and each value is the product the
    code computes, the donor's value times the sum of one and the draw that
    [jax.random.uniform] makes under the key of the slot with
    [minval = - f] and [maxval = f] for the perturbation factor [f] of the
    hyperparameter. The draw depends on the key and the factor only:
    two hyperparameters of one member with equal factors are scaled by the
    same draw. *)
Theorem exploit_perturbation_draw :
  ∀ config key returns pop (wfs : list WState) k' ek xk bottoms_num tops_num,
    population_ok config returns pop wfs = true →
    random_split key 3%nat = [k'; ek; xk] →
    Py.round_product (pop_size config) (bottom_ratio config) = Ok bottoms_num →
    Py.round_product (pop_size config) (top_ratio config) = Ok tops_num →
    let bottoms := Py.slice_to (argsort returns) bottoms_num in
    let tops := Py.slice_from (argsort returns) (- tops_num) in
    0 ≤ tops_num →
    length (random_split xk (length bottoms)) = length bottoms →
    length (random_randint ek (length bottoms) (length tops)) = length bottoms →
    ∃ donors pop' wfs',
      exploit_and_explore config key returns pop wfs = Ok (pop', wfs')
      ∧ length donors = length bottoms
      ∧ ∀ j b, bottoms !! j = Some b →
          ∃ d k top h',
            donors !! j = Some d ∧ d ∈ tops
            ∧ random_split xk (length bottoms) !! j = Some k
            ∧ pop !! d = Some top ∧ pop' !! b = Some h'
            ∧ dom h' = dom top
            ∧ (∀ name v f,
                 top !! name = Some v →
                 perturb_factor config !! name = Some f →
                 h' !! name
                 = Some (mul v (add one (random_uniform k (- f)%Q f))))
            ∧ ∀ name1 name2 v1 v2 f,
                top !! name1 = Some v1 → top !! name2 = Some v2 →
                perturb_factor config !! name1 = Some f →
                perturb_factor config !! name2 = Some f →
                ∃ u, h' !! name1 = Some (mul v1 (add one u))
                     ∧ h' !! name2 = Some (mul v2 (add one u)).
Proof.
  intros config key returns pop wfs k' ek xk bottoms_num tops_num
    Hok Hsplit Hbn Htn bottoms tops Ht Hlk Hlr.
  destruct (exploit_and_explore_slots one add mul random_split random_uniform
              random_randint config key returns pop wfs k' ek xk
              bottoms_num tops_num Hok Hsplit Hbn Htn
              (slices_usable returns bottoms_num tops_num Ht) Hlk Hlr)
    as (donors & pop' & wfs' & Hrun & _ & _ & Hdl & Hdin & _ & Hslots).
  exists donors, pop', wfs'. split; [done|]. split; [done|].
  intros j b Hb.
  destruct (Hslots j b Hb)
    as (d & k & top & st & lr & o & Hd & Hk & Hp & _ & _ & _ & Hp' & _).
  exists d, k, top, (new_hyper config k top).
  split; [done|]. split.
  { exact (proj1 (Forall_lookup _ _) Hdin j d Hd). }
  split; [done|]. split; [done|]. split; [done|].
  split; [apply dom_new_hyper|].
  assert (∀ name v f,
            top !! name = Some v → perturb_factor config !! name = Some f →
            new_hyper config k top !! name
            = Some (mul v (add one (random_uniform k (- f)%Q f)))) as Hval.
  { intros name v f Hv Hf.
    rewrite map_lookup_imap, Hv. simpl. unfold PBT.perturb. by rewrite Hf. }
  split; [exact Hval|].
  intros name1 name2 v1 v2 f Hv1 Hv2 Hf1 Hf2.
  exists (random_uniform k (- f)%Q f). split; by apply Hval.
Qed.

End Operator.

(** *** [PBTWorkflow.setup] *)

Section SetupFacts.
Context {F Key Metrics AgentState EnvState HypStates InnerState Other : Type}.
Context {PopMetrics : Type}.
Variable random_split : Key → nat → list Key.
Variable random_uniform_array : Key → nat → Q → Q → list F.
Variable workflow_setup :
  Key → @Workflow.State Key Metrics AgentState EnvState
          (@OptState F HypStates InnerState Other).
Variable _setup_workflow_metrics : PopMetrics.

Abbreviation SState :=
  (@Workflow.State Key Metrics AgentState EnvState
     (@OptState F HypStates InnerState Other)).
Abbreviation member :=
  (λ lr : F, @singletonM string F (gmap string F) _ "lr" lr).

Lemma vmap2_inject (lrs : list F) (sts : list SState) :
  length lrs = length sts →
  Forall (λ s, state_ok s = true) sts →
  vmap2 apply_hyperparams_to_workflow_state (member <$> lrs) sts
  = Ok (zip_with inject_lr lrs sts).
Proof.
  revert sts. induction lrs as [|lr lrs IH]; intros [|s sts] Hlen Hok;
    simpl in *; try discriminate; [done|].
  apply Forall_cons in Hok as [Hs Hok].
  unfold apply_hyperparams_to_workflow_state at 1, inject_lr at 1.
  unfold state_ok in Hs. destruct (Workflow.opt_state s) as [o|]; [|done].
  rewrite lookup_singleton_eq. cbn [bind].
  rewrite IH by (done || lia). done.
Qed.

Lemma synced_inject (lrs : list F) (sts : list SState) :
  length lrs = length sts →
  Forall (λ s, state_ok s = true) sts →
  synced (member <$> lrs) (zip_with inject_lr lrs sts).
Proof.
  revert sts. induction lrs as [|lr lrs IH]; intros [|s sts] Hlen Hok;
    simpl in *; try discriminate; [constructor|].
  apply Forall_cons in Hok as [Hs Hok].
  constructor; [|apply IH; [lia | done]].
  unfold inject_lr, injected_lr, state_ok in *.
  destruct (Workflow.opt_state s) as [o|] eqn:Ho; [|done].
  cbn [Workflow.opt_state Workflow.replace_opt_state hyperparams
       set_hyperparam].
  rewrite lookup_insert_eq, lookup_singleton_eq. eauto.
Qed.

(** X17.  [setup] returns a population of [pop_size] members: the learning
    rates are the uniform draws, member [i] is the workflow state set up
    with the [i]-th key of the split, changed in the injected learning rate
    only, and every member's optimizer runs at the learning rate the
    population records for it. The population is one [exploit_and_explore]
    accepts as soon as [lr] has a perturbation factor. *)
Theorem setup_synced :
  ∀ (config : Config) (lr_low lr_high : Q) (key k' wk pk : Key),
    0 ≤ pop_size config →
    random_split key 3%nat = [k'; wk; pk] →
    let P := Z.to_nat (pop_size config) in
    let lrs := random_uniform_array pk P lr_low lr_high in
    let keys := random_split wk P in
    length lrs = P → length keys = P →
    Forall (λ k, state_ok (workflow_setup k) = true) keys →
    ∃ st,
      setup random_split random_uniform_array workflow_setup
        _setup_workflow_metrics config lr_low lr_high key = Ok st
      ∧ Population.key st = k'
      ∧ Population.pop st = member <$> lrs
      ∧ Population.pop_workflow_state st
        = zip_with inject_lr lrs (workflow_setup <$> keys)
      ∧ length (Population.pop st) = P
      ∧ length (Population.pop_workflow_state st) = P
      ∧ synced (Population.pop st) (Population.pop_workflow_state st)
      ∧ (∀ i k lr, keys !! i = Some k → lrs !! i = Some lr →
           ∃ s o,
             Population.pop_workflow_state st !! i = Some s
             ∧ Workflow.opt_state (workflow_setup k) = Inject o
             ∧ s = Workflow.replace_opt_state (workflow_setup k)
                     (Inject (set_hyperparam o "learning_rate" lr)))
      ∧ (∀ returns : list Q,
           length returns = P →
           "lr" ∈ dom (perturb_factor config) →
           population_ok config returns (Population.pop st)
             (Population.pop_workflow_state st) = true).
Proof.
  intros config lr_low lr_high key k' wk pk Hps Hsplit P lrs keys Hll Hlk Hok.
  unfold setup. rewrite Hsplit. rewrite decide_False by lia.
  fold P. fold lrs. fold keys.
  assert (Forall (λ s, state_ok s = true) (workflow_setup <$> keys)) as Hok'.
  { by apply Forall_fmap. }
  rewrite vmap2_inject by (rewrite ?length_fmap; done || lia).
  cbn [bind]. eexists. split; [reflexivity|].
  cbn [Population.key Population.pop Population.pop_workflow_state].
  split; [done|]. split; [done|]. split; [done|].
  split; [by rewrite length_fmap|].
  split; [rewrite length_zip_with, length_fmap; lia|].
  split; [apply synced_inject; [rewrite length_fmap; lia | done]|].
  split.
  - intros i k lr Hk Hlr.
    pose proof (proj1 (Forall_lookup _ _) Hok i k Hk) as Hs. simpl in Hs.
    unfold state_ok in Hs.
    destruct (Workflow.opt_state (workflow_setup k)) as [o|] eqn:Ho; [|done].
    exists (inject_lr lr (workflow_setup k)), o.
    split; [|split; [done|]].
    + by rewrite lookup_zip_with, Hlr, list_lookup_fmap, Hk.
    + unfold inject_lr. by rewrite Ho.
  - intros returns Hr Hpf.
    unfold population_ok. rewrite !andb_true_iff, !bool_decide_eq_true.
    split; [split; [split|]|].
    + rewrite length_fmap. lia.
    + rewrite length_zip_with, length_fmap. lia.
    + apply forallb_forall. intros h Hin%list_elem_of_In.
      apply list_elem_of_fmap in Hin as (lr & -> & Hin).
      apply hyper_ok_inv.
      assert (default ∅ (dom <$> head (member <$> lrs)) = {[ "lr" ]})
        as ->.
      { destruct lrs; [by apply elem_of_nil in Hin|]. simpl.
        apply dom_singleton_L. }
      split; [apply dom_singleton_L|]. split.
      * by apply singleton_subseteq_l.
      * rewrite lookup_singleton_eq. eauto.
    + apply forallb_forall. intros s Hin%list_elem_of_In.
      apply list_elem_of_lookup_1 in Hin as [i Hi].
      apply lookup_zip_with_Some in Hi as (lr & s0 & -> & _ & Hs0).
      pose proof (proj1 (Forall_lookup _ _) Hok' i s0 Hs0) as Hs. simpl in Hs.
      unfold inject_lr, state_ok in *.
      by destruct (Workflow.opt_state s0).
Qed.

End SetupFacts.

(** *** The training phase of [PBTWorkflow.step] *)

Section StepFacts.
Context {F Key Metrics AgentState EnvState HypStates InnerState Other : Type}.
Context {PopMetrics R : Type}.

Abbreviation TState :=
  (@Workflow.State Key Metrics AgentState EnvState
     (@OptState F HypStates InnerState Other)).

Abbreviation Mapped :=
  (list (@argument F Key Metrics AgentState EnvState HypStates InnerState
           Other)
   → result (list Metrics * list TState)).

Variable workflow_step : TState → result (Metrics * TState).
Variable per_device : Mapped → Mapped.

(** With the population as its only argument, the mapped function runs
    [_train_steps] on every member, whichever way it maps. *)
Lemma train_population_members config parallel_train (states : list TState) :
  train_population workflow_step config parallel_train states
  = over_members (_train_steps workflow_step config) states.
Proof. by destruct parallel_train. Qed.

Lemma over_members_ok (f : TState → result (Metrics * TState)) states :
  Forall (λ s, is_ok (f s) = true) states →
  ∃ ms ss, over_members f states = Ok (ms, ss)
           ∧ length ms = length states ∧ length ss = length states.
Proof.
  induction 1 as [|s states Hs _ (ms & ss & Hrun & Hm & Hl)]; simpl.
  - by exists [], [].
  - destruct (f s) as [[m s']|]; [|done]. cbn [bind]. rewrite Hrun.
    exists (m :: ms), (s' :: ss). simpl. by rewrite Hm, Hl.
Qed.

(** C7 (the code departs from it).  [PBTWorkflow.step] never reaches its
    warmup conditional: the call of line 217 passes [_train_steps] before
    the population, so whether the members are trained in parallel or in
    turn, on one device or on several, and whatever the population, the
    configuration and the statements after the call, [step] raises.  The
    same mapped function applied to the population alone trains every
    member. *)
Theorem step_raises_before_gate :
  ∀ (config : Config) (parallel_train enable_multi_devices : bool)
    (state : PBTState (PopMetrics:=PopMetrics))
    (rest : list Metrics → list TState → result R),
    is_ok (step workflow_step per_device config parallel_train
             enable_multi_devices state rest) = false
    ∧ train_population workflow_step config parallel_train
        (Population.pop_workflow_state state)
      = over_members (_train_steps workflow_step config)
          (Population.pop_workflow_state state).
Proof.
  intros config parallel_train enable_multi_devices state rest. split.
  - unfold step. by destruct parallel_train, enable_multi_devices.
  - by destruct parallel_train.
Qed.

End StepFacts.

Lemma setup_synced_witness :
  ∃ st,
    setup Demo.split (λ (k n : nat) (lo hi : Q), replicate n lo)
      (λ k : nat, Demo.state (Z.of_nat k) 0) tt
      (Demo.config (1 # 5) (1 # 5)) (1 # 1000) (1 # 100) 7%nat = Ok st
    ∧ synced (Population.pop st) (Population.pop_workflow_state st).
Proof.
  destruct (setup_synced Demo.split
              (λ (k n : nat) (lo hi : Q), replicate n lo)
              (λ k : nat, Demo.state (Z.of_nat k) 0) tt
              (Demo.config (1 # 5) (1 # 5)) (1 # 1000)%Q (1 # 100)%Q
              7%nat 71%nat 72%nat 73%nat)
    as (st & Hrun & _ & _ & _ & _ & _ & Hsync & _).
  - vm_compute; discriminate.
  - reflexivity.
  - reflexivity.
  - reflexivity.
  - repeat constructor.
  - exists st. split; [exact Hrun | exact Hsync].
Defined.

Lemma exploit_perturbation_draw_witness :
  ∃ pop' wfs',
    Demo.exploit_and_explore (Demo.config (1 # 5) (1 # 5)) 7%nat Demo.fitness
      (Demo.pop Demo.lrs) (Demo.states Demo.lrs)
    = Ok (pop', wfs').
Proof.
  destruct (exploit_perturbation_draw 1%Q Qplus Qmult
              Demo.split Demo.uniform Demo.randint
              (Demo.config (1 # 5) (1 # 5)) 7%nat Demo.fitness
              (Demo.pop Demo.lrs) (Demo.states Demo.lrs)
              71%nat 72%nat 73%nat 1 1)
    as (donors & pop' & wfs' & Hrun & _).
  - vm_compute; reflexivity.
  - reflexivity.
  - vm_compute; reflexivity.
  - vm_compute; reflexivity.
  - vm_compute; discriminate.
  - reflexivity.
  - reflexivity.
  - exists pop', wfs'. exact Hrun.
Defined.

Lemma exploit_keeps_population_ok_witness :
  ∃ pop' wfs',
    Demo.exploit_and_explore (Demo.config (1 # 5) (1 # 5)) 7%nat Demo.fitness
      (Demo.pop Demo.lrs) (Demo.states Demo.lrs)
    = Ok (pop', wfs')
    ∧ population_ok (Demo.config (1 # 5) (1 # 5)) Demo.fitness pop' wfs' = true.
Proof.
  destruct (exploit_keeps_population_ok 1%Q Qplus Qmult
              Demo.split Demo.uniform Demo.randint
              (Demo.config (1 # 5) (1 # 5)) 7%nat Demo.fitness
              (Demo.pop Demo.lrs) (Demo.states Demo.lrs)
              71%nat 72%nat 73%nat 1 1)
    as (pop' & wfs' & Hrun & _ & _ & _ & Hok).
  - vm_compute; reflexivity.
  - reflexivity.
  - vm_compute; reflexivity.
  - vm_compute; reflexivity.
  - vm_compute; discriminate.
  - reflexivity.
  - reflexivity.
  - exists pop', wfs'. split; [exact Hrun | exact Hok].
Defined.

Lemma exploit_keeps_synced_witness :
  ∃ pop' wfs',
    Demo.exploit_and_explore (Demo.config (1 # 5) (1 # 5)) 7%nat Demo.fitness
      (Demo.pop Demo.lrs) (Demo.states Demo.lrs)
    = Ok (pop', wfs')
    ∧ synced pop' wfs'.
Proof.
  destruct (exploit_keeps_synced 1%Q Qplus Qmult
              Demo.split Demo.uniform Demo.randint
              (Demo.config (1 # 5) (1 # 5)) 7%nat Demo.fitness
              (Demo.pop Demo.lrs) (Demo.states Demo.lrs)
              71%nat 72%nat 73%nat 1 1)
    as (pop' & wfs' & Hrun & Hsync).
  - vm_compute; reflexivity.
  - repeat constructor; vm_compute; eauto.
  - reflexivity.
  - vm_compute; reflexivity.
  - vm_compute; reflexivity.
  - vm_compute; discriminate.
  - reflexivity.
  - reflexivity.
  - exists pop', wfs'. split; [exact Hrun | exact Hsync].
Defined.

End PopulationFacts.

Module PPOBuildFacts.
Import PPO PPOBuild PPOFacts.

Lemma shuffled_minibatch_truncates_witness :
  _get_shuffled_minibatch (λ (k : nat) (x : list Z), reverse x)
    (<["num_envs" := 1]> (<["rollout_length" := 5]>
      (<["minibatch_size" := 2]> ∅))) 0%nat [10; 11; 12; 13; 14]
  = Ok [[14; 13]; [12; 11]].
Proof.
  destruct (shuffled_minibatch_truncates (λ (k : nat) (x : list Z), reverse x)
              (<["num_envs" := 1]> (<["rollout_length" := 5]>
                (<["minibatch_size" := 2]> ∅))) 0%nat [10; 11; 12; 13; 14]
              1 5 2) as (batches & Hrun & _);
    [reflexivity | reflexivity | reflexivity | reflexivity | reflexivity
    | lia |].
  rewrite Hrun. vm_compute in Hrun. by injection Hrun as <-.
Defined.

Lemma build_divisible_witness :
  _build_from_config
    (<["num_envs" := 2]> (<["rollout_length" := 3]>
      (<["minibatch_size" := 3]> ∅))) []
  = Ok ([], {| config := <["num_envs" := 2]> (<["rollout_length" := 3]>
                           (<["minibatch_size" := 3]> ∅)) |}).
Proof.
  apply (build_divisible _ _ 2 3 3); [reflexivity | reflexivity | reflexivity
    | lia | reflexivity].
Defined.

Section Minibatch.
Context {Key A : Type}.
Variable random_permutation : Key → list A → list A.

(** X8.  A minibatch size above the size of the batch leaves no minibatch,
    and the reshape to zero rows then fails: the step raises instead of
    running an epoch on nothing. A minibatch size of zero raises in the
    division before. *)
Theorem shuffled_minibatch_too_large (config : gmap string Z) perm_key
    (x : list A) num_envs rollout_length minibatch_size :
  config !! "num_envs" = Some num_envs →
  config !! "rollout_length" = Some rollout_length →
  config !! "minibatch_size" = Some minibatch_size →
  0 ≤ rollout_length * num_envs →
  minibatch_size = 0 ∨ rollout_length * num_envs < minibatch_size →
  num_minibatches config
  = (if decide (minibatch_size = 0) then Raise ZeroDivisionError else Ok 0)
  ∧ is_ok (_get_shuffled_minibatch random_permutation config perm_key x)
    = false.
Proof.
  intros Hn Hr Hm Hpos Hbig.
  unfold _get_shuffled_minibatch, num_minibatches.
  rewrite (getattr_lookup _ _ _ Hn), (getattr_lookup _ _ _ Hr),
    (getattr_lookup _ _ _ Hm). cbn [bind]. unfold Py.floordiv.
  destruct (decide (minibatch_size = 0)) as [->|Hne]; [done|].
  destruct Hbig as [?|Hlt]; [done|].
  rewrite Z.div_small by lia. split; [done|]. cbn [bind].
  unfold reshape_rows. by rewrite decide_True by lia.
Qed.

End Minibatch.

Lemma shuffled_minibatch_too_large_witness :
  is_ok (_get_shuffled_minibatch (λ (k : nat) (x : list Z), reverse x)
           (<["num_envs" := 1]> (<["rollout_length" := 2]>
             (<["minibatch_size" := 3]> ∅))) 0%nat [10; 11])
  = false.
Proof.
  apply (shuffled_minibatch_too_large (λ (k : nat) (x : list Z), reverse x)
           _ 0%nat [10; 11] 1 2 3);
    [reflexivity | reflexivity | reflexivity | lia | right; lia].
Defined.

Lemma warn_indivisible_eq (config : gmap string Z) n name log v :
  0 < n → config !! name = Some v →
  warn_indivisible config n name log
  = Ok (log ++ if decide (v mod n ≠ 0)
               then [indivisible_text name v n] else []).
Proof.
  intros Hn Hv. unfold warn_indivisible.
  rewrite (getattr_lookup _ _ _ Hv). cbn [bind]. unfold Py.mod_.
  rewrite decide_False by lia. cbn [bind].
  destruct (decide (v mod n ≠ 0)); [done | by rewrite app_nil_r].
Qed.

Lemma divide_entry_eq (config : gmap string Z) n name v :
  0 < n → config !! name = Some v →
  divide_entry config n name = Ok (<[name := v / n]> config).
Proof.
  intros Hn Hv. unfold divide_entry.
  rewrite (getattr_lookup _ _ _ Hv). cbn [bind]. unfold Py.floordiv.
  by rewrite decide_False by lia.
Qed.

Lemma rescale_config_entries (config : gmap string Z) (n : Z)
    (log : list string) num_envs num_eval_envs minibatch_size :
  0 < n →
  config !! "num_envs" = Some num_envs →
  config !! "num_eval_envs" = Some num_eval_envs →
  config !! "minibatch_size" = Some minibatch_size →
  _rescale_config config n log
  = Ok (log
        ++ (if decide (num_envs mod n ≠ 0)
            then [indivisible_text "num_envs" num_envs n] else [])
        ++ (if decide (num_eval_envs mod n ≠ 0)
            then [indivisible_text "num_eval_envs" num_eval_envs n] else [])
        ++ (if decide (minibatch_size mod n ≠ 0)
            then [indivisible_text "minibatch_size" minibatch_size n]
            else []),
        <["minibatch_size" := minibatch_size / n]>
          (<["num_eval_envs" := num_eval_envs / n]>
            (<["num_envs" := num_envs / n]> config))).
Proof.
  intros Hn He Hv Hm. unfold _rescale_config.
  rewrite (warn_indivisible_eq _ _ _ _ _ Hn He). cbn [bind].
  rewrite (warn_indivisible_eq _ _ _ _ _ Hn Hv). cbn [bind].
  rewrite (warn_indivisible_eq _ _ _ _ _ Hn Hm). cbn [bind].
  rewrite (divide_entry_eq _ _ _ _ Hn He). cbn [bind].
  rewrite (divide_entry_eq _ n "num_eval_envs" num_eval_envs Hn)
    by (by rewrite lookup_insert_ne by done).
  cbn [bind].
  rewrite (divide_entry_eq _ n "minibatch_size" minibatch_size Hn)
    by (by rewrite !lookup_insert_ne by done).
  cbn [bind]. by rewrite <- !app_assoc.
Qed.

(** X9.  [PPOWorkflow._rescale_config] on a positive number of devices: the
    three entries become their floored quotients by that number, so that the
    devices together never hold more than was configured, and no other entry
    changes; one warning is logged, in this order, for each of [num_envs],
    [num_eval_envs] and [minibatch_size] that the number does not divide. *)
Theorem ppo_rescale_config (config : gmap string Z) (n : Z)
    (log : list string) num_envs num_eval_envs minibatch_size :
  0 < n →
  config !! "num_envs" = Some num_envs →
  config !! "num_eval_envs" = Some num_eval_envs →
  config !! "minibatch_size" = Some minibatch_size →
  ∃ log' config',
    _rescale_config config n log = Ok (log', config')
    ∧ config' !! "num_envs" = Some (num_envs / n)
    ∧ config' !! "num_eval_envs" = Some (num_eval_envs / n)
    ∧ config' !! "minibatch_size" = Some (minibatch_size / n)
    ∧ n * (num_envs / n) ≤ num_envs
    ∧ n * (num_eval_envs / n) ≤ num_eval_envs
    ∧ n * (minibatch_size / n) ≤ minibatch_size
    ∧ (∀ name, name ≠ "num_envs" → name ≠ "num_eval_envs" →
         name ≠ "minibatch_size" → config' !! name = config !! name)
    ∧ log'
      = log
        ++ (if decide (num_envs mod n ≠ 0)
            then [indivisible_text "num_envs" num_envs n] else [])
        ++ (if decide (num_eval_envs mod n ≠ 0)
            then [indivisible_text "num_eval_envs" num_eval_envs n] else [])
        ++ (if decide (minibatch_size mod n ≠ 0)
            then [indivisible_text "minibatch_size" minibatch_size n]
            else []).
Proof.
  intros Hn He Hv Hm.
  rewrite (rescale_config_entries config n log num_envs num_eval_envs
             minibatch_size Hn He Hv Hm).
  eexists _, _. split; [reflexivity|].
  split; [by rewrite !lookup_insert_ne by done; rewrite lookup_insert_eq|].
  split; [by rewrite lookup_insert_ne by done; rewrite lookup_insert_eq|].
  split; [by rewrite lookup_insert_eq|].
  split; [apply Z.mul_div_le; lia|]. split; [apply Z.mul_div_le; lia|].
  split; [apply Z.mul_div_le; lia|]. split; [|done].
  intros name H1 H2 H3. by rewrite !lookup_insert_ne by done.
Qed.

Lemma ppo_rescale_config_witness :
  ∃ log' config',
    _rescale_config
      (<["num_envs" := 8]> (<["num_eval_envs" := 5]>
        (<["minibatch_size" := 4]> ∅))) 2 []
    = Ok (log', config')
    ∧ config' !! "num_eval_envs" = Some 2
    ∧ length log' = 1%nat.
Proof.
  destruct (ppo_rescale_config
              (<["num_envs" := 8]> (<["num_eval_envs" := 5]>
                (<["minibatch_size" := 4]> ∅))) 2 [] 8 5 4)
    as (log' & config' & Hrun & _ & He & _ & _ & _ & _ & _ & Hlog);
    [lia | reflexivity | reflexivity | reflexivity |].
  exists log', config'. split; [exact Hrun|]. split; [exact He|].
  rewrite Hlog. reflexivity.
Defined.

(** X10.  Building on several devices. When the number of devices divides
    [num_envs] and [minibatch_size], and the minibatch size divides the
    rollout, the rescaled sizes divide as well: the workflow is built and
    the only possible warning is that of [num_eval_envs]. When the minibatch
    size is below the number of devices, it is rescaled to zero and the
    construction raises [ZeroDivisionError]. *)
Theorem build_on_devices (config : gmap string Z) (n : Z) (log : list string)
    num_envs num_eval_envs minibatch_size rollout_length :
  0 < n →
  config !! "num_envs" = Some num_envs →
  config !! "num_eval_envs" = Some num_eval_envs →
  config !! "minibatch_size" = Some minibatch_size →
  config !! "rollout_length" = Some rollout_length →
  (num_envs mod n = 0 → minibatch_size mod n = 0 → minibatch_size ≠ 0 →
   (num_envs * rollout_length) mod minibatch_size = 0 →
   ∃ config',
     build_from_config config true n log
     = Ok (log ++ (if decide (num_eval_envs mod n ≠ 0)
                   then [indivisible_text "num_eval_envs" num_eval_envs n]
                   else []),
           {| PPO.config := config' |})
     ∧ config' !! "num_envs" = Some (num_envs / n)
     ∧ config' !! "minibatch_size" = Some (minibatch_size / n)
     ∧ (num_envs / n * rollout_length) mod (minibatch_size / n) = 0)
  ∧ (0 ≤ minibatch_size < n →
     build_from_config config true n log = Raise ZeroDivisionError).
Proof.
  intros Hn He Hv Hm Hr.
  pose proof (rescale_config_entries config n log num_envs num_eval_envs
                minibatch_size Hn He Hv Hm) as Hrun.
  set (config' := <["minibatch_size" := minibatch_size / n]> _) in Hrun.
  set (log' := log ++ _) in Hrun.
  assert (config' !! "num_envs" = Some (num_envs / n)) as He'.
  { subst config'.
    by rewrite !lookup_insert_ne by done; rewrite lookup_insert_eq. }
  assert (config' !! "minibatch_size" = Some (minibatch_size / n)) as Hm'.
  { subst config'. by rewrite lookup_insert_eq. }
  assert (config' !! "rollout_length" = Some rollout_length) as Hr'.
  { subst config'. by rewrite !lookup_insert_ne by done. }
  assert (log' = log
            ++ (if decide (num_envs mod n ≠ 0)
                then [indivisible_text "num_envs" num_envs n] else [])
            ++ (if decide (num_eval_envs mod n ≠ 0)
                then [indivisible_text "num_eval_envs" num_eval_envs n]
                else [])
            ++ (if decide (minibatch_size mod n ≠ 0)
                then [indivisible_text "minibatch_size" minibatch_size n]
                else [])) as Hlog by done.
  clearbody config' log'.
  unfold build_from_config. rewrite Hrun. cbn [bind fst snd].
  split.
  - intros Hdn Hdm Hm0 Hdiv.
    apply Z.mod_divide in Hdn as [a ->]; [|lia].
    apply Z.mod_divide in Hdm as [b ->]; [|lia].
    rewrite !Z.div_mul in * by lia.
    assert (b ≠ 0) as Hb by lia.
    assert ((a * rollout_length) mod b = 0) as Hdiv'.
    { apply Z.mod_divide; [done|].
      apply Z.mod_divide in Hdiv as [c Hc]; [|lia].
      exists c. nia. }
    exists config'. split; [|done].
    rewrite (build_divisible config' log' a rollout_length b He' Hr' Hm' Hb Hdiv').
    rewrite Hlog. rewrite !Z_mod_mult.
    rewrite !(decide_False (P:=0 ≠ 0)) by (intros H; by apply H).
    by rewrite !app_nil_r.
  - intros Hsmall. rewrite Z.div_small in Hm' by lia.
    unfold _build_from_config.
    rewrite (getattr_lookup _ _ _ He'), (getattr_lookup _ _ _ Hr'),
      (getattr_lookup _ _ _ Hm'). done.
Qed.

Lemma build_on_devices_witness :
  ∃ config',
    build_from_config
      (<["num_envs" := 8]> (<["num_eval_envs" := 4]>
        (<["minibatch_size" := 4]> (<["rollout_length" := 3]> ∅)))) true 2 []
    = Ok ([], {| PPO.config := config' |}).
Proof.
  destruct (build_on_devices
              (<["num_envs" := 8]> (<["num_eval_envs" := 4]>
                (<["minibatch_size" := 4]> (<["rollout_length" := 3]> ∅))))
              2 [] 8 4 4 3) as [Hbuild _];
    [lia | reflexivity | reflexivity | reflexivity | reflexivity |].
  destruct Hbuild as (config' & Hrun & _);
    [reflexivity | reflexivity | lia | reflexivity |].
  exists config'. exact Hrun.
Defined.

End PPOBuildFacts.

Module PPOUpdateFacts.
Import Gradients PPO PPOUpdate PPOFacts.

Lemma scan_invariant {C X Y : Type} (f : C → X → result (C * Y))
    (I : C → Prop) (P : Y → Prop) (xs : list X) :
  (∀ c x, I c → x ∈ xs → ∃ c' y, f c x = Ok (c', y) ∧ I c' ∧ P y) →
  ∀ c, I c →
    ∃ c' ys, scan f c xs = Ok (c', ys) ∧ I c'
             ∧ length ys = length xs ∧ Forall P ys.
Proof.
  induction xs as [|x xs IH]; intros Hstep c Hc.
  - exists c, []. by repeat split.
  - destruct (Hstep c x Hc) as (c1 & y & Hf & Hc1 & Hy); [left|].
    destruct IH with (c := c1) as (c2 & ys & Hs & Hc2 & Hlen & Hys).
    { intros c' x' Hc' Hx'. apply Hstep; [done | by right]. }
    { done. }
    exists c2, (y :: ys). cbn [scan]. rewrite Hf. cbn [bind fst snd].
    rewrite Hs. cbn [bind fst snd]. repeat split; [done | | by constructor].
    cbn. by rewrite Hlen.
Qed.

Section Epochs.
Context {Params Grads Updates OptState Value Extra Key A : Type}.
Variable value_and_grad : bool → (Params → Value) → Params → Value * Grads.
Variable pmean : string → Grads → Grads.
Variable apply_updates : Params → Updates → Params.
Variable random_split : Key → nat → list Key.
Variable random_permutation : Key → list A → list A.
Variable loss_fn : AgentState (Params:=Params) (Extra:=Extra)
                   → list A → Key → Value.
Variable optimizer : GradientTransformation (Params:=Params) (Grads:=Grads)
                       (Updates:=Updates) (OptState:=OptState).
Variable pmap_axis_name : option string.

Abbreviation minibatch_step :=
  (minibatch_step value_and_grad pmean apply_updates random_split loss_fn
     optimizer pmap_axis_name).
Abbreviation epoch_step :=
  (epoch_step value_and_grad pmean apply_updates random_split
     random_permutation loss_fn optimizer pmap_axis_name).
Abbreviation update_epochs :=
  (update_epochs value_and_grad pmean apply_updates random_split
     random_permutation loss_fn optimizer pmap_axis_name).

Abbreviation loss_at :=
  (loss_at value_and_grad pmean loss_fn pmap_axis_name).

Hypothesis split_two : ∀ k, length (random_split k 2) = 2%nat.

Lemma split_two_inv k : ∃ k1 k2, random_split k 2 = [k1; k2].
Proof.
  pose proof (split_two k) as H.
  destruct (random_split k 2) as [|k1 [|k2 [|]]]; try done. by eexists _, _.
Qed.

Lemma minibatch_step_keeps (a : AgentState) o k (batch : list A) :
  ∃ o' k' v, minibatch_step (o, a, k) batch = Ok ((o', a, k'), v)
             ∧ loss_at a v.
Proof.
  unfold PPOUpdate.minibatch_step, update_fn.
  destruct (split_two_inv k) as (k1 & k2 & ->).
  rewrite GradientFacts.agent_gradient_update_returns. cbv zeta.
  eexists _, _, _. split; [reflexivity|]. by exists batch, k2.
Qed.

Lemma minibatch_scan_keeps (a : AgentState) o k (batches : list (list A)) :
  ∃ o' k' vs, scan minibatch_step (o, a, k) batches = Ok ((o', a, k'), vs)
              ∧ length vs = length batches ∧ Forall (loss_at a) vs.
Proof.
  destruct (scan_invariant minibatch_step (λ c, c.1.2 = a) (loss_at a)
              batches) with (c := (o, a, k))
    as ([[o' a'] k'] & vs & Hs & Ha & Hlen & Hvs); [|done|].
  - intros [[o1 a1] k1] batch Ha1 _. cbn in Ha1. subst a1.
    destruct (minibatch_step_keeps a o1 k1 batch) as (o2 & k2 & v & Hv & Hl).
    by exists (o2, a, k2), v.
  - cbn in Ha. subst a'. by exists o', k', vs.
Qed.

Lemma shuffled_minibatch_count (config : gmap string Z) perm_key
    (x : list A) num_envs rollout_length minibatch_size :
  config !! "num_envs" = Some num_envs →
  config !! "rollout_length" = Some rollout_length →
  config !! "minibatch_size" = Some minibatch_size →
  Z.of_nat (length x) = rollout_length * num_envs →
  length (random_permutation perm_key x) = length x →
  0 < minibatch_size ≤ rollout_length * num_envs →
  ∃ batches,
    _get_shuffled_minibatch random_permutation config perm_key x = Ok batches
    ∧ Z.of_nat (length batches) = rollout_length * num_envs / minibatch_size.
Proof.
  intros Hn Hr Hm Hx Hp [Hpos Hle].
  unfold _get_shuffled_minibatch, num_minibatches.
  rewrite (getattr_lookup _ _ _ Hn), (getattr_lookup _ _ _ Hr),
    (getattr_lookup _ _ _ Hm). cbn [bind].
  unfold Py.floordiv. rewrite decide_False by lia. cbn [bind].
  set (n := rollout_length * num_envs / minibatch_size).
  assert (0 < n) as Hn0 by (apply Z.div_str_pos; lia).
  assert (n * minibatch_size ≤ rollout_length * num_envs) as Hnm.
  { subst n. rewrite Z.mul_comm. apply Z.mul_div_le. lia. }
  unfold Py.slice_to. rewrite decide_False by lia.
  set (sliced := take _ _).
  assert (Z.of_nat (length sliced) = n * minibatch_size) as Hs.
  { subst sliced. rewrite length_take, Hp. lia. }
  unfold reshape_rows. rewrite decide_False by lia. rewrite Hs.
  rewrite (Z.mul_comm n minibatch_size).
  rewrite decide_False by (rewrite Z_mod_mult; lia).
  eexists. split; [reflexivity|]. rewrite chunks_length. lia.
Qed.

(** X11.  The update epochs of a PPO step return the agent state they were
    given: the optimizer state and the key advance through
    [reuse_rollout_epochs] times [num_minibatches] gradient steps, the
    parameters never move, and every loss reported is a loss of the initial
    parameters. The losses come as one row of [num_minibatches] values per
    epoch. *)
Theorem update_epochs_keep_agent_state (config : gmap string Z)
    (trajectory : list A) (opt_state : OptState) (agent_state : AgentState)
    (learn_key : Key) (reuse_rollout_epochs : nat)
    num_envs rollout_length minibatch_size :
  (∀ k x, length (random_permutation k x) = length x) →
  config !! "num_envs" = Some num_envs →
  config !! "rollout_length" = Some rollout_length →
  config !! "minibatch_size" = Some minibatch_size →
  Z.of_nat (length trajectory) = rollout_length * num_envs →
  0 < minibatch_size ≤ rollout_length * num_envs →
  ∃ opt_state' key' losses,
    update_epochs config trajectory opt_state agent_state learn_key
      reuse_rollout_epochs
    = Ok ((opt_state', agent_state, key'), losses)
    ∧ length losses = reuse_rollout_epochs
    ∧ Forall (λ row, Z.of_nat (length row)
                     = rollout_length * num_envs / minibatch_size
                     ∧ Forall (loss_at agent_state) row) losses.
Proof.
  intros Hperm Hn Hr Hm Hx Hsize. unfold PPOUpdate.update_epochs.
  destruct (scan_invariant (epoch_step config trajectory)
              (λ c, c.1.2 = agent_state)
              (λ row, Z.of_nat (length row)
                      = rollout_length * num_envs / minibatch_size
                      ∧ Forall (loss_at agent_state) row)
              (replicate reuse_rollout_epochs ()))
    with (c := (opt_state, agent_state, learn_key))
    as ([[o' a'] k'] & losses & Hs & Ha & Hlen & Hrows); [|done|].
  - intros [[o1 a1] k1] [] Ha1 _. cbn in Ha1. subst a1.
    unfold PPOUpdate.epoch_step.
    destruct (split_two_inv k1) as (perm_key & lk & ->).
    destruct (shuffled_minibatch_count config perm_key trajectory
                num_envs rollout_length minibatch_size Hn Hr Hm Hx
                (Hperm _ _) Hsize) as (batches & -> & Hcount).
    cbn [bind].
    destruct (minibatch_scan_keeps agent_state o1 lk batches)
      as (o2 & k2 & vs & Hv & Hvlen & Hvs).
    exists (o2, agent_state, k2), vs. rewrite Hv.
    repeat split; [lia | done].
  - cbn in Ha. subst a'. exists o', k', losses.
    rewrite length_replicate in Hlen. done.
Qed.

End Epochs.

Lemma update_epochs_keep_agent_state_witness :
  ∃ opt_state' key' losses,
    PPOUpdate.update_epochs Toy.value_and_grad Toy.pmean Toy.apply_updates
      Demo.split (λ (k : nat) (x : list Z), reverse x)
      (λ (a : AgentState (Params:=Z) (Extra:=unit)) (batch : list Z)
         (k : nat), params a * params a)
      Toy.sgd None
      (<["num_envs" := 1]> (<["rollout_length" := 5]>
        (<["minibatch_size" := 2]> ∅)))
      [10; 11; 12; 13; 14] 0 (Toy.agent 3) 7%nat 2
    = Ok ((opt_state', Toy.agent 3, key'), losses)
    ∧ length losses = 2%nat.
Proof.
  destruct (update_epochs_keep_agent_state Toy.value_and_grad Toy.pmean
              Toy.apply_updates Demo.split
              (λ (k : nat) (x : list Z), reverse x)
              (λ (a : AgentState (Params:=Z) (Extra:=unit)) (batch : list Z)
         (k : nat), params a * params a)
              Toy.sgd None)
    with (config := <["num_envs" := 1]> (<["rollout_length" := 5]>
                      (<["minibatch_size" := 2]> (∅ : gmap string Z))))
         (trajectory := [10; 11; 12; 13; 14]) (opt_state := 0)
         (agent_state := Toy.agent 3) (learn_key := 7%nat)
         (reuse_rollout_epochs := 2%nat)
         (num_envs := 1) (rollout_length := 5) (minibatch_size := 2)
    as (o & k & losses & Hrun & Hlen & _).
  - intros k. unfold Demo.split. by rewrite length_fmap, length_seq.
  - intros k x. apply length_reverse.
  - reflexivity.
  - reflexivity.
  - reflexivity.
  - reflexivity.
  - lia.
  - by exists o, k, losses.
Defined.

End PPOUpdateFacts.

Module PPOLossFacts.
Import Jnp PPOLoss.

Lemma broadcast_with_same {A B C : Type} (f : A → B → C) x y :
  length x = length y → broadcast_with f x y = Ok (zip_with f x y).
Proof. intros H. unfold broadcast_with. by rewrite decide_True. Qed.

Section Loss.
Context {F : Type}.
Variables zero one : F.
Variables add sub mul div minimum maximum : F → F → F.
Variable neg : F → F.
Variable exp : F → F.
Variable is_zero : F → bool.
Variable reduce_sum : list F → F.
Variable of_float : Py.float → F.

Abbreviation mean_where := (Jnp.mean_where zero one div reduce_sum).
Abbreviation masked x mask :=
  (zip_with (λ (a : F) (m : bool), if m then a else zero) x mask).
Abbreviation loss_fn :=
  (PPOLoss.loss_fn zero one add sub mul div minimum maximum neg exp is_zero
     reduce_sum of_float).
Abbreviation policy_loss :=
  (PPOLoss.policy_loss zero one sub mul div minimum maximum neg exp
     reduce_sum of_float).
Abbreviation critic_loss :=
  (PPOLoss.critic_loss zero one sub mul div reduce_sum).

Lemma mean_where_same (x : list F) mask :
  length mask = length x →
  mean_where x mask
  = Ok (div (reduce_sum (masked x mask))
            (reduce_sum (astype_float zero one mask))).
Proof. intros H. unfold Jnp.mean_where. by rewrite decide_True. Qed.

Lemma agree_refl mask (x : list F) : agree mask x x.
Proof. by split. Qed.

Lemma agree_zip_with (f : F → F → F) mask x x' y y' :
  agree mask x x' → agree mask y y' →
  agree mask (zip_with f x y) (zip_with f x' y').
Proof.
  intros [Hl Hx] [Hl' Hy]. split.
  - rewrite !length_zip_with. lia.
  - intros i Hi. rewrite !lookup_zip_with, (Hx i Hi), (Hy i Hi). done.
Qed.

Lemma agree_fmap (f : F → F) mask x x' :
  agree mask x x' → agree mask (f <$> x) (f <$> x').
Proof.
  intros [Hl Hx]. split.
  - by rewrite !length_fmap.
  - intros i Hi. by rewrite !list_lookup_fmap, (Hx i Hi).
Qed.

(** What the mask drops is replaced before the sum, so arrays that agree
    where the mask keeps an entry are summed as one array. *)
Lemma masked_agree mask : ∀ x y : list F,
  agree mask x y → masked x mask = masked y mask.
Proof.
  induction mask as [|m mask IH]; intros x y [Hl H].
  - by destruct x, y.
  - destruct x as [|a x], y as [|b y]; try done. cbn [zip_with].
    f_equal.
    + destruct m; [|done]. specialize (H 0%nat eq_refl). cbn in H.
      by injection H as ->.
    + apply IH. split; [cbn in Hl; lia|]. intros i Hi. exact (H (S i) Hi).
Qed.

Lemma mean_where_agree mask (x y : list F) :
  length mask = length x →
  agree mask x y → mean_where x mask = mean_where y mask.
Proof.
  intros Hl H. rewrite (mean_where_same x) by done.
  rewrite (mean_where_same y) by (destruct H as [? _]; lia).
  by rewrite (masked_agree mask x y H).
Qed.

Lemma masked_none (x : list F) : ∀ mask,
  length mask = length x → Forall (λ m, m = false) mask →
  masked x mask = replicate (length x) zero
  ∧ astype_float zero one mask = replicate (length x) zero.
Proof.
  induction x as [|a x IH]; intros [|m mask] Hl Hm; try done.
  apply Forall_cons in Hm as [-> Hm].
  destruct (IH mask) as [H1 H2]; [cbn in Hl; lia | done |].
  cbn [zip_with length replicate]. unfold astype_float in *.
  cbn [fmap list_fmap]. by rewrite H1, H2.
Qed.

Lemma mean_where_masked (x : list F) mask :
  length mask = length x → Forall (λ m, m = false) mask →
  mean_where x mask
  = Ok (div (reduce_sum (replicate (length x) zero))
            (reduce_sum (replicate (length x) zero))).
Proof.
  intros Hl H. rewrite mean_where_same by done.
  by destruct (masked_none x mask Hl H) as [-> ->].
Qed.

(** X12.  Transitions recorded at an automatic reset never reach the loss:
    two calls whose batches and network outputs agree on every transition
    with [autoreset = 0] return the same weighted loss and the same
    dictionary of losses. *)
Theorem loss_ignores_autoreset (clip_epsilon : Q)
    (loss_weights : list (string * Q)) (out out' : NetworkOutputs)
    (b b' : SampleBatch) :
  autoreset b' = autoreset b →
  let mask := logical_not is_zero (autoreset b) in
  length (vs out) = length (autoreset b) →
  length (v_targets b) = length (autoreset b) →
  length (actions_logp out) = length (autoreset b) →
  length (logp b) = length (autoreset b) →
  length (advantages b) = length (autoreset b) →
  length (entropy out) = length (autoreset b) →
  agree mask (vs out) (vs out') →
  agree mask (v_targets b) (v_targets b') →
  agree mask (actions_logp out) (actions_logp out') →
  agree mask (logp b) (logp b') →
  agree mask (advantages b) (advantages b') →
  agree mask (entropy out) (entropy out') →
  loss_fn clip_epsilon loss_weights out b
  = loss_fn clip_epsilon loss_weights out' b'.
Proof.
  intros Ha mask L1 L2 L3 L4 L5 L6 A1 A2 A3 A4 A5 A6.
  unfold PPOLoss.loss_fn. f_equal. unfold loss. rewrite Ha. fold mask.
  assert (critic_loss (vs out) (v_targets b) mask
          = critic_loss (vs out') (v_targets b') mask) as ->.
  { unfold PPOLoss.critic_loss.
    rewrite !broadcast_with_same
      by (destruct A1 as [? _], A2 as [? _]; lia).
    cbn [bind]. apply mean_where_agree; [|by apply agree_zip_with].
    subst mask. unfold logical_not. rewrite length_fmap, length_zip_with.
    lia. }
  assert (policy_loss clip_epsilon (actions_logp out) (logp b)
            (advantages b) mask
          = policy_loss clip_epsilon (actions_logp out') (logp b')
              (advantages b') mask) as ->.
  { unfold PPOLoss.policy_loss, rho.
    destruct A3 as [E3 A3], A4 as [E4 A4], A5 as [E5 A5].
    rewrite !broadcast_with_same by lia. cbn [bind].
    rewrite !broadcast_with_same
      by (rewrite ?length_fmap, !length_zip_with; lia).
    cbn [bind].
    rewrite !broadcast_with_same
      by (rewrite ?length_fmap, !length_zip_with, ?length_fmap,
            ?length_zip_with; lia).
    cbn [bind].
    match goal with
    | |- bind (mean_where ?x mask) _ = bind (mean_where ?y mask) _ =>
        rewrite (mean_where_agree mask x y); [done| |]
    end.
    { subst mask. unfold logical_not.
      rewrite length_fmap, !length_zip_with, ?length_fmap,
        ?length_zip_with. lia. }
    repeat first [apply agree_zip_with | apply agree_fmap]; by split. }
  rewrite (mean_where_agree mask _ (entropy out')); [done | | done].
  subst mask. unfold logical_not. rewrite length_fmap. lia.
Qed.

Lemma weighted_sum_nan (nan : F) (loss_weights : list (string * Q))
    (loss_dict : gmap string F) :
  (∀ x, add x nan = nan) →
  Forall (λ kw, loss_dict !! kw.1 = Some nan) loss_weights →
  (∀ w, mul w nan = nan) →
  weighted_sum add mul of_float loss_weights loss_dict nan = Ok nan.
Proof.
  intros Hadd Hall Hmul.
  induction Hall as [|[k w] ws Hl _ IH]; [done|].
  cbn [weighted_sum]. cbn in Hl. rewrite Hl, Hmul, Hadd. exact IH.
Qed.

(** X13.  A batch in which every transition was recorded at an automatic
    reset, the empty batch included, has no loss.  In an arithmetic in
    which a sum of zeros divided by itself is NaN and a negation, a
    product and a sum with NaN are NaN, as in that of IEEE floats, the
    three entries of the dictionary are NaN, and so is their weighted sum
    as soon as one of them has a weight, whatever the weight. *)
Theorem loss_of_masked_batch (nan : F) (clip_epsilon : Q)
    (loss_weights : list (string * Q)) (out : NetworkOutputs)
    (b : SampleBatch) :
  (∀ n, div (reduce_sum (replicate n zero)) (reduce_sum (replicate n zero))
        = nan) →
  neg nan = nan → (∀ w, mul w nan = nan) → (∀ x, add x nan = nan) →
  length (vs out) = length (autoreset b) →
  length (v_targets b) = length (autoreset b) →
  length (actions_logp out) = length (autoreset b) →
  length (logp b) = length (autoreset b) →
  length (advantages b) = length (autoreset b) →
  length (entropy out) = length (autoreset b) →
  Forall (λ a, is_zero a = false) (autoreset b) →
  loss_weights ≠ [] →
  Forall (λ kw, kw.1 ∈ ["actor_loss"; "critic_loss"; "actor_entropy_loss"])
    loss_weights →
  loss_fn clip_epsilon loss_weights out b
  = Ok (nan, <["actor_loss" := nan]>
               (<["critic_loss" := nan]>
                 (<["actor_entropy_loss" := nan]> ∅))).
Proof.
  intros Hdiv Hneg Hmul Hadd L1 L2 L3 L4 L5 L6 Hall Hne Hkeys.
  assert (Forall (λ m, m = false) (logical_not is_zero (autoreset b)))
    as Hmask.
  { unfold logical_not. by apply Forall_fmap. }
  assert (length (logical_not is_zero (autoreset b))
          = length (autoreset b)) as Lm.
  { unfold logical_not. by rewrite length_fmap. }
  unfold PPOLoss.loss_fn, loss, PPOLoss.critic_loss, PPOLoss.policy_loss, rho.
  rewrite !broadcast_with_same by lia. cbn [bind].
  rewrite !broadcast_with_same
    by (rewrite ?length_fmap, !length_zip_with; lia).
  cbn [bind].
  rewrite !broadcast_with_same
    by (rewrite ?length_fmap, !length_zip_with, ?length_fmap,
          ?length_zip_with; lia).
  cbn [bind].
  rewrite !mean_where_masked
    by first [done | rewrite ?Lm, ?length_zip_with, ?length_fmap,
                       ?length_zip_with; lia].
  cbn [bind]. rewrite !Hdiv, Hneg.
  destruct loss_weights as [|[k w] ws]; [done|].
  cbn [weighted_sum].
  apply Forall_cons in Hkeys as [Hk Hks]. cbn in Hk.
  assert (∀ k : string,
            k ∈ ["actor_loss"; "critic_loss"; "actor_entropy_loss"] →
            (<["actor_loss" := nan]>
               (<["critic_loss" := nan]>
                 (<["actor_entropy_loss" := nan]> ∅))
             : gmap string F) !! k = Some nan) as Hlook.
  { intros k' Hk'. repeat (apply elem_of_cons in Hk' as [->|Hk']); try done.
    by apply elem_of_nil in Hk'. }
  rewrite (Hlook k Hk), Hmul, Hadd.
  rewrite (weighted_sum_nan nan); [done | done | | done].
  eapply Forall_impl; [exact Hks|]. intros [k' w'] Hk'. cbn in *.
  by apply Hlook.
Qed.

End Loss.

Lemma example_sum_zeros (n : nat) :
  ∃ q, Example.reduce_sum (@replicate Example.t n (Some 0%Q)) = Some q
       ∧ Qeq_bool q 0 = true.
Proof.
  induction n as [|n (q & Hq & H0)]; [by exists 0%Q|].
  exists (0 + q)%Q. cbn [replicate Example.reduce_sum foldr].
  unfold Example.reduce_sum in Hq. rewrite Hq. split; [done|].
  apply Qeq_bool_iff. apply Qeq_bool_iff in H0. lra.
Qed.

Lemma loss_ignores_autoreset_witness :
  Example.loss_fn (1 # 5) [("actor_loss", 1%Q); ("critic_loss", 1 # 2)%Q]
    {| vs := Some <$> [1; 2; 3]%Q; actions_logp := Some <$> [0; 0; 0]%Q;
       entropy := Some <$> [1; 1; 1]%Q |}
    {| v_targets := Some <$> [2; 2; 2]%Q; logp := Some <$> [0; 0; 0]%Q;
       advantages := Some <$> [1; 5; -1]%Q;
       autoreset := Some <$> [0; 1; 0]%Q |}
  = Example.loss_fn (1 # 5) [("actor_loss", 1%Q); ("critic_loss", 1 # 2)%Q]
      {| vs := Some <$> [1; 9; 3]%Q; actions_logp := Some <$> [0; 7; 0]%Q;
         entropy := Some <$> [1; 8; 1]%Q |}
      {| v_targets := Some <$> [2; 4; 2]%Q; logp := Some <$> [0; 3; 0]%Q;
         advantages := Some <$> [1; -6; -1]%Q;
         autoreset := Some <$> [0; 1; 0]%Q |}.
Proof.
  apply loss_ignores_autoreset; cbn;
    try reflexivity;
    (split; [reflexivity|]);
    intros [|[|[|i]]] Hi; try reflexivity; discriminate.
Defined.

Lemma loss_of_masked_batch_witness :
  Example.loss_fn (1 # 5) [("critic_loss", 0%Q)]
    {| vs := Some <$> [1; 2]%Q; actions_logp := Some <$> [0; 0]%Q;
       entropy := Some <$> [1; 1]%Q |}
    {| v_targets := Some <$> [2; 2]%Q; logp := Some <$> [0; 0]%Q;
       advantages := Some <$> [1; 5]%Q; autoreset := Some <$> [1; 1]%Q |}
  = Ok (None, <["actor_loss" := None]>
                (<["critic_loss" := None]>
                  (<["actor_entropy_loss" := None]> ∅))).
Proof.
  apply (loss_of_masked_batch (F:=Example.t)).
  - intros n. destruct (example_sum_zeros n) as (q & Hq & H0).
    unfold Example.div. by rewrite Hq, H0.
  - reflexivity.
  - by intros [w|].
  - by intros [x|].
  - reflexivity.
  - reflexivity.
  - reflexivity.
  - reflexivity.
  - reflexivity.
  - reflexivity.
  - repeat constructor.
  - discriminate.
  - repeat constructor.
Defined.

End PPOLossFacts.

Module EnvPoolFacts.
Import Jnp EnvPool PPOLossFacts.

Lemma where_eq {A : Type} (c : list bool) (x y : list A) :
  length x = length c → length y = length c →
  where_ c x y = Ok (zip_with (λ (c : bool) (p : A * A), if c then p.1 else p.2)
                       c (zip x y)).
Proof.
  intros Hx Hy. unfold where_.
  rewrite broadcast_with_same by lia. cbn [bind].
  rewrite broadcast_with_same by (rewrite length_zip_with; lia). done.
Qed.

Section Adapter.
Context {F Obs Action Key : Type}.
Variables zero one : F.
Variables add sub mul : F → F → F.
Variable nonzero : F → bool.
Variable _step : Action → StepOut (F:=F) (Obs:=Obs).
Variable n : nat.

Abbreviation step := (EnvPool.step zero one add sub mul _step).
Abbreviation astype_float := (EnvPool.astype_float zero one).
Abbreviation done_at := (EnvPool.done_at _step).
Abbreviation reward_at := (EnvPool.reward_at zero _step).
Abbreviation return_after :=
  (EnvPool.return_after zero one add sub mul _step).
Abbreviation done_after := (EnvPool.done_after zero one _step).
Abbreviation running_return :=
  (EnvPool.running_return zero one add sub mul _step).
Abbreviation out_shaped := (EnvPool.out_shaped _step).
Abbreviation where_done := (EnvPool.where_done nonzero).

Lemma step_slot (state : EnvState) action i e0 d0 :
  length (done state) = n → length (episode_return (info state)) = n →
  out_shaped n action →
  episode_return (info state) !! i = Some e0 →
  done state !! i = Some d0 →
  ∃ state',
    step state action = Ok state'
    ∧ length (done state') = n
    ∧ length (episode_return (info state')) = n
    ∧ episode_return (info state') !! i
      = Some (add (mul e0 (sub one d0)) (reward_at i action))
    ∧ done state' !! i = Some (astype_float (done_at i action))
    ∧ autoreset (info state') !! i = Some d0.
Proof.
  intros Ld Le (Lo & Lr & Lt & Lu) He Hd. unfold EnvPool.step.
  rewrite broadcast_with_same by lia. cbn [bind].
  rewrite broadcast_with_same by lia. cbn [bind].
  rewrite broadcast_with_same by (rewrite length_zip_with; lia). cbn [bind].
  eexists. split; [reflexivity|]. cbn [done info episode_return autoreset].
  assert (i < n)%nat as Hi by (apply lookup_lt_Some in Hd; lia).
  destruct (lookup_lt_is_Some_2 (out_reward (_step action)) i) as [r Hr];
    [lia|].
  destruct (lookup_lt_is_Some_2 (out_termination (_step action)) i)
    as [t Ht]; [lia|].
  destruct (lookup_lt_is_Some_2 (out_truncation (_step action)) i)
    as [u Hu]; [lia|].
  split; [rewrite length_zip_with; lia|].
  split; [rewrite !length_zip_with; lia|].
  rewrite !lookup_zip_with, He, Hd, Hr, Ht, Hu.
  unfold EnvPool.reward_at, EnvPool.done_at. rewrite Hr, Ht, Hu. done.
Qed.

Lemma done_after_cons i d a (rest : list Action) :
  done_after i d (a :: rest)
  = done_after i (astype_float (done_at i a)) rest.
Proof.
  unfold EnvPool.done_after. destruct rest as [|b rest]; [done|].
  change (last (a :: b :: rest)) with (last (b :: rest)).
  destruct (last (b :: rest)) eqn:E; [done|]. by apply last_None in E.
Qed.

Lemma removelast_cons (a b : Action) rest :
  removelast (a :: b :: rest) = a :: removelast (b :: rest).
Proof. done. Qed.

(** The adapter along a rollout, at one environment. *)
Lemma run_slot (actions : list Action) : ∀ (state : EnvState) i e0 d0,
  length (done state) = n → length (episode_return (info state)) = n →
  Forall (out_shaped n) actions →
  episode_return (info state) !! i = Some e0 →
  done state !! i = Some d0 →
  ∃ state',
    run step state actions = Ok state'
    ∧ episode_return (info state') !! i = Some (return_after i e0 d0 actions)
    ∧ done state' !! i = Some (done_after i d0 actions)
    ∧ (actions ≠ [] →
       autoreset (info state') !! i
       = Some (done_after i d0 (removelast actions))).
Proof.
  induction actions as [|a actions IH]; intros state i e0 d0 Ld Le Hs He Hd.
  - exists state. by repeat split.
  - apply Forall_cons in Hs as [Ha Hs].
    destruct (step_slot state a i e0 d0 Ld Le Ha He Hd)
      as (state1 & Hstep & Ld1 & Le1 & He1 & Hd1 & Ha1).
    destruct (IH state1 i _ _ Ld1 Le1 Hs He1 Hd1)
      as (state' & Hrun & He' & Hd' & Ha').
    exists state'. cbn [run]. rewrite Hstep. cbn [bind].
    split; [done|]. split; [done|]. split; [by rewrite done_after_cons|].
    intros _. destruct actions as [|b actions].
    + cbn in Hrun. injection Hrun as <-. done.
    + rewrite removelast_cons, done_after_cons. by apply Ha'.
Qed.

(** After a step that ended no episode the return is kept as it is, times
    [1 - 0], and the next reward is added to it. *)
Lemma return_after_running i (actions : list Action) : ∀ e,
  Forall (λ action, done_at i action = false) (removelast actions) →
  return_after i e zero actions = running_return i e actions.
Proof.
  induction actions as [|a actions IH]; intros e Hn; [done|].
  cbn [EnvPool.return_after EnvPool.running_return foldl].
  destruct actions as [|b actions]; [done|].
  rewrite removelast_cons in Hn. apply Forall_cons in Hn as [Ha Hn].
  rewrite Ha. cbn [EnvPool.astype_float]. by apply IH.
Qed.

(** X23.  The adapter's [episode_return] along a rollout, at one
    environment: every step multiplies the return by one minus the [done]
    flag of the step before and adds its reward to the product, the flag
    before the first step being that of the state the rollout starts in.
    Over steps of which none but the last may end the episode, the rewards
    after the first are therefore added from the left, in the order of the
    steps, each to the return so far times [1 - 0].  The state returned
    carries the [done] flag of the last step, and its [autoreset] flag is
    the [done] flag before that step. *)
Theorem episode_return_accumulates (state : EnvState) (first : Action)
    (actions : list Action) (i : nat) (e0 d0 : F) :
  length (done state) = n → length (episode_return (info state)) = n →
  Forall (out_shaped n) (first :: actions) →
  episode_return (info state) !! i = Some e0 →
  done state !! i = Some d0 →
  ∃ state',
    run step state (first :: actions) = Ok state'
    ∧ episode_return (info state') !! i
      = Some (return_after i e0 d0 (first :: actions))
    ∧ (Forall (λ action, done_at i action = false)
         (removelast (first :: actions)) →
       return_after i e0 d0 (first :: actions)
       = running_return i (add (mul e0 (sub one d0)) (reward_at i first))
           actions)
    ∧ done state' !! i = Some (done_after i d0 (first :: actions))
    ∧ autoreset (info state') !! i
      = Some (done_after i d0 (removelast (first :: actions))).
Proof.
  intros Ld Le Hs He Hd.
  destruct (run_slot (first :: actions) state i e0 d0 Ld Le Hs He Hd)
    as (state' & Hrun & He' & Hd' & Ha').
  exists state'. split; [done|]. split; [done|]. split.
  - intros Hn. cbn [EnvPool.return_after].
    destruct actions as [|b actions]; [done|].
    rewrite removelast_cons in Hn. apply Forall_cons in Hn as [Hf Hn].
    rewrite Hf. cbn [EnvPool.astype_float].
    by apply return_after_running.
  - split; [done|]. by apply Ha'.
Qed.

Lemma step_shaped (state : EnvState) action :
  state_shaped n state → out_shaped n action →
  ∃ state', step state action = Ok state' ∧ state_shaped n state'.
Proof.
  intros (_ & _ & Ld & _ & _ & Le & _) (Lo & Lr & Lt & Lu).
  unfold EnvPool.step.
  rewrite broadcast_with_same by lia. cbn [bind].
  rewrite broadcast_with_same by lia. cbn [bind].
  rewrite broadcast_with_same by (rewrite length_zip_with; lia). cbn [bind].
  eexists. split; [reflexivity|]. unfold state_shaped.
  cbn [obs reward done info termination truncation episode_return autoreset].
  rewrite !length_fmap, !length_zip_with. repeat split; lia.
Qed.

Lemma where_done_lookup {A : Type} (state : EnvState (F:=F) (Obs:=Obs))
    (x y : list A) :
  length (done state) = n → length x = n → length y = n →
  ∃ r, where_done state x y = Ok r ∧ length r = n
       ∧ ∀ i d, done state !! i = Some d →
           r !! i = if nonzero d then x !! i else y !! i.
Proof.
  intros Ld Lx Ly. unfold EnvPool.where_done. rewrite decide_True by lia.
  rewrite where_eq by (rewrite length_fmap; lia).
  eexists. split; [reflexivity|]. split.
  - rewrite !length_zip_with, length_fmap. lia.
  - intros i d Hd.
    assert (i < n)%nat as Hi by (apply lookup_lt_Some in Hd; lia).
    destruct (lookup_lt_is_Some_2 x i) as [a Ha]; [lia|].
    destruct (lookup_lt_is_Some_2 y i) as [b Hb]; [lia|].
    rewrite !lookup_zip_with, list_lookup_fmap, Hd, Ha, Hb. cbn.
    by destruct (nonzero d).
Qed.

Section Wrapper.
Variable env_step : EnvState (F:=F) (Obs:=Obs) → Action
                    → result (EnvState (F:=F) (Obs:=Obs)).

Abbreviation one_episode_step := (EnvPool.one_episode_step nonzero env_step).

Lemma one_episode_step_slots (state stepped : EnvState) action :
  state_shaped n state → env_step state action = Ok stepped →
  state_shaped n stepped →
  ∃ state',
    one_episode_step state action = Ok state' ∧ state_shaped n state'
    ∧ ∀ i d, done state !! i = Some d →
        slot i state' = if nonzero d then slot i state else slot i stepped.
Proof.
  intros (S1 & S2 & S3 & S4 & S5 & S6 & S7) Hstep
    (T1 & T2 & T3 & T4 & T5 & T6 & T7).
  unfold EnvPool.one_episode_step. rewrite Hstep. cbn [bind].
  destruct (where_done_lookup state (obs state) (obs stepped) S3 S1 T1)
    as (r1 & -> & L1 & H1). cbn [bind].
  destruct (where_done_lookup state (reward state) (reward stepped) S3 S2 T2)
    as (r2 & -> & L2 & H2). cbn [bind].
  destruct (where_done_lookup state (done state) (done stepped) S3 S3 T3)
    as (r3 & -> & L3 & H3). cbn [bind].
  destruct (where_done_lookup state (termination (info state))
              (termination (info stepped)) S3 S4 T4)
    as (r4 & -> & L4 & H4). cbn [bind].
  destruct (where_done_lookup state (truncation (info state))
              (truncation (info stepped)) S3 S5 T5)
    as (r5 & -> & L5 & H5). cbn [bind].
  destruct (where_done_lookup state (episode_return (info state))
              (episode_return (info stepped)) S3 S6 T6)
    as (r6 & -> & L6 & H6). cbn [bind].
  destruct (where_done_lookup state (autoreset (info state))
              (autoreset (info stepped)) S3 S7 T7)
    as (r7 & -> & L7 & H7). cbn [bind].
  eexists. split; [reflexivity|]. split; [done|].
  intros i d Hd. unfold slot.
  cbn [obs reward done info termination truncation episode_return autoreset].
  rewrite (H1 i d Hd), (H2 i d Hd), (H3 i d Hd), (H4 i d Hd), (H5 i d Hd),
    (H6 i d Hd), (H7 i d Hd).
  by destruct (nonzero d).
Qed.

Lemma one_episode_frozen (origin state : EnvState) (actions : list Action) :
  (∀ s a, a ∈ actions → state_shaped n s →
     ∃ s', env_step s a = Ok s' ∧ state_shaped n s') →
  state_shaped n state →
  (∀ i d, done origin !! i = Some d → nonzero d = true →
     slot i state = slot i origin) →
  ∃ state',
    run one_episode_step state actions = Ok state' ∧ state_shaped n state'
    ∧ ∀ i d, done origin !! i = Some d → nonzero d = true →
        slot i state' = slot i origin.
Proof.
  revert state.
  induction actions as [|a actions IH]; intros state Henv Hs Hsame.
  - exists state. split; [done|]. by split.
  - destruct (Henv state a) as (stepped & Hstep & Hsh); [left | done |].
    destruct (one_episode_step_slots state stepped a Hs Hstep Hsh)
      as (s1 & Hs1 & Hsh1 & Hslots).
    destruct (IH s1) as (state' & Hrun & Hsh' & Hfrozen).
    { intros s a' Ha'. apply Henv. by right. }
    { done. }
    { intros i d Hd Hnz. rewrite <- (Hsame i d Hd Hnz).
      assert (done state !! i = Some d) as Hd0.
      { pose proof (Hsame i d Hd Hnz) as Hslot. unfold slot in Hslot.
        injection Hslot as _ _ Hdone _ _ _ _. by rewrite Hdone. }
      pose proof (Hslots i d Hd0) as Hslot. by rewrite Hnz in Hslot. }
    exists state'. cbn [run]. rewrite Hs1. cbn [bind]. done.
Qed.

(** X24.  Under [OneEpisodeWrapper] an environment that is done is frozen:
    as long as the wrapped environment keeps the shapes, any further rollout
    returns, and every entry of a done environment (observation, reward,
    flags, episode return) is what it was. *)
Theorem one_episode_absorbing (state : EnvState) (actions : list Action) :
  (∀ s a, a ∈ actions → state_shaped n s →
     ∃ s', env_step s a = Ok s' ∧ state_shaped n s') →
  state_shaped n state →
  ∃ state',
    run one_episode_step state actions = Ok state' ∧ state_shaped n state'
    ∧ ∀ i d, done state !! i = Some d → nonzero d = true →
        slot i state' = slot i state.
Proof.
  intros Henv Hs.
  destruct (one_episode_frozen state state actions Henv Hs)
    as (state' & Hrun & Hsh & Hfrozen); [done|].
  by exists state'.
Qed.

End Wrapper.

Lemma wrapped_step_live (state : EnvState) action i e0 d0 :
  state_shaped n state → out_shaped n action →
  episode_return (info state) !! i = Some e0 →
  done state !! i = Some d0 → nonzero d0 = false →
  ∃ state',
    EnvPool.one_episode_step nonzero step state action = Ok state'
    ∧ state_shaped n state'
    ∧ episode_return (info state') !! i
      = Some (add (mul e0 (sub one d0)) (reward_at i action))
    ∧ done state' !! i = Some (astype_float (done_at i action)).
Proof.
  intros Hs Ha He Hd Hnz.
  destruct (step_shaped state action Hs Ha) as (stepped & Hstep & Hsh).
  destruct (one_episode_step_slots step state stepped action Hs Hstep Hsh)
    as (s1 & Hs1 & Hsh1 & Hslots).
  destruct Hs as (_ & _ & Ld & _ & _ & Le & _).
  destruct (step_slot state action i e0 d0 Ld Le Ha He Hd)
    as (stepped' & Hstep' & _ & _ & He' & Hd' & _).
  rewrite Hstep in Hstep'. injection Hstep' as <-.
  exists s1. split; [done|]. split; [done|].
  specialize (Hslots i d0 Hd). rewrite Hnz in Hslots. unfold slot in Hslots.
  injection Hslots as _ _ Hdone _ _ Hret _.
  by rewrite Hdone, Hret.
Qed.

(** X25.  Evaluation with [OneEpisodeWrapper] around the adapter reports the
    return of the first episode.  Where [jnp.where] takes the flag [1] for
    true and the flag [0] for false: from a state in which environment [i]
    is running, after steps of which [last] is the first to end its
    episode, the [episode_return] of [i] is the return it had with the
    rewards up to and including [last] added from the left, each to the
    return so far times [1 - 0], and no later step changes it. *)
Theorem first_episode_return (state : EnvState)
    (actions : list Action) (last : Action) (later : list Action)
    (i : nat) (e0 : F) :
  nonzero zero = false → nonzero one = true →
  state_shaped n state →
  Forall (out_shaped n) (actions ++ last :: later) →
  episode_return (info state) !! i = Some e0 →
  done state !! i = Some zero →
  Forall (λ action, done_at i action = false) actions →
  done_at i last = true →
  ∃ state',
    run (EnvPool.one_episode_step nonzero step) state
      (actions ++ last :: later)
    = Ok state'
    ∧ episode_return (info state') !! i
      = Some (running_return i e0 (actions ++ [last]))
    ∧ done state' !! i = Some one.
Proof.
  intros Hzero Hone. revert state e0.
  induction actions as [|a actions IH]; intros state e0 Hs Hsh He Hd Hn Hl.
  - cbn [app run]. cbn [app] in Hsh. apply Forall_cons in Hsh as [Ha Hsh].
    destruct (wrapped_step_live state last i e0 zero Hs Ha He Hd Hzero)
      as (s1 & -> & Hs1 & He1 & Hd1).
    cbn [bind]. rewrite Hl in Hd1. cbn [EnvPool.astype_float] in Hd1.
    destruct (one_episode_frozen step s1 s1 later) as (s2 & Hrun & _ & Hfr).
    { intros s a' Ha' Hss. apply step_shaped; [done|].
      rewrite Forall_forall in Hsh. by apply Hsh. }
    { done. }
    { done. }
    assert (slot i s2 = slot i s1) as Hslot by (by apply (Hfr i one Hd1)).
    unfold slot in Hslot. injection Hslot as _ _ Hdone _ _ Hret _.
    exists s2. split; [done|]. split; [by rewrite Hret | by rewrite Hdone].
  - cbn [app run]. cbn [app] in Hsh. apply Forall_cons in Hsh as [Ha Hsh].
    apply Forall_cons in Hn as [Hna Hn].
    destruct (wrapped_step_live state a i e0 zero Hs Ha He Hd Hzero)
      as (s1 & -> & Hs1 & He1 & Hd1).
    cbn [bind]. rewrite Hna in Hd1. cbn [EnvPool.astype_float] in Hd1.
    destruct (IH s1 _ Hs1 Hsh He1 Hd1 Hn Hl) as (state' & Hrun & He' & Hd').
    exists state'. split; [done|]. split; [|done].
    by rewrite He'.
Qed.

End Adapter.

Lemma episode_return_accumulates_witness :
  ∃ state',
    run pool_step (reset 0%Q pool_reset 2 0%nat)
      [answer 1 1 1 false false; answer 2 2 2 true false] = Ok state'
    ∧ episode_return (info state') !! 0%nat
      = Some ((0 * (1 - 0) + 1) * (1 - 0) + 2)%Q
    ∧ done state' !! 0%nat = Some 1%Q.
Proof.
  destruct (episode_return_accumulates 0%Q 1%Q Qplus Qminus Qmult pool 2
              (reset 0%Q pool_reset 2 0%nat)
              (answer 1 1 1 false false) [answer 2 2 2 true false]
              0%nat 0%Q 0%Q)
    as (state' & Hrun & He & _ & Hd & _).
  - reflexivity.
  - reflexivity.
  - repeat constructor.
  - reflexivity.
  - reflexivity.
  - exists state'. split; [exact Hrun|].
    split; [rewrite He | rewrite Hd]; reflexivity.
Defined.

Lemma one_episode_absorbing_witness :
  ∃ state',
    run (pool_one_episode_step pool_step)
      {| obs := [7; 8]; reward := [1; 0]%Q; done := [1; 0]%Q;
         info := {| termination := [1; 0]%Q; truncation := [0; 0]%Q;
                    episode_return := [5; 2]%Q; autoreset := [0; 0]%Q |} |}
      [answer 1 1 1 false false; answer 2 2 2 false true] = Ok state'
    ∧ obs state' !! 0%nat = Some 7
    ∧ episode_return (info state') !! 0%nat = Some 5%Q.
Proof.
  destruct (one_episode_absorbing nonzero 2 pool_step
              {| obs := [7; 8]; reward := [1; 0]%Q; done := [1; 0]%Q;
                 info := {| termination := [1; 0]%Q; truncation := [0; 0]%Q;
                            episode_return := [5; 2]%Q;
                            autoreset := [0; 0]%Q |} |}
              [answer 1 1 1 false false; answer 2 2 2 false true])
    as (state' & Hrun & _ & Hfrozen).
  - intros s a Ha Hs. apply step_shaped; [exact Hs|].
    apply elem_of_cons in Ha as [->|Ha]; [repeat constructor|].
    apply elem_of_cons in Ha as [->|Ha]; [repeat constructor|].
    by apply elem_of_nil in Ha.
  - repeat constructor.
  - exists state'. split; [exact Hrun|].
    assert (slot 0 state'
            = (Some 7, Some 1%Q, Some 1%Q,
               [Some 1%Q; Some 0%Q; Some 5%Q; Some 0%Q])) as Hslot.
    { apply (Hfrozen 0%nat 1%Q); reflexivity. }
    unfold slot in Hslot. injection Hslot as Hobs _ _ _ _ Hret _.
    split; [exact Hobs | exact Hret].
Defined.

Lemma first_episode_return_witness :
  ∃ state',
    run (pool_one_episode_step pool_step) (reset 0%Q pool_reset 2 0%nat)
      [answer 1 1 1 false false; answer 2 2 2 true false;
       answer 3 4 4 false false] = Ok state'
    ∧ episode_return (info state') !! 0%nat
      = Some (running_return 0%Q 1%Q Qplus Qminus Qmult pool 0%nat 0%Q
                [answer 1 1 1 false false; answer 2 2 2 true false])
    ∧ done state' !! 0%nat = Some 1%Q.
Proof.
  destruct (first_episode_return 0%Q 1%Q Qplus Qminus Qmult nonzero pool 2
              (reset 0%Q pool_reset 2 0%nat)
              [answer 1 1 1 false false] (answer 2 2 2 true false)
              [answer 3 4 4 false false] 0%nat 0%Q)
    as (state' & Hrun & He & Hd).
  - reflexivity.
  - reflexivity.
  - repeat constructor.
  - repeat constructor.
  - reflexivity.
  - reflexivity.
  - repeat constructor.
  - reflexivity.
  - exists state'. split; [exact Hrun|]. split; [exact He | exact Hd].
Defined.

End EnvPoolFacts.

Module ECFacts.
Import EC.

Lemma value_opp (a : list Q) i :
  (PBT.fitness (Qopp <$> a) i == - value a i)%Q.
Proof.
  unfold PBT.fitness, value. rewrite list_lookup_fmap.
  destruct (a !! i); cbn; lra.
Qed.

Lemma StronglySorted_weaken {A : Type} (R R' : relation A) l :
  (∀ x y, R x y → R' x y) → StronglySorted R l → StronglySorted R' l.
Proof.
  intros H. induction 1 as [|x l Hs IH Hx]; constructor; [done|].
  eapply Forall_impl; [exact Hx|]. intros y. apply H.
Qed.

Lemma argsort_descending_perm (a : list Q) :
  argsort_descending a ≡ₚ seq 0 (length a).
Proof.
  unfold argsort_descending. rewrite PBTFacts.argsort_perm.
  by rewrite length_fmap.
Qed.

Lemma argsort_descending_sorted (a : list Q) :
  StronglySorted (λ i j, value a j <= value a i)%Q (argsort_descending a).
Proof.
  unfold argsort_descending.
  eapply StronglySorted_weaken; [|apply PBTFacts.argsort_sorted].
  intros i j H. unfold PBT.le_at in H.
  pose proof (value_opp a i). pose proof (value_opp a j). lra.
Qed.

Lemma argsort_descending_lt (a : list Q) i :
  i ∈ argsort_descending a → (i < length a)%nat.
Proof.
  rewrite argsort_descending_perm, elem_of_seq. lia.
Qed.

Lemma take_indices_in_range {X : Type} (xs : list X) indices :
  Forall (λ i, i < length xs)%nat indices →
  ∃ ys, take_indices xs indices = Ok ys
        ∧ Forall2 (λ i y, xs !! i = Some y) indices ys.
Proof.
  intros Hin. unfold take_indices.
  destruct (mapM _ indices) as [ys|] eqn:E.
  - exists ys. split; [done|]. apply mapM_Some_1 in E.
    clear -Hin E. induction E as [|i y indices ys Hi _ IH]; [constructor|].
    apply Forall_cons in Hin as [Hlt Hin].
    constructor; [|by apply IH].
    by rewrite Nat.min_l in Hi by lia.
  - exfalso. assert (is_Some (mapM (λ i, xs !! (i `min` (length xs - 1))%nat)
                                indices)) as [ys Hys]; [|congruence].
    apply mapM_is_Some_2. eapply Forall_impl; [exact Hin|].
    intros i Hi. cbn beta in Hi. unfold compose.
    apply lookup_lt_is_Some_2. lia.
Qed.

Lemma take_indices_seq n indices :
  Forall (λ i, i < n)%nat indices →
  take_indices (seq 0 n) indices = Ok indices.
Proof.
  intros Hin.
  destruct (take_indices_in_range (seq 0 n) indices) as (ys & -> & Hys).
  { by rewrite length_seq. }
  f_equal. clear Hin. induction Hys as [|i y indices ys Hi _ IH]; [done|].
  apply lookup_seq in Hi as [-> _]. by rewrite IH.
Qed.

(** X27.  What [compute_ranks] returns is the permutation that sorts: entry
    [p] is the index of the [p]-th largest value, so that the values read
    through it never increase. *)
Theorem compute_ranks_sorts (x : list Q) :
  ∃ ranks,
    compute_ranks x = Ok ranks
    ∧ ranks ≡ₚ seq 0 (length x)
    ∧ StronglySorted (λ i j, value x j <= value x i)%Q ranks
    ∧ ∀ p q i j, (p < q)%nat → ranks !! p = Some i → ranks !! q = Some j →
        (value x j <= value x i)%Q.
Proof.
  exists (argsort_descending x). unfold compute_ranks.
  rewrite take_indices_seq.
  2:{ apply Forall_forall. intros i. apply argsort_descending_lt. }
  split; [done|]. split; [apply argsort_descending_perm|].
  split; [apply argsort_descending_sorted|].
  intros p q i j Hpq Hp Hq.
  pose proof (argsort_descending_sorted x) as Hs.
  rewrite <- (take_drop q (argsort_descending x)) in Hs.
  eapply (StronglySorted_app_1_elem_of _ _ _ i j Hs).
  - apply list_elem_of_lookup. exists p. rewrite lookup_take_lt by lia. done.
  - apply list_elem_of_lookup. exists 0%nat. rewrite lookup_drop.
    by rewrite Nat.add_0_r.
Qed.

Section GA.
Context {Key X : Type}.
Variable random_split : Key → nat → list Key.
Variable select_parents : list Q → Z → Key → list nat.
Variable mutate : list X → Key → list X.
Variable crossover : list X → Key → list X.

Abbreviation tell := (tell random_split select_parents mutate crossover).

(** X26.  Elitism. [GA.tell] puts the [num_elites] fittest members, fittest
    first, in front of the offspring: no member left out is fitter than a
    member kept, and with at least one elite the first member of the new
    population is one of greatest fitness. *)
Theorem tell_keeps_elites (self : GA) (state : GAState) (xs : list X)
    (fitnesses : list Q) key select_key mutate_key crossover_key :
  random_split (EC.key state) 4%nat
  = [key; select_key; mutate_key; crossover_key] →
  length xs = length fitnesses →
  0 ≤ num_elites self ≤ Z.of_nat (length xs) →
  Forall (λ i, i < length xs)%nat
    (select_parents fitnesses (pop_size self - num_elites self)
       select_key) →
  ∃ elite_indices elites offsprings,
    tell self state xs fitnesses
    = Ok {| pop := elites ++ offsprings; EC.key := key |}
    ∧ length elites = Z.to_nat (num_elites self)
    ∧ NoDup elite_indices
    ∧ Forall2 (λ i e, xs !! i = Some e) elite_indices elites
    ∧ (∀ i j, i ∈ elite_indices → (j < length xs)%nat →
         j ∉ elite_indices → (value fitnesses j <= value fitnesses i)%Q)
    ∧ (0 < num_elites self →
       ∃ i e, elite_indices !! 0%nat = Some i
              ∧ (elites ++ offsprings) !! 0%nat = Some e
              ∧ xs !! i = Some e
              ∧ ∀ j, (j < length xs)%nat →
                  (value fitnesses j <= value fitnesses i)%Q).
Proof.
  intros Hsplit Hlen Hne Hparents. unfold EC.tell. rewrite Hsplit.
  set (indices := argsort_descending fitnesses).
  assert (indices ≡ₚ seq 0 (length xs)) as Hperm.
  { subst indices. by rewrite argsort_descending_perm, Hlen. }
  assert (length indices = length xs) as Hil.
  { by rewrite Hperm, length_seq. }
  pose proof (argsort_descending_sorted fitnesses) as Hsorted.
  fold indices in Hsorted.
  unfold Py.slice_to. rewrite decide_False by lia.
  set (m := Z.to_nat (num_elites self)).
  assert (Forall (λ i, i < length xs)%nat (take m indices)) as Hin.
  { apply Forall_forall. intros i Hi. apply elem_of_take in Hi as (p & Hp & _).
    apply list_elem_of_lookup_2 in Hp. rewrite Hperm in Hp.
    apply elem_of_seq in Hp. lia. }
  destruct (take_indices_in_range xs (take m indices) Hin)
    as (elites & -> & Helites). cbn [bind].
  destruct (take_indices_in_range xs _ Hparents) as (parents & -> & _).
  cbn [bind]. eexists (take m indices), elites, _.
  split; [reflexivity|].
  assert (length elites = m) as Hel.
  { rewrite <- (Forall2_length _ _ _ Helites), length_take. lia. }
  split; [done|].
  assert (NoDup indices) as Hnd.
  { rewrite Hperm. apply NoDup_seq. }
  split. { rewrite <- (take_drop m indices) in Hnd.
           by apply NoDup_app in Hnd as [? _]. }
  split; [done|]. split.
  - intros i j Hi Hj Hnot.
    assert (j ∈ drop m indices) as Hjd.
    { assert (j ∈ indices) as Hji.
      { rewrite Hperm. apply elem_of_seq. lia. }
      rewrite <- (take_drop m indices) in Hji.
      apply elem_of_app in Hji as [|]; done. }
    rewrite <- (take_drop m indices) in Hsorted.
    exact (StronglySorted_app_1_elem_of _ _ _ i j Hsorted Hi Hjd).
  - intros Hpos.
    destruct (lookup_lt_is_Some_2 (take m indices) 0%nat) as [i Hi].
    { rewrite length_take. lia. }
    destruct (Forall2_lookup_l _ _ _ _ _ Helites Hi) as (e & He & Hxe).
    exists i, e. split; [done|]. split.
    { rewrite lookup_app_l; [done|]. apply lookup_lt_Some in He. lia. }
    split; [done|]. intros j Hj.
    rewrite lookup_take_lt in Hi by lia.
    destruct indices as [|i0 rest]; [done|]. cbn in Hi. injection Hi as ->.
    assert (j ∈ i :: rest) as Hji.
    { rewrite Hperm. apply elem_of_seq. lia. }
    apply elem_of_cons in Hji as [->|Hji]; [apply Qle_refl|].
    apply StronglySorted_inv in Hsorted as [_ Hall].
    rewrite Forall_forall in Hall. by apply Hall.
Qed.

End GA.

Lemma tell_keeps_elites_witness :
  ∃ elites offsprings,
    EC.tell Demo.split (λ f n (k : nat), replicate (Z.to_nat n) 0%nat)
      (λ (xs : list Z) (k : nat), xs) (λ (xs : list Z) (k : nat), xs)
      {| pop_size := 3; num_elites := 1; enable_crossover := true |}
      {| pop := [10; 11; 12]; key := 7%nat |} [10; 11; 12] [1; 3; 2]%Q
    = Ok {| pop := elites ++ offsprings; key := 71%nat |}
    ∧ length elites = 1%nat.
Proof.
  destruct (tell_keeps_elites Demo.split
              (λ f n (k : nat), replicate (Z.to_nat n) 0%nat)
              (λ (xs : list Z) (k : nat), xs) (λ (xs : list Z) (k : nat), xs)
              {| pop_size := 3; num_elites := 1; enable_crossover := true |}
              {| pop := [10; 11; 12]; key := 7%nat |} [10; 11; 12]
              [1; 3; 2]%Q 71%nat 72%nat 73%nat 74%nat)
    as (idx & elites & off & Hrun & Hlen & _).
  - reflexivity.
  - reflexivity.
  - cbn; lia.
  - repeat constructor.
  - by exists elites, off.
Defined.

End ECFacts.

Module PPOLearnFacts.
Import PPO PPOLearn PPOFacts.

Section Learn.
Context {State Metrics TrainMetric EvalMetric Data : Type}.
Variable step : State → result (TrainMetric * State).
Variable evaluate : State → result (EvalMetric * State).
Variable metrics : State → Metrics.
Variable iterations : Metrics → Z.
Variable train_metric_data : TrainMetric → Data.

Abbreviation learn_loop :=
  (learn_loop step evaluate metrics train_metric_data).
Abbreviation learn :=
  (learn step evaluate metrics iterations train_metric_data).
Abbreviation record :=
  (@record State Metrics EvalMetric Data).

Hypothesis step_returns : ∀ s, ∃ r, step s = Ok r.
Hypothesis evaluate_returns : ∀ s, ∃ r, evaluate s = Ok r.

Lemma iterations_from_S i count :
  iterations_from i (S count) = (i + 1) :: iterations_from (i + 1) count.
Proof.
  unfold iterations_from. cbn [seq fmap list_fmap]. f_equal; [lia|].
  rewrite <- fmap_S_seq, <- list_fmap_compose. apply list_fmap_ext.
  intros _ k _. cbn. lia.
Qed.

Lemma learn_loop_log (config : gmap string Z) eval_interval :
  config !! "eval_interval" = Some eval_interval → eval_interval ≠ 0 →
  ∀ count i state (log : list record),
    ∃ log' state',
      learn_loop config count i state log = Ok (log ++ log', state')
      ∧ steps log' = iterations_from i count
      ∧ checkpoints log' = iterations_from i count
      ∧ evaluations log'
        = filter (λ iters, iters mod eval_interval = 0)
            (iterations_from i count).
Proof.
  intros He Hnz. induction count as [|count IH]; intros i state log.
  - exists [], state. cbn. by rewrite app_nil_r.
  - cbn [PPOLearn.learn_loop].
    destruct (step_returns state) as ([train_metrics s1] & ->).
    cbn [bind fst snd]. rewrite (getattr_lookup _ _ _ He). cbn [bind].
    unfold Py.mod_. rewrite decide_False by done. cbn [bind].
    rewrite iterations_from_S.
    destruct (decide ((i + 1) mod eval_interval = 0)) as [Hd|Hd].
    + destruct (evaluate_returns s1) as ([e s2] & ->). cbn [bind fst snd].
      edestruct (IH (i + 1) s2) as (log' & state' & Hrun & Hs & Hc & Hv).
      rewrite Hrun.
      exists ([WorkflowMetrics (i + 1) (metrics s1);
               TrainMetrics (i + 1) (train_metric_data train_metrics);
               EvalMetrics (i + 1) e; Checkpoint (i + 1) s2] ++ log'), state'.
      split; [by rewrite <- !app_assoc|].
      rewrite filter_cons_True by done.
      unfold steps, checkpoints, evaluations in *.
      rewrite !omap_app, Hs, Hc, Hv. done.
    + cbn [bind fst snd].
      edestruct (IH (i + 1) s1) as (log' & state' & Hrun & Hs & Hc & Hv).
      rewrite Hrun.
      exists ([WorkflowMetrics (i + 1) (metrics s1);
               TrainMetrics (i + 1) (train_metric_data train_metrics);
               Checkpoint (i + 1) s1] ++ log'), state'.
      split; [by rewrite <- !app_assoc|].
      rewrite filter_cons_False by done.
      unfold steps, checkpoints, evaluations in *.
      rewrite !omap_app, Hs, Hc, Hv. done.
Qed.

(** X15.  The training loop runs the iterations after the one recorded in
    the state up to [num_iters], the integer that [math.ceil] makes of the
    float quotient [total_timesteps / (rollout_length * num_envs)]: each
    takes one step and saves one checkpoint, and those whose number is a
    multiple of [eval_interval] evaluate the agent before it. *)
Theorem learn_schedule (config : gmap string Z) (state : State)
    (log : list record)
    rollout_length num_envs total_timesteps eval_interval num_iters :
  config !! "rollout_length" = Some rollout_length →
  config !! "num_envs" = Some num_envs →
  config !! "total_timesteps" = Some total_timesteps →
  config !! "eval_interval" = Some eval_interval →
  eval_interval ≠ 0 →
  Py.ceil_div total_timesteps (rollout_length * num_envs) = Ok num_iters →
  let start_iteration := iterations (metrics state) in
  let todo :=
    iterations_from start_iteration
      (Z.to_nat (num_iters - start_iteration)) in
  ∃ log' state',
    learn config state log = Ok (log ++ log', state')
    ∧ steps log' = todo
    ∧ checkpoints log' = todo
    ∧ evaluations log'
      = filter (λ iters, iters mod eval_interval = 0) todo.
Proof.
  intros Hr Hn Ht He Hnz Hceil start_iteration todo.
  unfold PPOLearn.learn.
  rewrite (getattr_lookup _ _ _ Hr), (getattr_lookup _ _ _ Hn),
    (getattr_lookup _ _ _ Ht). cbn [bind].
  rewrite Hceil. cbn [bind].
  destruct (learn_loop_log config eval_interval He Hnz
              (Z.to_nat (num_iters - start_iteration)) start_iteration
              state log) as (log' & state' & Hrun & Hs & Hc & Hv).
  exists log', state'. split; [exact Hrun|].
  split; [done|]. split; [done|]. done.
Qed.

End Learn.

Lemma learn_schedule_witness :
  ∃ log' state',
    PPOLearn.learn (λ s : Z, Ok ((), s + 1)) (λ s : Z, Ok ((), s))
      (λ s : Z, s) (λ m : Z, m) (λ t : unit, t)
      (<["rollout_length" := 2]> (<["num_envs" := 3]>
        (<["total_timesteps" := 20]> (<["eval_interval" := 2]> ∅))))
      0 []
    = Ok ([] ++ log', state')
    ∧ checkpoints log' = [1; 2; 3; 4]
    ∧ evaluations log' = [2; 4].
Proof.
  destruct (learn_schedule (λ s : Z, Ok ((), s + 1)) (λ s : Z, Ok ((), s))
              (λ s : Z, s) (λ m : Z, m) (λ t : unit, t))
    with (config := <["rollout_length" := 2]> (<["num_envs" := 3]>
                      (<["total_timesteps" := 20]>
                        (<["eval_interval" := 2]> (∅ : gmap string Z)))))
         (state := 0) (log := @nil (@record Z Z unit unit))
         (rollout_length := 2) (num_envs := 3) (total_timesteps := 20)
         (eval_interval := 2) (num_iters := 4)
    as (log' & state' & Hrun & _ & Hc & Hv).
  - intros s. by eexists.
  - intros s. by eexists.
  - reflexivity.
  - reflexivity.
  - reflexivity.
  - reflexivity.
  - lia.
  - vm_compute; reflexivity.
  - exists log', state'. split; [exact Hrun|]. split; [exact Hc | exact Hv].
Defined.

End PPOLearnFacts.

Module OpenESFacts.
Import Jnp OpenES PPOLossFacts.

Lemma map_result_ok {A B : Type} (f : A → result B) (g : A → B) l :
  Forall (λ x, f x = Ok (g x)) l → map_result f l = Ok (g <$> l).
Proof.
  induction 1 as [|x l Hx _ IH]; [done|].
  cbn [map_result]. by rewrite Hx, IH.
Qed.

Section Ask.
Context {F Key OptState : Type}.
Variables add mul : F → F → F.
Variable neg : F → F.
Variable random_split : Key → nat → list Key.
Variable rng_split_like_tree : Key → Key.
Variable random_normal : Key → nat → nat → list (list F).

Abbreviation ask :=
  (ask add mul neg random_split rng_split_like_tree random_normal).

Hypothesis normal_shape : ∀ k n d,
  length (random_normal k n d) = n
  ∧ Forall (λ row, length row = d) (random_normal k n d).

(** X29.  An optimizer that passed [__post_init__] samples [pop_size]
    candidates of the dimension of the mean, and replaces nothing in the
    state but its key. With mirror sampling the candidates come in pairs,
    [i] and [i + pop_size / 2], made of one draw: where the one is the mean
    plus [noise_std] times the draw, the other is the mean plus [noise_std]
    times the negated draw. *)
Theorem ask_population (self : OpenES)
    (state : OpenESState (F:=F) (Key:=Key) (OptState:=OptState))
    (new_key sample_key : Key) :
  __post_init__ self = Ok () →
  random_split (key state) 2 = [new_key; sample_key] →
  ∃ pop,
    ask self state
    = Ok (pop, {| mean := mean state; opt_state := opt_state state;
                  noise_std := noise_std state; key := new_key |})
    ∧ Z.of_nat (length pop) = pop_size self
    ∧ Forall (λ x, length x = length (mean state)) pop
    ∧ (mirror_sampling self = true →
       ∀ i j a b u v m,
         pop !! i = Some a →
         pop !! (i + Z.to_nat (pop_size self / 2))%nat = Some b →
         a !! j = Some u → b !! j = Some v → mean state !! j = Some m →
         ∃ e, u = add m (mul (noise_std state) e)
              ∧ v = add m (mul (noise_std state) (neg e))).
Proof.
  intros Hinit Hsplit. unfold OpenES.ask. rewrite Hsplit.
  unfold __post_init__ in Hinit.
  destruct (decide (pop_size self > 0)) as [Hpos|]; [|done].
  set (d := length (mean state)).
  set (k := rng_split_like_tree sample_key).
  set (perturb := λ delta : list F,
         zip_with (λ m e, add m (mul (noise_std state) e)) (mean state)
           delta).
  assert (∀ rows, Forall (λ row, length row = d) rows →
            map_result
              (λ delta : list F,
                 broadcast_with (λ m e, add m (mul (noise_std state) e))
                   (mean state) delta) rows
            = Ok (perturb <$> rows)) as Hmap.
  { intros rows Hrows. apply map_result_ok.
    eapply Forall_impl; [exact Hrows|]. intros row Hrow. cbn beta in Hrow.
    apply broadcast_with_same. by rewrite Hrow. }
  assert (∀ rows, Forall (λ row, length row = d) rows →
            Forall (λ x, length x = d) (perturb <$> rows)) as Hdim.
  { intros rows Hrows. apply Forall_fmap.
    eapply Forall_impl; [exact Hrows|]. intros row Hrow. cbn.
    subst perturb. cbn. rewrite length_zip_with. cbn beta in Hrow.
    subst d. lia. }
  destruct (mirror_sampling self) eqn:Hmirror.
  - destruct (decide (pop_size self mod 2 = 0)) as [Heven|]; [|done].
    unfold Py.floordiv. rewrite decide_False by done. cbn [bind].
    unfold normal.
    rewrite decide_False
      by (pose proof (Z.div_pos (pop_size self) 2); lia).
    cbn [bind].
    set (h := Z.to_nat (pop_size self / 2)).
    destruct (normal_shape k h d) as [Hlen Hrows].
    set (x := random_normal k h d) in *.
    assert (Forall (λ row, length row = d)
              (x ++ ((λ row : list F, neg <$> row) <$> x))) as Hall.
    { apply Forall_app. split; [done|]. apply Forall_fmap.
      eapply Forall_impl; [exact Hrows|]. intros row Hrow. cbn.
      by rewrite length_fmap. }
    rewrite (Hmap _ Hall). cbn [bind]. eexists. split; [reflexivity|].
    split.
    { rewrite length_fmap, length_app, length_fmap, Hlen. subst h.
      pose proof (Z.div_mod (pop_size self) 2 ltac:(lia)).
      assert (0 ≤ pop_size self / 2) by (apply Z.div_pos; lia). lia. }
    split; [by apply Hdim|].
    intros _ i j a b u v m Ha Hb Hu Hv Hm.
    rewrite list_lookup_fmap in Ha, Hb.
    assert (i < h)%nat as Hi.
    { destruct (decide (i < h)%nat) as [|Hge]; [done|].
      rewrite lookup_ge_None_2 in Hb; [done|].
      rewrite length_app, length_fmap, Hlen. lia. }
    rewrite lookup_app_l in Ha by lia.
    rewrite lookup_app_r in Hb by lia.
    replace (i + h - length x)%nat with i in Hb by lia.
    rewrite list_lookup_fmap in Hb.
    destruct (x !! i) as [row|]; [|done]. cbn in Ha, Hb.
    injection Ha as <-. injection Hb as <-. subst perturb. cbn beta in Hu, Hv.
    rewrite lookup_zip_with, Hm in Hu, Hv. cbn in Hu, Hv.
    rewrite list_lookup_fmap in Hv.
    destruct (row !! j) as [e|]; [|done]. cbn in Hu, Hv.
    injection Hu as <-. injection Hv as <-. by exists e.
  - unfold normal. rewrite decide_False by lia. cbn [bind].
    destruct (normal_shape k (Z.to_nat (pop_size self)) d) as [Hlen Hrows].
    rewrite (Hmap _ Hrows). cbn [bind]. eexists. split; [reflexivity|].
    split; [rewrite length_fmap, Hlen; lia|].
    split; [by apply Hdim | done].
Qed.

End Ask.

Lemma ask_population_witness :
  ∃ pop,
    OpenES.ask Qplus Qmult Qopp Demo.split (λ k : nat, k)
      (λ (k n d : nat), replicate n (replicate d (inject_Z (Z.of_nat k))))
      {| pop_size := 4; mirror_sampling := true |}
      {| mean := [10; 20]%Q; opt_state := (); noise_std := 1 # 2;
         key := 7%nat |}
    = Ok (pop, {| mean := [10; 20]%Q; opt_state := (); noise_std := 1 # 2;
                  key := 71%nat |})
    ∧ Z.of_nat (length pop) = 4.
Proof.
  destruct (ask_population (OptState:=unit) Qplus Qmult Qopp
              Demo.split (λ k : nat, k)
              (λ (k n d : nat),
                 replicate n (replicate d (inject_Z (Z.of_nat k)))))
    with (self := {| pop_size := 4; mirror_sampling := true |})
         (state := {| mean := [10; 20]%Q; opt_state := ();
                      noise_std := 1 # 2; key := 7%nat |})
         (new_key := 71%nat) (sample_key := 72%nat)
    as (pop & Hrun & Hlen & _).
  - intros k n d. split; [apply length_replicate|].
    apply Forall_replicate. apply length_replicate.
  - reflexivity.
  - reflexivity.
  - by exists pop.
Defined.

End OpenESFacts.

Module PBTEdgeFacts.

Lemma exploit_no_bottoms_witness :
  Demo.exploit_and_explore (Demo.config 0 (1 # 5)) 7%nat Demo.fitness
    (Demo.pop Demo.lrs) (Demo.states Demo.lrs)
  = Ok (Demo.pop Demo.lrs, Demo.states Demo.lrs).
Proof.
  apply (PBTFacts.exploit_no_bottoms 1%Q Qplus Qmult
           Demo.split Demo.uniform Demo.randint
           (Demo.config 0 (1 # 5)) 7%nat Demo.fitness
           (Demo.pop Demo.lrs) (Demo.states Demo.lrs)
           71%nat 72%nat 73%nat 1).
  - vm_compute; reflexivity.
  - reflexivity.
  - vm_compute; reflexivity.
  - vm_compute; reflexivity.
  - reflexivity.
Defined.

End PBTEdgeFacts.

